(** * fftool: the robust CSV loader and the ETL pipeline

    A shallow embedding of [etl/robust_loader.py] (value coercion,
    duplicate detection, the per-file load) and of [etl/pipeline.py] (the
    stage sequence and its quarantine-ratio gate), followed by the
    properties of the specification that concern them and by further
    properties of the code, which reach into [etl/robust_loader_v2.py]
    (its value parser and team normalisation) and
    [etl/player_normalizer.py] (team codes).

    Layout:
    - [Py]: the Python built-ins the loader relies on (strings, [int],
      [float], [str], comparison and equality of values, dictionaries);
    - [Loader]: [RobustCSVLoader];
    - [Pipeline]: [DataPipeline];
    - [Normalizer] and [LoaderV2]: [PlayerNormalizer.normalize_team_code]
      and the value functions of [RobustCSVLoaderV2];
    - the vocabulary of the properties and the sample files;
    - the properties, per function. *)

From Stdlib Require Import ZArith List String Ascii Bool Lia.
From Stdlib Require Import SpecFloat DecimalString.
Import ListNotations.

Local Open Scope string_scope.
Local Open Scope Z_scope.

(* ================================================================== *)
(** * The Python run time *)
(* ================================================================== *)

Module Py.

(** Text is modelled as ASCII: a [string] is the sequence of the code
    points of a Python [str], all below 128.  Case mapping and white space
    are those of Python on that range. *)

(** ** Exceptions *)

(** The exception classes that reach the loader.  A [ValueError] carries
    its message in structured form ([M] is the type of messages); the
    text Python's own built-ins put in their messages is not modelled. *)
Inductive exn (M : Type) : Type :=
| ValueError (m : M)
| TypeError
| OverflowError.
Arguments ValueError {M} m.
Arguments TypeError {M}.
Arguments OverflowError {M}.

Inductive result (E A : Type) : Type :=
| Ok (a : A)
| Raise (e : E).
Arguments Ok {E A} a.
Arguments Raise {E A} e.

Definition bind {E A B} (r : result E A) (k : A -> result E B) : result E B :=
  match r with
  | Ok a => k a
  | Raise e => Raise e
  end.

(** ** Strings *)

Definition code (c : ascii) : nat := nat_of_ascii c.

Definition in_range (lo hi n : nat) : bool := (lo <=? n)%nat && (n <=? hi)%nat.

(** [str.isspace] on ASCII: TAB, LF, VT, FF, CR, the four separators
    FS..US and the space. *)
Definition isspace (c : ascii) : bool :=
  in_range 9 13 (code c) || in_range 28 32 (code c).

(** The white space [int()] and [float()] skip around an ASCII literal
    (C's [isspace]): TAB, LF, VT, FF, CR and the space. *)
Definition c_isspace (c : ascii) : bool :=
  in_range 9 13 (code c) || (code c =? 32)%nat.

Definition isdigit (c : ascii) : bool := in_range 48 57 (code c).

Definition digit_value (c : ascii) : Z := Z.of_nat (code c) - 48.

Definition lower_char (c : ascii) : ascii :=
  if in_range 65 90 (code c) then ascii_of_nat (code c + 32) else c.

Definition upper_char (c : ascii) : ascii :=
  if in_range 97 122 (code c) then ascii_of_nat (code c - 32) else c.

Fixpoint map_string (f : ascii -> ascii) (s : string) : string :=
  match s with
  | EmptyString => EmptyString
  | String c s' => String (f c) (map_string f s')
  end.

(** [s.lower()] and [s.upper()]. *)
Definition lower : string -> string := map_string lower_char.
Definition upper : string -> string := map_string upper_char.

Definition is_empty (s : string) : bool :=
  match s with
  | EmptyString => true
  | String _ _ => false
  end.

Section Strip.
Variable sp : ascii -> bool.

Fixpoint lstrip_with (s : string) : string :=
  match s with
  | EmptyString => EmptyString
  | String c s' => if sp c then lstrip_with s' else s
  end.

Fixpoint rstrip_with (s : string) : string :=
  match s with
  | EmptyString => EmptyString
  | String c s' =>
      let r := rstrip_with s' in
      if sp c && is_empty r then EmptyString else String c r
  end.

Definition strip_with (s : string) : string := rstrip_with (lstrip_with s).
End Strip.

(** [s.strip()]. *)
Definition strip : string -> string := strip_with isspace.

(** [s.replace(c, '')] for a one-character [c]. *)
Fixpoint remove_char (c : ascii) (s : string) : string :=
  match s with
  | EmptyString => EmptyString
  | String d s' =>
      if Ascii.eqb d c then remove_char c s' else String d (remove_char c s')
  end.

(** [c in s] for a one-character [c]. *)
Fixpoint contains_char (c : ascii) (s : string) : bool :=
  match s with
  | EmptyString => false
  | String d s' => Ascii.eqb d c || contains_char c s'
  end.

(** [sep.join(l)]. *)
Fixpoint join (sep : string) (l : list string) : string :=
  match l with
  | [] => ""
  | [s] => s
  | s :: l' => s ++ sep ++ join sep l'
  end.

(** [x in l] for a list, tuple or set of strings. *)
Definition mem_string (x : string) (l : list string) : bool :=
  existsb (String.eqb x) l.

(** ** Numeric literals *)

(** The digits-and-underscores rule shared by [int()] and [float()]: an
    underscore stands between two digits. *)
Inductive seen := AtStart | AfterDigit | AfterUnderscore.

Fixpoint digits_value (s : string) (acc : Z) (prev : seen) : option Z :=
  match s with
  | EmptyString =>
      match prev with
      | AfterDigit => Some acc
      | _ => None
      end
  | String c s' =>
      if isdigit c then digits_value s' (acc * 10 + digit_value c) AfterDigit
      else if Ascii.eqb c "_" then
        match prev with
        | AfterDigit => digits_value s' acc AfterUnderscore
        | _ => None
        end
      else None
  end.

Definition take_sign (s : string) : bool * string :=
  match s with
  | String "-" s' => (true, s')
  | String "+" s' => (false, s')
  | _ => (false, s)
  end.

(** [int(s)] for a string, base ten; [None] is [ValueError].  (The limit
    CPython 3.11 puts on the number of digits is not modelled.) *)
Definition int_of_str (s : string) : option Z :=
  let '(neg, body) := take_sign (strip_with c_isspace s) in
  match digits_value body 0 AtStart with
  | Some n => Some (if neg then - n else n)
  | None => None
  end.

(** ** Floats: IEEE 754 binary64, as [spec_float] *)

Definition prec : Z := 53.
Definition emax : Z := 1024.

Definition float := spec_float.

(** The double nearest to [d * 10 ^ e] (ties to even), [d >= 0]. *)
Definition decimal_to_float (neg : bool) (d e : Z) : float :=
  match d with
  | Zpos p =>
      if 0 <=? e
      then binary_normalize prec emax ((if neg then - d else d) * 10 ^ e) 0 false
      else SFdiv prec emax (S754_finite neg p 0)
                           (S754_finite false (Z.to_pos (10 ^ (- e))) 0)
  | _ => S754_zero neg
  end.

(** [a / b] on integers: the double nearest to the quotient.  [None] is
    [ZeroDivisionError].  (Python raises [OverflowError] where the quotient
    exceeds every double; row counts stay far below that.) *)
Definition truediv (a b : Z) : option float :=
  match a, b with
  | _, Z0 => None
  | Z0, _ => Some (S754_zero (b <? 0))
  | _, _ =>
      Some (SFdiv prec emax
              (S754_finite (a <? 0) (Z.to_pos (Z.abs a)) 0)
              (S754_finite (b <? 0) (Z.to_pos (Z.abs b)) 0))
  end.

(** Underscores of a float literal: each one after a digit and before a
    digit. *)
Fixpoint underscores_ok (s : string) (prev : seen) : bool :=
  match s with
  | EmptyString =>
      match prev with
      | AfterUnderscore => false
      | _ => true
      end
  | String c s' =>
      if Ascii.eqb c "_" then
        match prev with
        | AfterDigit => underscores_ok s' AfterUnderscore
        | _ => false
        end
      else if isdigit c then underscores_ok s' AfterDigit
      else
        match prev with
        | AfterUnderscore => false
        | _ => underscores_ok s' AtStart
        end
  end.

(** The longest run of digits at the head of [s]: the value accumulated on
    top of [acc], the number of digits and the rest. *)
Fixpoint take_digits (s : string) (acc : Z) (n : nat) : Z * nat * string :=
  match s with
  | String c s' =>
      if isdigit c then take_digits s' (acc * 10 + digit_value c) (S n)
      else (acc, n, s)
  | EmptyString => (acc, n, s)
  end.

Definition is_exp_mark (c : ascii) : bool := Ascii.eqb c "e" || Ascii.eqb c "E".

(** [float(s)] for a string; [None] is [ValueError]. *)
Definition float_of_str (s : string) : option float :=
  let s0 := strip_with c_isspace s in
  if negb (underscores_ok s0 AtStart) then None else
  let '(neg, body) := take_sign (remove_char "_" s0) in
  let l := lower body in
  if String.eqb l "inf" || String.eqb l "infinity" then Some (S754_infinity neg)
  else if String.eqb l "nan" then Some S754_nan
  else
    let '(i, ni, s1) := take_digits body 0 0 in
    let '(d, nf, s2) :=
      match s1 with
      | String "." r => take_digits r i 0
      | _ => (i, 0%nat, s1)
      end in
    if (ni + nf =? 0)%nat then None else
    match s2 with
    | EmptyString => Some (decimal_to_float neg d (- Z.of_nat nf))
    | String c r =>
        if is_exp_mark c then
          let '(eneg, r1) := take_sign r in
          let '(e, ne, r2) := take_digits r1 0 0 in
          if (ne =? 0)%nat || negb (is_empty r2) then None
          else Some (decimal_to_float neg d ((if eneg then - e else e) - Z.of_nat nf))
        else None
    end.

(** [int(x)] for a float: truncation towards zero; infinities raise
    [OverflowError], NaN raises [ValueError]. *)
Definition int_of_float {M} (bad : M) (x : float) : result (exn M) Z :=
  match x with
  | S754_zero _ => Ok 0
  | S754_infinity _ => Raise OverflowError
  | S754_nan => Raise (ValueError bad)
  | S754_finite s m e =>
      let a := if 0 <=? e then Zpos m * 2 ^ e else Zpos m / 2 ^ (- e) in
      Ok (if s then - a else a)
  end.

(** [float(n)] for an integer that is a double (the constants of the
    source are). *)
Definition float_of_int (n : Z) : float := binary_normalize prec emax n 0 false.

(** ** [str()] of numbers *)

(** [str(n)] for an integer. *)
Definition str_of_int (n : Z) : string := NilZero.string_of_int (Z.to_int n).

Definition float_eqb (x y : float) : bool :=
  match x, y with
  | S754_zero a, S754_zero b => Bool.eqb a b
  | S754_infinity a, S754_infinity b => Bool.eqb a b
  | S754_nan, S754_nan => true
  | S754_finite a m e, S754_finite b n f => Bool.eqb a b && Pos.eqb m n && Z.eqb e f
  | _, _ => false
  end.

(** [repr] of a float is the shortest decimal that reads back as the same
    double, the nearest one when several do.  The positive value is held
    as the fraction [num / den]. *)
Section Repr.
Variables (x : float) (num den : Z).

(** [10 ^ k <= num / den]. *)
Definition pow10_le (k : Z) : bool :=
  if 0 <=? k then den * 10 ^ k <=? num else den <=? num * 10 ^ (- k).

(** The largest [k] at or below the start with [10 ^ k <= num / den]. *)
Fixpoint decimal_exponent (fuel : nat) (k : Z) : Z :=
  match fuel with
  | O => k
  | S f => if pow10_le k then k else decimal_exponent f (k - 1)
  end.

(** [floor (num / den / 10 ^ q)]. *)
Definition scaled_floor (q : Z) : Z :=
  if 0 <=? q then num / (den * 10 ^ q) else (num * 10 ^ (- q)) / den.

(** [num / den] lies nearer to [(d + 1) * 10 ^ q] than to [d * 10 ^ q]. *)
Definition upper_is_nearer (d q : Z) : bool :=
  if 0 <=? q then (2 * d + 1) * 10 ^ q * den <? 2 * num
  else (2 * d + 1) * den <? 2 * num * 10 ^ (- q).

(** Digits [d] and exponent [q] of the shortest decimal [d * 10 ^ q],
    trying [n], [n + 1], ... significant digits. *)
Fixpoint shortest (fuel : nat) (n k : Z) : Z * Z :=
  let q := k - n + 1 in
  let lo := scaled_floor q in
  let nearest := if upper_is_nearer lo q then (lo + 1, q) else (lo, q) in
  match fuel with
  | O => nearest
  | S f =>
      let ok_lo := float_eqb (decimal_to_float false lo q) x in
      let ok_hi := float_eqb (decimal_to_float false (lo + 1) q) x in
      if ok_lo && ok_hi then nearest
      else if ok_lo then (lo, q)
      else if ok_hi then (lo + 1, q)
      else shortest f (n + 1) k
  end.
End Repr.

Fixpoint drop_zeros (fuel : nat) (d q : Z) : Z * Z :=
  match fuel with
  | O => (d, q)
  | S f => if (d mod 10 =? 0) && negb (d =? 0) then drop_zeros f (d / 10) (q + 1) else (d, q)
  end.

Fixpoint zeros (n : nat) : string :=
  match n with
  | O => ""
  | S n' => String "0" (zeros n')
  end.

(** The layout of [repr]: exponent form when the decimal point falls more
    than sixteen digits to the right or more than three zeros to the left. *)
Definition repr_layout (digits : string) (decpt : Z) : string :=
  let n := Z.of_nat (String.length digits) in
  if (decpt <=? -4) || (16 <? decpt) then
    let e := decpt - 1 in
    let mantissa :=
      match digits with
      | String c EmptyString => digits
      | String c r => String c ("." ++ r)
      | EmptyString => digits
      end in
    mantissa ++ "e" ++ (if e <? 0 then "-" else "+")
             ++ (if Z.abs e <? 10 then "0" else "") ++ str_of_int (Z.abs e)
  else if decpt <=? 0 then "0." ++ zeros (Z.to_nat (- decpt)) ++ digits
  else if n <=? decpt then digits ++ zeros (Z.to_nat (decpt - n)) ++ ".0"
  else substring 0 (Z.to_nat decpt) digits ++ "."
       ++ substring (Z.to_nat decpt) (Z.to_nat (n - decpt)) digits.

(** [repr(x)], which is also [str(x)], for a float. *)
Definition float_repr (x : float) : string :=
  match x with
  | S754_zero s => if s then "-0.0" else "0.0"
  | S754_infinity s => if s then "-inf" else "inf"
  | S754_nan => "nan"
  | S754_finite s m e =>
      let num := if 0 <=? e then Zpos m * 2 ^ e else Zpos m in
      let den := if 0 <=? e then 1 else 2 ^ (- e) in
      let k := decimal_exponent num den 640 308 in
      let '(d0, q0) := shortest (S754_finite false m e) num den 16 1 k in
      let '(d, q) := drop_zeros 400 d0 q0 in
      let digits := str_of_int d in
      (if s then "-" else "") ++ repr_layout digits (Z.of_nat (String.length digits) + q)
  end.

(** ** Values *)

(** The values a loaded cell can hold. *)
Inductive pyval : Type :=
| PNone
| PBool (b : bool)
| PInt (n : Z)
| PFloat (x : float)
| PStr (s : string).

(** [str(v)]. *)
Definition str (v : pyval) : string :=
  match v with
  | PNone => "None"
  | PBool b => if b then "True" else "False"
  | PInt n => str_of_int n
  | PFloat x => float_repr x
  | PStr s => s
  end.

(** Comparison of an integer with a float is exact. *)
Definition compare_int_float (n : Z) (x : float) : option comparison :=
  match x with
  | S754_nan => None
  | S754_infinity s => Some (if s then Gt else Lt)
  | S754_zero _ => Some (n ?= 0)
  | S754_finite s m e =>
      let a := if s then Zneg m else Zpos m in
      Some (if 0 <=? e then n ?= a * 2 ^ e else n * 2 ^ (- e) ?= a)
  end.

Inductive number := NInt (n : Z) | NFloat (x : float).

(** [bool] is a subclass of [int]. *)
Definition as_number (v : pyval) : option number :=
  match v with
  | PBool b => Some (NInt (if b then 1 else 0))
  | PInt n => Some (NInt n)
  | PFloat x => Some (NFloat x)
  | _ => None
  end.

(** [None] when a NaN is involved: every ordering test is then false. *)
Definition compare_number (a b : number) : option comparison :=
  match a, b with
  | NInt m, NInt n => Some (m ?= n)
  | NFloat x, NFloat y => SFcompare x y
  | NInt m, NFloat y => compare_int_float m y
  | NFloat x, NInt n => option_map CompOpp (compare_int_float n x)
  end.

Definition is_lt (c : option comparison) : bool :=
  match c with
  | Some Lt => true
  | _ => false
  end.

Definition is_le (c : option comparison) : bool :=
  match c with
  | Some Lt | Some Eq => true
  | _ => false
  end.

Definition is_eq (c : option comparison) : bool :=
  match c with
  | Some Eq => true
  | _ => false
  end.

(** [a < b] and [a <= b].  Numbers compare with numbers and strings with
    strings; any other pair raises [TypeError]. *)
Definition order {M} (test : option comparison -> bool) (a b : pyval)
  : result (exn M) bool :=
  match as_number a, as_number b with
  | Some x, Some y => Ok (test (compare_number x y))
  | _, _ =>
      match a, b with
      | PStr s, PStr t => Ok (test (Some (String.compare s t)))
      | _, _ => Raise TypeError
      end
  end.

Definition lt {M} : pyval -> pyval -> result (exn M) bool := order is_lt.
Definition le {M} : pyval -> pyval -> result (exn M) bool := order is_le.

(** [a == b]. *)
Definition eq (a b : pyval) : bool :=
  match as_number a, as_number b with
  | Some x, Some y => is_eq (compare_number x y)
  | _, _ =>
      match a, b with
      | PStr s, PStr t => String.eqb s t
      | PNone, PNone => true
      | _, _ => false
      end
  end.

(** [x in l] for a list: some element equals [x]. *)
Definition mem (x : pyval) (l : list pyval) : bool := existsb (eq x) l.

(** [min(a, b)] gives [a] unless [b < a]; [max(a, b)] gives [a] unless
    [b > a]. *)
Definition min2 {M} (a b : pyval) : result (exn M) pyval :=
  bind (lt b a) (fun c => Ok (if c then b else a)).

Definition max2 {M} (a b : pyval) : result (exn M) pyval :=
  bind (lt a b) (fun c => Ok (if c then b else a)).

(** ** Dictionaries *)

(** A [dict] with string keys, in insertion order: assigning to a key that
    is present keeps its place. *)
Definition dict (V : Type) : Type := list (string * V).

Fixpoint dict_get {V} (d : dict V) (k : string) : option V :=
  match d with
  | [] => None
  | (k', v) :: d' => if String.eqb k' k then Some v else dict_get d' k
  end.

Fixpoint dict_set {V} (d : dict V) (k : string) (v : V) : dict V :=
  match d with
  | [] => [(k, v)]
  | (k', v') :: d' =>
      if String.eqb k' k then (k', v) :: d' else (k', v') :: dict_set d' k v
  end.

Definition keys {V} (d : dict V) : list string := map fst d.

Definition dict_map {V W} (f : V -> W) (d : dict V) : dict W :=
  map (fun kv => (fst kv, f (snd kv))) d.

(** [len(l)] as a Python integer. *)
Definition len {A} (l : list A) : Z := Z.of_nat (List.length l).

End Py.

(* ================================================================== *)
(** * [etl/robust_loader.py] *)
(* ================================================================== *)

Module Loader.
Import Py.
Local Open Scope list_scope.

(** ** Constants *)

Definition NA_TOKENS : list string :=
  [ ""; "NA"; "N/A"; "n/a"; "null"; "NULL"; "None"; "NONE";
    "nan"; "NaN"; "NAN"; "#N/A"; "#NA"; "#NULL!"; "--";
    "undefined"; "UNDEFINED"; "missing"; "MISSING"; "-" ].

Definition TEAM_MAPPINGS : dict string :=
  [ ("BLT", "BAL"); ("ARZ", "ARI"); ("HST", "HOU"); ("LA", "LAR"); ("CLV", "CLE") ].

Definition VALID_TEAMS : list string :=
  [ "ARI"; "ATL"; "BAL"; "BUF"; "CAR"; "CHI"; "CIN"; "CLE";
    "DAL"; "DEN"; "DET"; "GB"; "HOU"; "IND"; "JAX"; "KC";
    "LAC"; "LAR"; "LV"; "MIA"; "MIN"; "NE"; "NO"; "NYG";
    "NYJ"; "PHI"; "PIT"; "SEA"; "SF"; "TB"; "TEN"; "WAS";
    "WSH" ].

(** [VALID_TEAMS | set(TEAM_MAPPINGS.keys())]; the two are disjoint. *)
Definition VALID_TEAMS_WITH_MAPPINGS : list string :=
  VALID_TEAMS ++ keys TEAM_MAPPINGS.

Definition VALID_POSITIONS : list string :=
  [ "QB"; "RB"; "WR"; "TE"; "DST"; "K"; "DEF"; "PK" ].

(** ** Records *)

Record ColumnSpec : Type := {
  name : string;
  dtype : string;
  nullable : bool;
  allowed_range : option (list pyval);
  units : option string;
  primary_key : bool;
  unique : bool
}.

(** [ColumnSpec(name, dtype, nullable)] and
    [ColumnSpec(name, dtype, nullable, allowed_range)]. *)
Definition column (n d : string) (nul : bool) : ColumnSpec :=
  {| name := n; dtype := d; nullable := nul; allowed_range := None;
     units := None; primary_key := false; unique := false |}.

Definition column_in (n d : string) (nul : bool) (range : list pyval) : ColumnSpec :=
  {| name := n; dtype := d; nullable := nul; allowed_range := Some range;
     units := None; primary_key := false; unique := false |}.

Definition ints (lo hi : Z) : list pyval := [PInt lo; PInt hi].
Definition strs (l : list string) : list pyval := map PStr l.

(** The texts of the errors.  [Builtin] is a text written by the
    interpreter or its library ([int], [float], [csv]). *)
Inductive message : Type :=
| NullValue (column : string)
| CannotParse (column : string) (value : option string) (dtype : string)
| CannotParseBoolean (value : string)
| InvalidValue (column : string) (parsed : pyval)
| MissingColumns (columns : list string)
| FieldsNotInFieldnames (fields : list string)
| FileNotFound (path : string)
| Builtin.

Definition error : Type := exn message.

(** [str(e)]. *)
Definition str_of_error (e : error) : message :=
  match e with
  | ValueError m => m
  | TypeError => Builtin
  | OverflowError => Builtin
  end.

(** ** [_parse_column_specs] *)

Definition projections_2025 : dict ColumnSpec :=
  [ ("fantasyPointsRank", column_in "fantasyPointsRank" "int" false (ints 1 1000));
    ("playerName", column "playerName" "str" false);
    ("teamName", column_in "teamName" "str" false (strs VALID_TEAMS_WITH_MAPPINGS));
    ("position", column_in "position" "str" false (strs VALID_POSITIONS));
    ("byeWeek", column_in "byeWeek" "int" true (ints 1 18));
    ("games", column_in "games" "float" true (ints 0 17));
    ("fantasyPoints", column_in "fantasyPoints" "float" false (ints 0 500));
    ("auctionValue", column_in "auctionValue" "int" true (ints 0 200));
    ("passComp", column_in "passComp" "float" true (ints 0 1000));
    ("passAtt", column_in "passAtt" "float" true (ints 0 1000));
    ("passYds", column_in "passYds" "float" true (ints 0 10000));
    ("passTd", column_in "passTd" "float" true (ints 0 100));
    ("passInt", column_in "passInt" "float" true (ints 0 50));
    ("passSacked", column_in "passSacked" "float" true (ints 0 100));
    ("rushAtt", column_in "rushAtt" "float" true (ints 0 500));
    ("rushYds", column_in "rushYds" "float" true (ints (-100) 3000));
    ("rushTd", column_in "rushTd" "float" true (ints 0 30));
    ("recvTargets", column_in "recvTargets" "float" true (ints 0 300));
    ("recvReceptions", column_in "recvReceptions" "float" true (ints 0 200));
    ("recvYds", column_in "recvYds" "float" true (ints 0 3000));
    ("recvTd", column_in "recvTd" "float" true (ints 0 30));
    ("fumbles", column_in "fumbles" "float" true (ints 0 20));
    ("fumblesLost", column_in "fumblesLost" "float" true (ints 0 20));
    ("twoPt", column_in "twoPt" "float" true (ints 0 10)) ].

Definition adp0_2025 : dict ColumnSpec :=
  [ ("Overall Rank", column_in "Overall Rank" "int" false (ints 1 600));
    ("Full Name", column "Full Name" "str" false);
    ("Team Abbreviation",
      column_in "Team Abbreviation" "str" false (strs VALID_TEAMS_WITH_MAPPINGS));
    ("Position", column_in "Position" "str" false (strs VALID_POSITIONS));
    ("Position Rank", column_in "Position Rank" "int" false (ints 1 200));
    ("Bye Week", column_in "Bye Week" "int" true (ints 1 18));
    ("ADP", column_in "ADP" "float" true (ints 1 300));
    ("Projected Points", column_in "Projected Points" "float" true (ints 0 500));
    ("Auction Value", column_in "Auction Value" "int" true (ints 0 200));
    ("Is Rookie", column_in "Is Rookie" "str" true (strs ["Yes"; "No"]));
    ("Data Status", column "Data Status" "str" true) ].

Definition preseason_rankings_2025 : dict ColumnSpec :=
  [ ("Team", column_in "Team" "str" false (strs VALID_TEAMS_WITH_MAPPINGS));
    ("Point Spread Rating Points", column "Point Spread Rating Points" "float" true);
    ("Point Spread Rating QB", column "Point Spread Rating QB" "float" true);
    ("Strength of Schedule To Date", column "Strength of Schedule To Date" "float" true);
    ("Strength of Schedule Remaining",
      column "Strength of Schedule Remaining" "int" true);
    ("Projections Avg. Wins", column_in "Projections Avg. Wins" "float" true (ints 0 17));
    ("Projections Make Playoffs",
      column_in "Projections Make Playoffs" "float" true (ints 0 100));
    ("Projections Win Division Title",
      column_in "Projections Win Division Title" "float" true (ints 0 100));
    ("Projections Win Conf Champ",
      column_in "Projections Win Conf Champ" "float" true (ints 0 100));
    ("Projections Win Super Bowl",
      column_in "Projections Win Super Bowl" "float" true (ints 0 100)) ].

Definition registry : Type := dict (dict ColumnSpec).

Definition _parse_column_specs : registry :=
  [ ("projections_2025.csv", projections_2025);
    ("adp0_2025.csv", adp0_2025);
    ("preseason_rankings_2025.csv", preseason_rankings_2025) ].

(** ** [parse_value] *)

(** A raw cell is a string, or [None] where the record was shorter than
    the header. *)
Definition raw : Type := option string.

(** [value in NA_TOKENS or (isinstance(value, str) and value.strip() in NA_TOKENS)]. *)
Definition is_na (value : raw) : bool :=
  match value with
  | Some s => mem_string s NA_TOKENS || mem_string (strip s) NA_TOKENS
  | None => false
  end.

(** The reassignments of [value] in the [int] and [float] branches. *)
Definition cleaned (d : string) (value : raw) : raw :=
  match value with
  | Some s =>
      if String.eqb d "int" then
        Some (strip (remove_char "$" (remove_char "," s)))
      else if String.eqb d "float" then
        Some (strip (remove_char "%" (remove_char "$" (remove_char "," s))))
      else value
  | None => None
  end.

Definition true_tokens : list string := ["true"; "yes"; "1"; "t"; "y"].
Definition false_tokens : list string := ["false"; "no"; "0"; "f"; "n"].

(** The body of the [try]: the parsed value and [was_coerced]; [value] is
    the cell after [cleaned]. *)
Definition convert (d : string) (value : raw) : result error (pyval * bool) :=
  if String.eqb d "str" then
    match value with
    | Some s => Ok (if is_empty s then PNone else PStr (strip s), false)
    | None => Ok (PNone, false)
    end
  else if String.eqb d "int" then
    match value with
    | Some s =>
        if contains_char "." s then
          match float_of_str s with
          | Some x => bind (int_of_float Builtin x) (fun n => Ok (PInt n, true))
          | None => Raise (ValueError Builtin)
          end
        else
          match int_of_str s with
          | Some n => Ok (PInt n, false)
          | None => Raise (ValueError Builtin)
          end
    | None => Raise TypeError
    end
  else if String.eqb d "float" then
    match value with
    | Some s =>
        match float_of_str s with
        | Some x => Ok (PFloat x, false)
        | None => Raise (ValueError Builtin)
        end
    | None => Raise TypeError
    end
  else if String.eqb d "bool" then
    match value with
    | Some s =>
        let value_lower := strip (lower s) in
        if mem_string value_lower true_tokens then Ok (PBool true, false)
        else if mem_string value_lower false_tokens then Ok (PBool false, false)
        else Raise (ValueError (CannotParseBoolean s))
    | None => Ok (PBool false, false)
    end
  else
    match value with
    | Some s => Ok (PStr s, true)
    | None => Ok (PStr "None", true)
    end.

(** [isinstance(v, (int, float))]. *)
Definition is_numeric (v : pyval) : bool :=
  match v with
  | PBool _ | PInt _ | PFloat _ => true
  | _ => false
  end.

Definition is_team_column (n : string) : bool :=
  mem_string n ["teamName"; "Team Abbreviation"; "Team"].

(** [TEAM_MAPPINGS[v]] when [v in TEAM_MAPPINGS]. *)
Definition team_mapping (v : pyval) : option string :=
  match v with
  | PStr s => dict_get TEAM_MAPPINGS s
  | _ => None
  end.

(** "Validate allowed range": the part after the [try]. *)
Definition validate (spec : ColumnSpec) (parsed : pyval) (was_coerced : bool)
  : result error (pyval * bool) :=
  match parsed, allowed_range spec with
  | PNone, _ => Ok (parsed, was_coerced)
  | _, None => Ok (parsed, was_coerced)
  | _, Some [] => Ok (parsed, was_coerced)
  | _, Some ((first :: _) as range) =>
      if is_numeric first then
        let min_val := first in
        let max_val := last range first in
        bind (le min_val parsed) (fun above =>
        bind (if above then le parsed max_val else Ok false) (fun inside =>
        if inside then Ok (parsed, was_coerced)
        else
          bind (min2 parsed max_val) (fun m =>
          bind (max2 min_val m) (fun clamped =>
          Ok (clamped, true)))))
      else if mem parsed range then Ok (parsed, was_coerced)
      else
        match (if is_team_column (name spec) then team_mapping parsed else None) with
        | Some mapped_value => Ok (PStr mapped_value, true)
        | None =>
            if String.eqb (dtype spec) "str" then
              let upper_val := upper (str parsed) in
              if mem (PStr upper_val) range then Ok (PStr upper_val, true)
              else
                match (if is_team_column (name spec)
                       then dict_get TEAM_MAPPINGS upper_val else None) with
                | Some mapped_value => Ok (PStr mapped_value, true)
                | None =>
                    if nullable spec then Ok (PNone, true)
                    else Raise (ValueError (InvalidValue (name spec) parsed))
                end
            else Ok (parsed, was_coerced)
        end
  end.

Definition parse_value (value : raw) (spec : ColumnSpec) : result error (pyval * bool) :=
  if is_na value then
    if nullable spec then Ok (PNone, false)
    else Raise (ValueError (NullValue (name spec)))
  else
    let value' := cleaned (dtype spec) value in
    match convert (dtype spec) value' with
    | Ok (parsed, was_coerced) => validate spec parsed was_coerced
    | Raise OverflowError => Raise OverflowError
    | Raise _ =>
        if nullable spec then Ok (PNone, true)
        else Raise (ValueError (CannotParse (name spec) value' (dtype spec)))
    end.

(** ** [detect_duplicates] *)

Definition row : Type := dict pyval.

(** One component of the key: [row.get(col, '')], lower-cased and
    stripped when a string, then [str]. *)
Definition key_value (r : row) (col : string) : string :=
  match dict_get r col with
  | Some (PStr s) => strip (lower s)
  | Some v => str v
  | None => ""
  end.

Definition composite_key (key_columns : list string) (r : row) : string :=
  join "|" (map (key_value r) key_columns).

(** The loop over [data], on [seen_keys], [unique] and [duplicates]. *)
Fixpoint detect_loop (key_columns : list string) (data : list row)
    (seen_keys : dict Z) (unique_ duplicates : list row) : list row * list row :=
  match data with
  | [] => (unique_, duplicates)
  | r :: rest =>
      let key := composite_key key_columns r in
      match dict_get seen_keys key with
      | Some first_row =>
          let dup_record :=
            dict_set (dict_set r "_duplicate_of_row" (PInt first_row))
                     "_duplicate_key" (PStr key) in
          detect_loop key_columns rest seen_keys unique_ (duplicates ++ [dup_record])
      | None =>
          detect_loop key_columns rest
            (dict_set seen_keys key (len unique_ + 1)) (unique_ ++ [r]) duplicates
      end
  end.

Definition detect_duplicates (data : list row) (key_columns : list string)
  : list row * list row :=
  detect_loop key_columns data [] [] [].

(** ** [load_csv] *)

Record row_exception : Type := {
  exc_row : Z;
  exc_column : string;
  exc_value : raw;
  exc_error : message
}.

(** An entry of [exceptions]: a field-level exception of a quarantined
    row, or [{'error': str(e)}]. *)
Inductive exception_entry : Type :=
| RowException (e : row_exception)
| LoadException (m : message).

(** A value of a quarantined row: a cell, or the list under
    ['_exceptions']. *)
Inductive qval : Type :=
| Cell (v : pyval)
| Exceptions (l : list row_exception).

Definition qrow : Type := dict qval.

(** The file a warning names is left out. *)
Inductive warning : Type :=
| MissingColumnsWarning (columns : list string)
| ExtraColumns (columns : list string)
| Quarantined (rows : Z).

Record FileMetadata : Type := {
  path : string;
  sha256 : string;
  row_count : Z;
  column_count : Z;
  parsed_rows : Z;
  quarantined_rows : Z;
  coercion_count : Z;
  null_count : Z;
  duplicate_count : Z;
  load_timestamp : string;
  exceptions : list exception_entry
}.

Record LoadResult : Type := {
  success : bool;
  data : list row;
  metadata : FileMetadata;
  quarantined : list qrow;
  errors : list message;
  warnings : list warning
}.

(** A file of the canonical tree as the loader meets it: [file_name] is
    [filepath.name], [file_sha256] what [compute_file_hash] returns, and
    [file_records] what [csv.reader] yields under the detected encoding
    and dialect, header first, a blank line as the empty record. *)
Record source_file : Type := {
  file_path : string;
  file_name : string;
  file_exists : bool;
  file_sha256 : string;
  file_records : list (list string)
}.

Definition is_nil {A} (l : list A) : bool :=
  match l with
  | [] => true
  | _ :: _ => false
  end.

(** *** [csv.DictReader] *)

(** [reader.fieldnames]: the first record, [None] for an empty file. *)
Definition fieldnames (records : list (list string)) : option (list string) :=
  match records with
  | [] => None
  | header :: _ => Some header
  end.

(** [dict(zip(fieldnames, record))], the fields the record lacks set to
    [None].  The surplus fields of a longer record go under the key [None],
    which the row loop skips ([if col_name is None: continue]); that entry
    is not represented. *)
Fixpoint zip_record (fields values : list string) (d : dict raw) : dict raw :=
  match fields, values with
  | [], _ => d
  | f :: fs, [] => zip_record fs [] (dict_set d f None)
  | f :: fs, v :: vs => zip_record fs vs (dict_set d f (Some v))
  end.

(** The rows [DictReader] yields: one per non-blank record after the
    header. *)
Definition DictReader (records : list (list string)) : list (dict raw) :=
  match records with
  | [] => []
  | header :: rest =>
      map (fun r => zip_record header r []) (filter (fun r => negb (is_nil r)) rest)
  end.

(** *** Header validation *)

(** [set(l)], as a list without repetition. *)
Definition set_of (l : list string) : list string := nodup string_dec l.

(** [a - b] on sets. *)
Definition difference (a b : list string) : list string :=
  filter (fun c => negb (mem_string c b)) a.

Definition missing_cols (specs : dict ColumnSpec) (fields : option (list string))
  : list string :=
  difference (set_of (keys specs))
             (set_of (match fields with Some l => l | None => [] end)).

Definition extra_cols (specs : dict ColumnSpec) (fields : option (list string))
  : list string :=
  difference (set_of (match fields with Some l => l | None => [] end))
             (set_of (keys specs)).

(** "Validate headers if specs exist": the errors and warnings it appends
    and the exception it raises. *)
Definition validate_header (specs : dict ColumnSpec) (fields : option (list string))
    (strict : bool) : list message * list warning * option error :=
  if is_nil specs then ([], [], None)
  else
    let missing := missing_cols specs fields in
    let extra := extra_cols specs fields in
    if negb (is_nil missing) && strict then
      ([MissingColumns missing], [], Some (ValueError (MissingColumns missing)))
    else
      ([],
       ((if is_nil missing then [] else [MissingColumnsWarning missing])
          ++ (if is_nil extra then [] else [ExtraColumns extra]))%list,
       None).

(** *** The row loop *)

Record row_state : Type := {
  parsed_row : row;
  row_exceptions : list row_exception;
  row_valid : bool
}.

Record loop_state : Type := {
  st_parsed_data : list row;
  st_quarantined_rows : list qrow;
  st_coercion_count : Z;
  st_null_count : Z;
  st_total_rows : Z;
  st_exceptions : list exception_entry
}.

(** [str(value).strip() if value else None]. *)
Definition passthrough (value : raw) : pyval :=
  match value with
  | Some s => if is_empty s then PNone else PStr (strip s)
  | None => PNone
  end.

Definition is_none (v : pyval) : bool :=
  match v with
  | PNone => true
  | _ => false
  end.

(** [for col_name, value in row.items()], on the row's locals and the two
    counters; the last component is the exception that leaves the loop. *)
Fixpoint parse_cells (specs : dict ColumnSpec) (strict : bool) (row_num : Z)
    (cells : dict raw) (rs : row_state) (coerced nulls : Z)
  : row_state * Z * Z * option error :=
  match cells with
  | [] => (rs, coerced, nulls, None)
  | (col, value) :: rest =>
      let col_name := strip col in
      match dict_get specs col_name with
      | Some spec =>
          match parse_value value spec with
          | Ok (parsed_val, was_coerced) =>
              parse_cells specs strict row_num rest
                {| parsed_row := dict_set (parsed_row rs) col_name parsed_val;
                   row_exceptions := row_exceptions rs;
                   row_valid := row_valid rs |}
                (if was_coerced then coerced + 1 else coerced)
                (if is_none parsed_val then nulls + 1 else nulls)
          | Raise (ValueError m) =>
              let rs' :=
                {| parsed_row := parsed_row rs;
                   row_exceptions :=
                     row_exceptions rs
                       ++ [{| exc_row := row_num; exc_column := col_name;
                              exc_value := value; exc_error := m |}];
                   row_valid := false |} in
              if strict then (rs', coerced, nulls, Some (ValueError m))
              else parse_cells specs strict row_num rest rs' coerced nulls
          | Raise e => (rs, coerced, nulls, Some e)
          end
      | None =>
          parse_cells specs strict row_num rest
            {| parsed_row := dict_set (parsed_row rs) col_name (passthrough value);
               row_exceptions := row_exceptions rs;
               row_valid := row_valid rs |}
            coerced nulls
      end
  end.

(** [{**parsed_row, '_quarantine_reason': 'validation_failed',
      '_exceptions': row_exceptions}]. *)
Definition quarantine_record (rs : row_state) : qrow :=
  dict_set
    (dict_set (dict_map Cell (parsed_row rs))
              "_quarantine_reason" (Cell (PStr "validation_failed")))
    "_exceptions" (Exceptions (row_exceptions rs)).

(** [for row_num, row in enumerate(reader, start=...)]. *)
Fixpoint parse_rows (specs : dict ColumnSpec) (strict : bool) (row_num : Z)
    (rows : list (dict raw)) (st : loop_state) : loop_state * option error :=
  match rows with
  | [] => (st, None)
  | cells :: rest =>
      let '(rs, coerced, nulls, raised) :=
        parse_cells specs strict row_num cells
          {| parsed_row := [("_row_number", PInt row_num)];
             row_exceptions := []; row_valid := true |}
          (st_coercion_count st) (st_null_count st) in
      match raised with
      | Some e =>
          ({| st_parsed_data := st_parsed_data st;
              st_quarantined_rows := st_quarantined_rows st;
              st_coercion_count := coerced;
              st_null_count := nulls;
              st_total_rows := st_total_rows st + 1;
              st_exceptions := st_exceptions st |}, Some e)
      | None =>
          parse_rows specs strict (row_num + 1) rest
            (if row_valid rs then
               {| st_parsed_data := st_parsed_data st ++ [parsed_row rs];
                  st_quarantined_rows := st_quarantined_rows st;
                  st_coercion_count := coerced;
                  st_null_count := nulls;
                  st_total_rows := st_total_rows st + 1;
                  st_exceptions := st_exceptions st |}
             else
               {| st_parsed_data := st_parsed_data st;
                  st_quarantined_rows := st_quarantined_rows st ++ [quarantine_record rs];
                  st_coercion_count := coerced;
                  st_null_count := nulls;
                  st_total_rows := st_total_rows st + 1;
                  st_exceptions :=
                    st_exceptions st ++ map RowException (row_exceptions rs) |})
      end
  end.

Definition initial_state : loop_state :=
  {| st_parsed_data := []; st_quarantined_rows := []; st_coercion_count := 0;
     st_null_count := 0; st_total_rows := 0; st_exceptions := [] |}.

(** *** Duplicates *)

(** The key columns of a file that is deduplicated. *)
Definition key_cols (filename : string) : list string :=
  if String.eqb filename "projections_2025.csv" then
    ["playerName"; "position"; "teamName"]
  else if String.eqb filename "adp0_2025.csv" then
    ["Full Name"; "Position"; "Team Abbreviation"]
  else [].

(** [dup['_quarantine_reason'] = 'duplicate'], as a quarantined row. *)
Definition duplicate_record (dup : row) : qrow :=
  dict_map Cell (dict_set dup "_quarantine_reason" (PStr "duplicate")).

(** "Detect and quarantine duplicates": the new [parsed_data] and
    [quarantined_rows]. *)
Definition quarantine_duplicates (filename : string) (parsed : list row)
    (quarantine : list qrow) : list row * list qrow :=
  if negb (is_nil parsed)
     && mem_string filename ["projections_2025.csv"; "adp0_2025.csv"] then
    if negb (is_nil (key_cols filename)) then
      let '(unique_data, duplicate_data) := detect_duplicates parsed (key_cols filename) in
      (unique_data, quarantine ++ map duplicate_record duplicate_data)
    else (parsed, quarantine)
  else (parsed, quarantine).

(** [r.get('_quarantine_reason') == 'duplicate']. *)
Definition is_duplicate (r : qrow) : bool :=
  match dict_get r "_quarantine_reason" with
  | Some (Cell v) => eq v (PStr "duplicate")
  | _ => false
  end.

(** *** The sinks *)

(** What a [csv.DictWriter] has put in a file: the header and the rows. *)
Record written (V : Type) : Type := {
  header : list string;
  body : list (dict V)
}.
Arguments header {V} w.
Arguments body {V} w.

(** [writer.writerows(rows)]: a row with a key outside [fields] raises
    [ValueError], after the rows before it were written. *)
Fixpoint writerows {V} (fields : list string) (rows done : list (dict V))
  : list (dict V) * option error :=
  match rows with
  | [] => (done, None)
  | r :: rest =>
      let wrong_fields := filter (fun k => negb (mem_string k fields)) (keys r) in
      if is_nil wrong_fields then writerows fields rest (done ++ [r])
      else (done, Some (ValueError (FieldsNotInFieldnames wrong_fields)))
  end.

(** The body shared by the two writers: nothing for no row, else the
    header of the first row and the rows. *)
Definition write_rows {V} (rows : list (dict V)) : option (written V) * option error :=
  match rows with
  | [] => (None, None)
  | first :: _ =>
      let '(done, raised) := writerows (keys first) rows [] in
      (Some {| header := keys first; body := done |}, raised)
  end.

Definition _write_quarantine (rows : list qrow) : option (written qval) * option error :=
  write_rows rows.

Definition starts_with_underscore (k : string) : bool :=
  match k with
  | String "_" _ => true
  | _ => false
  end.

Definition clean_row (r : row) : row :=
  filter (fun kv => negb (starts_with_underscore (fst kv))) r.

Definition _write_clean_data (rows : list row) : option (written pyval) * option error :=
  write_rows (map clean_row rows).

(** *** The load *)

(** What a call of [load_csv] does: the result it returns or the exception
    it raises, and the two files it has written. *)
Record run : Type := {
  returned : result error LoadResult;
  quarantine_sink : option (written qval);
  clean_sink : option (written pyval)
}.

(** The [LoadResult] of a file that is not there, and of a file whose load
    raised in [load_all_canonical_data]. *)
Definition failed_result (p now : string) (m : message) : LoadResult :=
  {| success := false;
     data := [];
     metadata :=
       {| path := p; sha256 := ""; row_count := 0; column_count := 0;
          parsed_rows := 0; quarantined_rows := 0; coercion_count := 0;
          null_count := 0; duplicate_count := 0; load_timestamp := now;
          exceptions := [LoadException m] |};
     quarantined := [];
     errors := [m];
     warnings := [] |}.

(** The [try] block: header validation, then the rows. *)
Definition read_file (specs : dict ColumnSpec) (strict : bool)
    (records : list (list string))
  : loop_state * list message * list warning * option error :=
  let '(errs, warns, raised) := validate_header specs (fieldnames records) strict in
  match raised with
  | Some e => (initial_state, errs, warns, Some e)
  | None =>
      let '(st, raised') := parse_rows specs strict 2 (DictReader records) initial_state in
      (st, errs, warns, raised')
  end.

(** The specifications of a file: [self.column_specs.get(filename, {})]. *)
Definition specs_for (column_specs : registry) (filename : string) : dict ColumnSpec :=
  match dict_get column_specs filename with
  | Some s => s
  | None => []
  end.

(** [load_csv(filepath, strict)]; [column_specs] is [self.column_specs]
    and [now] the reading of the clock.  ([self.load_history] is not
    represented.) *)
Definition load_csv (column_specs : registry) (now : string) (f : source_file)
    (strict : bool) : run :=
  if negb (file_exists f) then
    {| returned := Ok (failed_result (file_path f) now (FileNotFound (file_path f)));
       quarantine_sink := None; clean_sink := None |}
  else
    let filename := file_name f in
    let specs := specs_for column_specs filename in
    let '(st, errs, warns, raised) := read_file specs strict (file_records f) in
    let errs1 := match raised with
                 | Some e => errs ++ [str_of_error e]
                 | None => errs
                 end in
    let excs1 := match raised with
                 | Some e => st_exceptions st ++ [LoadException (str_of_error e)]
                 | None => st_exceptions st
                 end in
    let '(parsed, quarantine) :=
      quarantine_duplicates filename (st_parsed_data st) (st_quarantined_rows st) in
    match fieldnames (file_records f) with
    | None =>
        {| returned := Raise TypeError; quarantine_sink := None; clean_sink := None |}
    | Some fields =>
        let meta :=
          {| path := file_path f;
             sha256 := file_sha256 f;
             row_count := st_total_rows st;
             column_count := len fields;
             parsed_rows := len parsed;
             quarantined_rows := len quarantine;
             coercion_count := st_coercion_count st;
             null_count := st_null_count st;
             duplicate_count := len (filter is_duplicate quarantine);
             load_timestamp := now;
             exceptions := excs1 |} in
        let '(qfile, qraised) := _write_quarantine quarantine in
        match qraised with
        | Some e => {| returned := Raise e; quarantine_sink := qfile; clean_sink := None |}
        | None =>
            let warns1 := if is_nil quarantine then warns
                          else warns ++ [Quarantined (len quarantine)] in
            let '(cfile, craised) :=
              if negb (is_nil parsed) && is_nil errs1 then _write_clean_data parsed
              else (None, None) in
            match craised with
            | Some e =>
                {| returned := Raise e; quarantine_sink := qfile; clean_sink := cfile |}
            | None =>
                {| returned :=
                     Ok {| success := is_nil errs1;
                           data := parsed;
                           metadata := meta;
                           quarantined := quarantine;
                           errors := errs1;
                           warnings := warns1 |};
                   quarantine_sink := qfile;
                   clean_sink := cfile |}
            end
        end
    end.

(** ** [load_all_canonical_data] and [generate_audit_report] *)

(** The loads of the files found under the canonical tree, lenient, a
    load that raises replaced by a failed result. *)
Definition load_file (column_specs : registry) (now : string) (f : source_file)
  : string * LoadResult :=
  match returned (load_csv column_specs now f false) with
  | Ok r => (file_path f, r)
  | Raise e => (file_path f, failed_result (file_path f) now (str_of_error e))
  end.

Definition load_all_canonical_data (column_specs : registry) (now : string)
    (files : list source_file) : dict LoadResult :=
  map (load_file column_specs now) files.

Definition total (f : FileMetadata -> Z) (results : dict LoadResult) : Z :=
  fold_right Z.add 0 (map (fun r => f (metadata (snd r))) results).

Record audit_report : Type := {
  generated_at : string;
  total_files : Z;
  successful_loads : Z;
  failed_loads : Z;
  total_rows_parsed : Z;
  total_rows_quarantined : Z;
  total_coercions : Z;
  total_nulls : Z;
  total_duplicates : Z;
  files : dict LoadResult
}.

Definition generate_audit_report (now : string) (results : dict LoadResult)
  : audit_report :=
  {| generated_at := now;
     total_files := len results;
     successful_loads := len (filter (fun r => success (snd r)) results);
     failed_loads := len (filter (fun r => negb (success (snd r))) results);
     total_rows_parsed := total parsed_rows results;
     total_rows_quarantined := total quarantined_rows results;
     total_coercions := total coercion_count results;
     total_nulls := total null_count results;
     total_duplicates := total duplicate_count results;
     files := results |}.

End Loader.

(* ================================================================== *)
(** * [etl/pipeline.py] *)
(* ================================================================== *)

Module Pipeline.
Import Py Loader.
Local Open Scope list_scope.

Record config : Type := {
  version : string;
  stages : list string;
  fail_on_integrity_violation : bool;
  fail_on_validation_error : bool;
  max_quarantine_ratio : number
}.

Definition PIPELINE_CONFIG : config :=
  {| version := "1.0.0";
     stages := [ "integrity_pre_check"; "data_loading"; "data_validation";
                 "data_transformation"; "integrity_post_check";
                 "metadata_generation" ];
     fail_on_integrity_violation := true;
     fail_on_validation_error := false;
     max_quarantine_ratio := NFloat (decimal_to_float false 1 (-1)) |}.

(** The texts that reach [pipeline_metadata["errors"]]. *)
Inductive pipeline_error : Type :=
| IntegrityCheckFailed (stderr : string)
| IntegrityCheckTimeout
| IntegrityCheckError (text : string)
| QuarantineRatioExceeded (quarantine_ratio : float) (maximum : number)
| DataLoadingError (e : pipeline_error)
| PreCheckFailed
| PostCheckFailed.

Record data_stats : Type := {
  files_processed : Z;
  stat_successful_loads : Z;
  stat_failed_loads : Z;
  rows_parsed : Z;
  rows_quarantined : Z;
  coercions : Z;
  duplicates : Z
}.

(** [self.pipeline_metadata]; times are readings of the clock. *)
Record pipeline_metadata : Type := {
  start_time : option Z;
  end_time : option Z;
  duration_seconds : option Z;
  stages_completed : list string;
  stages_failed : list string;
  stats : option data_stats;
  integrity_status : string;
  run_errors : list pipeline_error;
  run_warnings : list string
}.

Definition initial_metadata : pipeline_metadata :=
  {| start_time := None; end_time := None; duration_seconds := None;
     stages_completed := []; stages_failed := []; stats := None;
     integrity_status := "unknown"; run_errors := []; run_warnings := [] |}.

Definition add_error (m : pipeline_metadata) (e : pipeline_error) : pipeline_metadata :=
  {| start_time := start_time m; end_time := end_time m;
     duration_seconds := duration_seconds m;
     stages_completed := stages_completed m; stages_failed := stages_failed m;
     stats := stats m; integrity_status := integrity_status m;
     run_errors := run_errors m ++ [e]; run_warnings := run_warnings m |}.

Definition set_integrity_status (m : pipeline_metadata) (s : string) : pipeline_metadata :=
  {| start_time := start_time m; end_time := end_time m;
     duration_seconds := duration_seconds m;
     stages_completed := stages_completed m; stages_failed := stages_failed m;
     stats := stats m; integrity_status := s;
     run_errors := run_errors m; run_warnings := run_warnings m |}.

Definition complete (m : pipeline_metadata) (stage : string) : pipeline_metadata :=
  {| start_time := start_time m; end_time := end_time m;
     duration_seconds := duration_seconds m;
     stages_completed := stages_completed m ++ [stage];
     stages_failed := stages_failed m;
     stats := stats m; integrity_status := integrity_status m;
     run_errors := run_errors m; run_warnings := run_warnings m |}.

Definition set_stages_failed (m : pipeline_metadata) (l : list string) : pipeline_metadata :=
  {| start_time := start_time m; end_time := end_time m;
     duration_seconds := duration_seconds m;
     stages_completed := stages_completed m; stages_failed := l;
     stats := stats m; integrity_status := integrity_status m;
     run_errors := run_errors m; run_warnings := run_warnings m |}.

Definition set_stats (m : pipeline_metadata) (s : data_stats) : pipeline_metadata :=
  {| start_time := start_time m; end_time := end_time m;
     duration_seconds := duration_seconds m;
     stages_completed := stages_completed m; stages_failed := stages_failed m;
     stats := Some s; integrity_status := integrity_status m;
     run_errors := run_errors m; run_warnings := run_warnings m |}.

Definition set_times (m : pipeline_metadata) (t0 t1 d : option Z) : pipeline_metadata :=
  {| start_time := t0; end_time := t1; duration_seconds := d;
     stages_completed := stages_completed m; stages_failed := stages_failed m;
     stats := stats m; integrity_status := integrity_status m;
     run_errors := run_errors m; run_warnings := run_warnings m |}.

(** How the call of the integrity checker ends. *)
Inductive check_outcome : Type :=
| Exited (returncode : Z) (stdout stderr : string)
| TimeoutExpired
| CheckRaised (text : string).

(** What a run finds outside itself: the two answers of the integrity
    checker, the files of the canonical tree and the clock. *)
Record world : Type := {
  pre_check : check_outcome;
  post_check : check_outcome;
  canonical : list source_file;
  clock_start : Z;
  clock_end : Z;
  timestamp : string
}.

Definition run_integrity_check (m : pipeline_metadata) (o : check_outcome)
  : pipeline_metadata * bool :=
  match o with
  | Exited returncode _ stderr =>
      if returncode =? 0 then (set_integrity_status m "verified", true)
      else (add_error (set_integrity_status m "violated") (IntegrityCheckFailed stderr),
            false)
  | TimeoutExpired => (add_error m IntegrityCheckTimeout, false)
  | CheckRaised text => (add_error m (IntegrityCheckError text), false)
  end.

(** [a > b]. *)
Definition gt (a b : number) : bool :=
  match compare_number a b with
  | Some Gt => true
  | _ => false
  end.

(** "Check quarantine ratio": the metadata after it and the [ValueError]
    it raises. *)
Definition check_quarantine_ratio (cfg : config) (m : pipeline_metadata)
    (report : audit_report) : pipeline_metadata * option pipeline_error :=
  let total_parsed := total_rows_parsed report in
  let total_quarantined := total_rows_quarantined report in
  if 0 <? total_parsed then
    match truediv total_quarantined total_parsed with
    | Some quarantine_ratio =>
        if gt (NFloat quarantine_ratio) (max_quarantine_ratio cfg) then
          let error_msg :=
            QuarantineRatioExceeded quarantine_ratio (max_quarantine_ratio cfg) in
          (add_error m error_msg,
           if fail_on_validation_error cfg then Some error_msg else None)
        else (m, None)
    | None => (m, None)
    end
  else (m, None).

(** [load_and_clean_data]: the metadata after it, the report it returns or
    the exception it raises, and the audit file it has saved. *)
Definition load_and_clean_data (cfg : config) (w : world) (m : pipeline_metadata)
  : pipeline_metadata * result pipeline_error audit_report * option audit_report :=
  let results := load_all_canonical_data _parse_column_specs (timestamp w) (canonical w) in
  let report := generate_audit_report (timestamp w) results in
  let '(m1, raised) := check_quarantine_ratio cfg m report in
  match raised with
  | Some e => (add_error m1 (DataLoadingError e), Raise e, None)
  | None =>
      (set_stats m1
         {| files_processed := total_files report;
            stat_successful_loads := successful_loads report;
            stat_failed_loads := failed_loads report;
            rows_parsed := total_rows_parsed report;
            rows_quarantined := total_rows_quarantined report;
            coercions := total_coercions report;
            duplicates := total_duplicates report |},
       Ok report, Some report)
  end.

(** The manifest, without its entry per file of the clean-data
    directory. *)
Record manifest : Type := {
  pipeline_version : string;
  statistics : option data_stats;
  integrity_verified : bool
}.

Definition generate_metadata_manifest (cfg : config) (m : pipeline_metadata) : manifest :=
  {| pipeline_version := version cfg;
     statistics := stats m;
     integrity_verified := String.eqb (integrity_status m) "verified" |}.

(** The [try] of [run_pipeline]: the metadata it leaves, the exception
    that ended it, and the files saved. *)
Definition run_stages (cfg : config) (w : world) (m0 : pipeline_metadata)
  : pipeline_metadata * option pipeline_error * option audit_report * option manifest :=
  let '(m1, passed) := run_integrity_check m0 (pre_check w) in
  if fail_on_integrity_violation cfg && negb passed then
    (m1, Some PreCheckFailed, None, None)
  else
    let m2 := complete m1 "integrity_pre_check" in
    let '(m3, loaded, audit) := load_and_clean_data cfg w m2 in
    match loaded with
    | Raise e => (m3, Some e, audit, None)
    | Ok _ =>
        let m4 := complete (complete (complete m3 "data_loading") "data_validation")
                           "data_transformation" in
        let '(m5, passed') := run_integrity_check m4 (post_check w) in
        if fail_on_integrity_violation cfg && negb passed' then
          (m5, Some PostCheckFailed, audit, None)
        else
          let m6 := complete m5 "integrity_post_check" in
          (complete m6 "metadata_generation", None, audit,
           Some (generate_metadata_manifest cfg m6))
    end.

(** The [except] of [run_pipeline]. *)
Definition record_failure (cfg : config) (m : pipeline_metadata) (e : pipeline_error)
  : pipeline_metadata :=
  let m1 := add_error m e in
  let failed_stages :=
    filter (fun s => negb (mem_string s (stages_completed m1))) (stages cfg) in
  if is_nil failed_stages then m1 else set_stages_failed m1 failed_stages.

(** The [finally] of [run_pipeline]: the metadata it completes, which is
    what it saves. *)
Definition finalize (w : world) (m : pipeline_metadata) : pipeline_metadata :=
  set_times m (start_time m) (Some (clock_end w)) (Some (clock_end w - clock_start w)).

Record pipeline_run : Type := {
  run_success : bool;
  run_metadata : pipeline_metadata;
  saved_metadata : option pipeline_metadata;
  saved_audit : option audit_report;
  saved_manifest : option manifest
}.

Definition run_pipeline (cfg : config) (w : world) : pipeline_run :=
  let m0 := set_times initial_metadata (Some (clock_start w)) None None in
  let '(m, raised, audit, manifest_file) := run_stages cfg w m0 in
  let '(m', succeeded) :=
    match raised with
    | Some e => (record_failure cfg m e, false)
    | None => (m, true)
    end in
  let final := finalize w m' in
  {| run_success := succeeded;
     run_metadata := final;
     saved_metadata := Some final;
     saved_audit := audit;
     saved_manifest := manifest_file |}.

End Pipeline.

(* ================================================================== *)
(** * [etl/player_normalizer.py] and [etl/robust_loader_v2.py] *)
(* ================================================================== *)

Module Normalizer.
Import Py.
Local Open Scope list_scope.

(** A dict literal: a key written twice keeps its first place and its
    last value. *)
Definition dict_of {V} (items : list (string * V)) : dict V :=
  fold_left (fun d kv => dict_set d (fst kv) (snd kv)) items [].

(** [self.dst_mappings]. *)
Definition dst_mappings : dict string :=
  dict_of
  [
    ("arizona cardinals", "ARI"); ("atlanta falcons", "ATL");
    ("baltimore ravens", "BAL"); ("buffalo bills", "BUF"); ("carolina panthers", "CAR");
    ("chicago bears", "CHI"); ("cincinnati bengals", "CIN");
    ("cleveland browns", "CLE"); ("dallas cowboys", "DAL"); ("denver broncos", "DEN");
    ("detroit lions", "DET"); ("green bay packers", "GB"); ("houston texans", "HOU");
    ("indianapolis colts", "IND"); ("jacksonville jaguars", "JAX");
    ("kansas city chiefs", "KC"); ("las vegas raiders", "LV");
    ("los angeles chargers", "LAC"); ("los angeles rams", "LAR");
    ("miami dolphins", "MIA"); ("minnesota vikings", "MIN");
    ("new england patriots", "NE"); ("new orleans saints", "NO");
    ("new york giants", "NYG"); ("new york jets", "NYJ");
    ("philadelphia eagles", "PHI"); ("pittsburgh steelers", "PIT");
    ("san francisco 49ers", "SF"); ("seattle seahawks", "SEA");
    ("tampa bay buccaneers", "TB"); ("tennessee titans", "TEN");
    ("washington commanders", "WAS"); ("cardinals", "ARI"); ("falcons", "ATL");
    ("ravens", "BAL"); ("bills", "BUF"); ("panthers", "CAR"); ("bears", "CHI");
    ("bengals", "CIN"); ("browns", "CLE"); ("cowboys", "DAL"); ("broncos", "DEN");
    ("lions", "DET"); ("packers", "GB"); ("texans", "HOU"); ("colts", "IND");
    ("jaguars", "JAX"); ("chiefs", "KC"); ("raiders", "LV"); ("chargers", "LAC");
    ("rams", "LAR"); ("dolphins", "MIA"); ("vikings", "MIN"); ("patriots", "NE");
    ("saints", "NO"); ("giants", "NYG"); ("jets", "NYJ"); ("eagles", "PHI");
    ("steelers", "PIT"); ("49ers", "SF"); ("niners", "SF"); ("seahawks", "SEA");
    ("buccaneers", "TB"); ("bucs", "TB"); ("titans", "TEN"); ("commanders", "WAS");
    ("washington", "WAS"); ("arizona", "ARI"); ("atlanta", "ATL"); ("baltimore", "BAL");
    ("buffalo", "BUF"); ("carolina", "CAR"); ("chicago", "CHI"); ("cincinnati", "CIN");
    ("cleveland", "CLE"); ("dallas", "DAL"); ("denver", "DEN"); ("detroit", "DET");
    ("green bay", "GB"); ("houston", "HOU"); ("indianapolis", "IND");
    ("jacksonville", "JAX"); ("kansas city", "KC"); ("las vegas", "LV");
    ("oakland", "LV"); ("los angeles", "LAR"); ("la chargers", "LAC");
    ("la rams", "LAR"); ("miami", "MIA"); ("minnesota", "MIN"); ("new england", "NE");
    ("new orleans", "NO"); ("new york", "NYG"); ("ny giants", "NYG");
    ("ny jets", "NYJ"); ("philadelphia", "PHI"); ("philly", "PHI");
    ("pittsburgh", "PIT"); ("san francisco", "SF"); ("san fran", "SF");
    ("seattle", "SEA"); ("tampa bay", "TB"); ("tampa", "TB"); ("tennessee", "TEN");
    ("washington", "WAS"); ("dc", "WAS") ].

(** [self.team_code_aliases]. *)
Definition team_code_aliases : dict string :=
  dict_of
  [ ("ARZ", "ARI"); ("BLT", "BAL"); ("CLV", "CLE"); ("GB", "GB"); ("HST", "HOU");
    ("JAC", "JAX"); ("KC", "KC"); ("LA", "LAR"); ("LV", "LV"); ("NE", "NE");
    ("NO", "NO"); ("NY", "NYG"); ("SD", "LAC"); ("SF", "SF"); ("STL", "LAR");
    ("TB", "TB"); ("WSH", "WAS") ].

(** [len(s)] for a string. *)
Definition str_len (s : string) : Z := Z.of_nat (String.length s).

(** [PlayerNormalizer.normalize_team_code(team)] for a string. *)
Definition normalize_team_code (team : string) : string :=
  if is_empty team then ""
  else
    let team := strip (upper team) in
    match dict_get team_code_aliases team with
    | Some code => code
    | None =>
        if str_len team <=? 3 then team
        else
          let team_lower := lower team in
          match dict_get dst_mappings team_lower with
          | Some code => code
          | None => team
          end
    end.

End Normalizer.

Module LoaderV2.
Import Py.
Local Open Scope list_scope.

Definition NA_TOKENS : list string :=
  [ ""; "NA"; "N/A"; "n/a"; "null"; "NULL"; "None";
    "nan"; "NaN"; "#N/A"; "#NULL!"; "--"; "-" ].

(** [s.endswith(c)] for a one-character [c]. *)
Fixpoint endswith (c : ascii) (s : string) : bool :=
  match s with
  | EmptyString => false
  | String d EmptyString => Ascii.eqb d c
  | String _ s' => endswith c s'
  end.

(** [x / n] for a float and a non-zero integer that is a double. *)
Definition float_div (x : float) (n : Z) : float :=
  SFdiv prec emax x (float_of_int n).

(** [parse_value(value)]: every exception of the conversions is caught
    ([except:]), so the function returns. *)
Definition parse_value (value : Loader.raw) : pyval :=
  match value with
  | None => PNone
  | Some s =>
      if mem_string s NA_TOKENS then PNone
      else
        match (if endswith "%" s
               then float_of_str (rstrip_with (fun c => Ascii.eqb c "%") s)
               else None) with
        | Some x => PFloat (float_div x 100)
        | None =>
            if contains_char "." s then
              match float_of_str s with
              | Some x => PFloat x
              | None => PStr s
              end
            else
              match int_of_str s with
              | Some n => PInt n
              | None => PStr s
              end
        end
  end.

(** [not team] for a value. *)
Definition is_falsy (v : pyval) : bool :=
  match v with
  | PNone => true
  | PBool b => negb b
  | PInt n => n =? 0
  | PFloat (S754_zero _) => true
  | PFloat _ => false
  | PStr s => is_empty s
  end.

(** [team in NA_TOKENS] for a value: only a string is equal to a
    token. *)
Definition in_na_tokens (v : pyval) : bool :=
  match v with
  | PStr s => mem_string s NA_TOKENS
  | _ => false
  end.

(** [normalize_team_code(team)]: the code and [was_normalized]. *)
Definition normalize_team_code (team : pyval) : pyval * bool :=
  if is_falsy team || in_na_tokens team then (team, false)
  else
    let original := strip (str team) in
    let normalized := Normalizer.normalize_team_code original in
    (PStr normalized, negb (String.eqb normalized original)).

End LoaderV2.

(* ================================================================== *)
(** * Vocabulary of the properties *)
(* ================================================================== *)

Import Py Loader Pipeline.
Local Open Scope list_scope.

(** ** Value coercion *)

(** [x] lies below [lo], above [hi], within [[lo, hi]]. *)
Definition below (x : number) (lo : Z) : Prop :=
  compare_number x (NInt lo) = Some Lt.

Definition above (x : number) (hi : Z) : Prop :=
  compare_number x (NInt hi) = Some Gt.

Definition within (lo hi : Z) (x : number) : Prop :=
  is_le (compare_number (NInt lo) x) = true /\ is_le (compare_number x (NInt hi)) = true.

(** The text of a cell without thousands separators and currency signs,
    and without percent signs as well. *)
Definition without_separators (v : string) : string :=
  remove_char "$" (remove_char "," v).

Definition without_symbols (v : string) : string :=
  remove_char "%" (without_separators v).

(** [s] without the characters that satisfy [p]. *)
Fixpoint drop_chars (p : ascii -> bool) (s : string) : string :=
  match s with
  | EmptyString => EmptyString
  | String d s' => if p d then drop_chars p s' else String d (drop_chars p s')
  end.

(** A percent sign divides by one hundred: where the bare text gives [x],
    the text followed by [%] gives [x / 100]. *)
Definition percent_divides (spec : ColumnSpec) (bare : string) : Prop :=
  forall x c,
    parse_value (Some bare) spec = Ok (PFloat x, c) ->
    exists c',
      parse_value (Some (bare ++ "%")%string) spec
      = Ok (PFloat (SFdiv prec emax x (float_of_int 100)), c').

(** The coercer takes [token] for a null: null on a nullable column, the
    required-value error on another. *)
Definition read_as_null (token : string) : Prop :=
  forall spec,
    parse_value (Some token) spec
    = if nullable spec then Ok (PNone, false)
      else Raise (ValueError (NullValue (name spec))).

(** The columns that hold team codes in the registry. *)
Definition team_columns : list ColumnSpec :=
  [ column_in "teamName" "str" false (strs VALID_TEAMS_WITH_MAPPINGS);
    column_in "Team Abbreviation" "str" false (strs VALID_TEAMS_WITH_MAPPINGS);
    column_in "Team" "str" false (strs VALID_TEAMS_WITH_MAPPINGS) ].

(** The specification the registry holds for a column of a file. *)
Definition registered (file col : string) : option ColumnSpec :=
  match dict_get _parse_column_specs file with
  | Some specs => dict_get specs col
  | None => None
  end.

(** ** Duplicate detection *)

(** The rows of [data] whose composite key is [k], in the order of
    [data]: the group of [k]. *)
Definition same_key (key_columns : list string) (k : string) (r : row) : bool :=
  String.eqb (composite_key key_columns r) k.

Definition group (key_columns : list string) (k : string) (data : list row) : list row :=
  filter (same_key key_columns k) data.

(** The place, counted from 1, of the first row of [l] that satisfies
    [p]. *)
Fixpoint position (p : row -> bool) (l : list row) : Z :=
  match l with
  | [] => 1
  | r :: l' => if p r then 1 else 1 + position p l'
  end.

(** [r] annotated as a duplicate of row [n] under key [k]. *)
Definition annotate (n : Z) (k : string) (r : row) : row :=
  dict_set (dict_set r "_duplicate_of_row" (PInt n)) "_duplicate_key" (PStr k).

(** The record put in [duplicates] for [r] when [unique_rows] is the
    unique output: it names the place, in the unique output, of the row
    that has the key of [r]. *)
Definition duplicate_of (key_columns : list string) (unique_rows : list row) (r : row) : row :=
  let k := composite_key key_columns r in
  annotate (position (same_key key_columns k) unique_rows) k r.

Inductive subsequence {A : Type} : list A -> list A -> Prop :=
| subsequence_nil : subsequence [] []
| subsequence_skip (x : A) (l l' : list A) : subsequence l l' -> subsequence l (x :: l')
| subsequence_take (x : A) (l l' : list A) : subsequence l l' -> subsequence (x :: l) (x :: l').

(** What [seen_keys] holds while [unique_rows] is the unique output so
    far. *)
Definition seen_ok (key_columns : list string) (seen_keys : dict Z) (unique_rows : list row)
  : Prop :=
  forall k,
    dict_get seen_keys k
    = if existsb (same_key key_columns k) unique_rows
      then Some (position (same_key key_columns k) unique_rows)
      else None.

(** Each duplicate names the place its group's first record has in the
    input, counted from 1. *)
Definition names_input_position (key_columns : list string) (data : list row) : Prop :=
  forall dup, In dup (snd (detect_duplicates data key_columns)) ->
    exists k,
      dict_get dup "_duplicate_key" = Some (PStr k)
      /\ dict_get dup "_duplicate_of_row"
         = Some (PInt (position (same_key key_columns k) data)).

(** Each duplicate names the source row number its group's first record
    carries under ['_row_number']. *)
Definition names_source_row (key_columns : list string) (data : list row) : Prop :=
  forall dup, In dup (snd (detect_duplicates data key_columns)) ->
    exists k first,
      dict_get dup "_duplicate_key" = Some (PStr k)
      /\ find (same_key key_columns k) data = Some first
      /\ dict_get dup "_duplicate_of_row" = dict_get first "_row_number".

(** Four rows as the loader types them, the second a repetition of the
    first in another case and the fourth a repetition of the third. *)
Definition player (row_number : Z) (player_name : string) : row :=
  [ ("_row_number", PInt row_number); ("playerName", PStr player_name);
    ("position", PStr "QB"); ("teamName", PStr "ARI") ].

Definition two_pairs : list row :=
  [ player 2 "Kyler Murray"; player 3 "kyler murray";
    player 4 "Clayton Tune"; player 5 "Clayton Tune" ].

(** ** The file load *)

(** The cell raises an exception that leaves the row loop: any exception
    in strict mode, one that is no [ValueError] in lenient mode. *)
Definition cell_stops (specs : dict ColumnSpec) (strict : bool) (cell : string * raw) : bool :=
  match dict_get specs (strip (fst cell)) with
  | Some spec =>
      match parse_value (snd cell) spec with
      | Ok _ => false
      | Raise (ValueError _) => strict
      | Raise _ => true
      end
  | None => false
  end.

Definition row_stops (specs : dict ColumnSpec) (strict : bool) (cells : dict raw) : bool :=
  existsb (cell_stops specs strict) cells.

(** Header validation raises. *)
Definition header_raises (specs : dict ColumnSpec) (fields : option (list string))
    (strict : bool) : bool :=
  match validate_header specs fields strict with
  | (_, _, Some _) => true
  | (_, _, None) => false
  end.

(** The result of a load that returns one. *)
Definition result_of (r : run) : option LoadResult :=
  match returned r with
  | Ok x => Some x
  | Raise _ => None
  end.

(** A file of three players under the header of the key columns, with a
    blank line; the second player repeats the first under another
    spelling. *)
Definition adp_sample : source_file :=
  {| file_path := "canonical_data/adp/adp0_2025.csv";
     file_name := "adp0_2025.csv";
     file_exists := true;
     file_sha256 := "5f2b";
     file_records :=
       [ ["Full Name"; "Position"; "Team Abbreviation"];
         ["Kyler Murray"; "QB"; "ARI"];
         [];
         ["kyler murray"; "qb"; "ari"];
         ["James Conner"; "RB"; "ARZ"] ] |}.

(** A file with every column of its specification; the rank of the
    second row is no number. *)
Definition adp_bad_rank : source_file :=
  {| file_path := "canonical_data/adp/adp0_2025.csv";
     file_name := "adp0_2025.csv";
     file_exists := true;
     file_sha256 := "77c1";
     file_records :=
       [ keys adp0_2025;
         ["1"; "Kyler Murray"; "ARI"; "QB"; "1"; "8"; "55.5"; "310.2"; "12"; "No"; "ok"];
         ["first"; "James Conner"; "ARI"; "RB"; "1"; "8"; "40.1"; "201.7"; "21"; "No"; "ok"];
         ["3"; "Trey McBride"; "ARI"; "TE"; "1"; "8"; "30.3"; "188.0"; "17"; "No"; "ok"] ] |}.

(** A file with the columns of its specification and one more, whose
    cell is empty in the first row. *)
Definition rankings_with_note : source_file :=
  {| file_path := "canonical_data/preseason_rankings_2025.csv";
     file_name := "preseason_rankings_2025.csv";
     file_exists := true;
     file_sha256 := "0d4e";
     file_records :=
       [ keys preseason_rankings_2025 ++ ["Note"];
         ["ARI"; "1.5"; "0.5"; "0.0"; "3"; "8.5"; "45.3%"; "20%"; "5%"; "1%"; ""];
         ["SF"; "6.5"; "2.5"; "0.0"; "12"; "11.0"; "81%"; "55%"; "21%"; "12%"; " contender "] ] |}.

(** A file whose second row holds an integer cell that overflows. *)
Definition projections_overflow : source_file :=
  {| file_path := "canonical_data/projections/projections_2025.csv";
     file_name := "projections_2025.csv";
     file_exists := true;
     file_sha256 := "a9e0";
     file_records :=
       [ ["playerName"; "byeWeek"];
         ["Kyler Murray"; "8"];
         ["James Conner"; "1.0e999"];
         ["Trey McBride"; "8"] ] |}.

(** The accepted rows of a failed load are discarded: the result holds
    none and counts none. *)
Definition discards_partial_output (r : LoadResult) : Prop :=
  data r = [] /\ parsed_rows (metadata r) = 0.

(** A cell of a column without specification is passed through as its
    trimmed text. *)
Definition passes_trimmed_text (parsed : row) (col text : string) : Prop :=
  dict_get parsed (strip col) = Some (PStr (strip text)).

(** ** The pipeline *)

(** The audit report of a run in the world [w]. *)
Definition report_of (w : world) : audit_report :=
  generate_audit_report (timestamp w)
    (load_all_canonical_data _parse_column_specs (timestamp w) (canonical w)).

(** The run reaches the loading stage: the first integrity check passes
    or does not gate the run. *)
Definition reaches_loading (cfg : config) (w : world) : Prop :=
  fail_on_integrity_violation cfg = false
  \/ exists stdout stderr, pre_check w = Exited 0 stdout stderr.

(** The configuration of the source with validation errors made fatal. *)
Definition strict_config : config :=
  {| version := version PIPELINE_CONFIG;
     stages := stages PIPELINE_CONFIG;
     fail_on_integrity_violation := true;
     fail_on_validation_error := true;
     max_quarantine_ratio := max_quarantine_ratio PIPELINE_CONFIG |}.

(** A file of a hundred players and fifteen more whose position is no
    position. *)
Definition numbered (label position : string) (n : nat) : list (list string) :=
  map (fun i => [(label ++ str_of_int (Z.of_nat i))%string; position; "ARI"]) (seq 0 n).

Definition adp_hundred : source_file :=
  {| file_path := "canonical_data/adp/adp0_2025.csv";
     file_name := "adp0_2025.csv";
     file_exists := true;
     file_sha256 := "c41d";
     file_records :=
       ["Full Name"; "Position"; "Team Abbreviation"]
         :: numbered "Player " "QB" 100 ++ numbered "Reserve " "XX" 15 |}.

Definition hundred_world : world :=
  {| pre_check := Exited 0 "" "";
     post_check := Exited 0 "" "";
     canonical := [adp_hundred];
     clock_start := 1000;
     clock_end := 1042;
     timestamp := "2025-08-27" |}.

(** ** Keys of the rows *)

(** The keys of a dict after an assignment to [k]. *)
Definition add_key (ks : list string) (k : string) : list string :=
  if mem_string k ks then ks else ks ++ [k].

(** The keys of the row [DictReader] yields under the header [fields],
    and of the row the loop builds from it when every cell is kept. *)
Definition reader_keys (fields : list string) : list string :=
  fold_left add_key fields [].

Definition parsed_keys (fields : list string) : list string :=
  fold_left add_key (map strip (reader_keys fields)) ["_row_number"].

(** A row [DictWriter] accepts under [fields]: it has no other key. *)
Definition conforms {V} (fields : list string) (r : dict V) : bool :=
  forallb (fun k => mem_string k fields) (keys r).

(** A file with every column of its specification; the rank of the
    second row is no number and the third row repeats the first. *)
Definition adp_mixed : source_file :=
  {| file_path := "canonical_data/adp/adp0_2025.csv";
     file_name := "adp0_2025.csv";
     file_exists := true;
     file_sha256 := "a9e3";
     file_records :=
       [ keys adp0_2025;
         ["1"; "Kyler Murray"; "ARI"; "QB"; "1"; "8"; "55.5"; "310.2"; "12"; "No"; "ok"];
         ["first"; "James Conner"; "ARI"; "RB"; "1"; "8"; "40.1"; "201.7"; "21"; "No"; "ok"];
         ["7"; "kyler murray"; "ARI"; "QB"; "2"; "8"; "60.0"; "300.0"; "10"; "No"; "ok"] ] |}.

(** A file with every column of its specification whose second row
    repeats the first under another spelling. *)
Definition adp_repeated : source_file :=
  {| file_path := "canonical_data/adp/adp0_2025.csv";
     file_name := "adp0_2025.csv";
     file_exists := true;
     file_sha256 := "41bd";
     file_records :=
       [ keys adp0_2025;
         ["1"; "Kyler Murray"; "ARI"; "QB"; "1"; "8"; "55.5"; "310.2"; "12"; "No"; "ok"];
         ["7"; "kyler murray"; "ARI"; "QB"; "2"; "8"; "60.0"; "300.0"; "10"; "No"; "ok"] ] |}.

(** ** The gates of the pipeline *)

(** The integrity checker ran and exited with 0. *)
Definition passes (o : check_outcome) : bool :=
  match o with
  | Exited returncode _ _ => returncode =? 0
  | _ => false
  end.

(** Rows were parsed and the ratio of the quarantined to the parsed rows
    is above [max_quarantine_ratio]. *)
Definition exceeded (cfg : config) (report : audit_report) : bool :=
  (0 <? total_rows_parsed report)
  && match truediv (total_rows_quarantined report) (total_rows_parsed report) with
     | Some quarantine_ratio => gt (NFloat quarantine_ratio) (max_quarantine_ratio cfg)
     | None => false
     end.

(** A run whose only file is not there. *)
Definition missing_file_world : world :=
  {| pre_check := Exited 0 "" "";
     post_check := TimeoutExpired;
     canonical :=
       [ {| file_path := "canonical_data/adp/adp0_2025.csv"; file_name := "adp0_2025.csv";
            file_exists := false; file_sha256 := ""; file_records := [] |} ];
     clock_start := 1000;
     clock_end := 1042;
     timestamp := "2025-08-27" |}.

(** The configuration of the source with the integrity gate open. *)
Definition open_config : config :=
  {| version := version PIPELINE_CONFIG;
     stages := stages PIPELINE_CONFIG;
     fail_on_integrity_violation := false;
     fail_on_validation_error := fail_on_validation_error PIPELINE_CONFIG;
     max_quarantine_ratio := max_quarantine_ratio PIPELINE_CONFIG |}.

(* ================================================================== *)
(** * Properties of [parse_value] *)
(* ================================================================== *)

Lemma compare_number_flip (n : Z) (x : number) :
  compare_number (NInt n) x = option_map CompOpp (compare_number x (NInt n)).
Proof.
  destruct x as [m | y]; simpl.
  - now rewrite Z.compare_antisym.
  - destruct (compare_int_float n y) as [c |]; simpl; [| reflexivity].
    now rewrite CompOpp_involutive.
Qed.

Lemma compare_int_float_gt_mono (a b : Z) (x : float) :
  a <= b -> compare_int_float a x = Some Gt -> compare_int_float b x = Some Gt.
Proof.
  intros Hab. destruct x as [s | s | | s m e]; unfold compare_int_float;
    try discriminate.
  - intros H. injection H as H. f_equal. rewrite Z.compare_gt_iff in H |- *. lia.
  - trivial.
  - intros H. injection H as H. f_equal.
    destruct (0 <=? e) eqn:He.
    + rewrite Z.compare_gt_iff in H |- *. lia.
    + apply Z.leb_gt in He.
      rewrite Z.compare_gt_iff in H |- *.
      assert (0 < 2 ^ (- e)) by (apply Z.pow_pos_nonneg; lia).
      nia.
Qed.

Lemma compare_int_float_lt_mono (a b : Z) (x : float) :
  a <= b -> compare_int_float b x = Some Lt -> compare_int_float a x = Some Lt.
Proof.
  intros Hab. destruct x as [s | s | | s m e]; unfold compare_int_float;
    try discriminate.
  - intros H. injection H as H. f_equal. rewrite Z.compare_lt_iff in H |- *. lia.
  - trivial.
  - intros H. injection H as H. f_equal.
    destruct (0 <=? e) eqn:He.
    + rewrite Z.compare_lt_iff in H |- *. lia.
    + apply Z.leb_gt in He.
      rewrite Z.compare_lt_iff in H |- *.
      assert (0 < 2 ^ (- e)) by (apply Z.pow_pos_nonneg; lia).
      nia.
Qed.
Lemma le_numbers (a b : pyval) (x y : number) :
  as_number a = Some x -> as_number b = Some y ->
  le (M:=message) a b = Ok (is_le (compare_number x y)).
Proof. intros Ha Hb. unfold le, order. now rewrite Ha, Hb. Qed.

Lemma lt_numbers (a b : pyval) (x y : number) :
  as_number a = Some x -> as_number b = Some y ->
  lt (M:=message) a b = Ok (is_lt (compare_number x y)).
Proof. intros Ha Hb. unfold lt, order. now rewrite Ha, Hb. Qed.

Lemma validate_numeric spec p lo hi c :
  allowed_range spec = Some [PInt lo; PInt hi] -> is_none p = false ->
  validate spec p c =
    bind (le (PInt lo) p) (fun above =>
    bind (if above then le p (PInt hi) else Ok false) (fun inside =>
    if inside then Ok (p, c)
    else
      bind (min2 p (PInt hi)) (fun m =>
      bind (max2 (PInt lo) m) (fun clamped =>
      Ok (clamped, true))))).
Proof.
  intros Hr Hp. unfold validate. rewrite Hr.
  destruct p; try discriminate; reflexivity.
Qed.

Lemma validate_numeric_range spec p x lo hi c :
  allowed_range spec = Some [PInt lo; PInt hi] -> lo <= hi -> as_number p = Some x ->
  (below x lo -> validate spec p c = Ok (PInt lo, true)) /\
  (above x hi -> validate spec p c = Ok (PInt hi, true)) /\
  (within lo hi x -> validate spec p c = Ok (p, c)).
Proof.
  intros Hr Hle Hx.
  assert (Hp : is_none p = false) by (destruct p; try discriminate; reflexivity).
  rewrite (validate_numeric _ _ _ _ c Hr Hp).
  rewrite (le_numbers (PInt lo) p (NInt lo) x eq_refl Hx).
  rewrite (le_numbers p (PInt hi) x (NInt hi) Hx eq_refl).
  unfold min2, max2.
  rewrite (lt_numbers (PInt hi) p (NInt hi) x eq_refl Hx).
  unfold below, above, within.
  repeat split.
  - intros Hb.
    assert (Hlo : compare_number (NInt lo) x = Some Gt)
      by (rewrite compare_number_flip, Hb; reflexivity).
    assert (Hhi : compare_number (NInt hi) x = Some Gt).
    { destruct x as [n | y]; simpl in *.
      - injection Hlo as Hlo. rewrite Z.compare_gt_iff in Hlo. f_equal.
        rewrite Z.compare_gt_iff. lia.
      - now apply (compare_int_float_gt_mono lo hi). }
    rewrite Hlo, Hhi. cbn [bind is_le is_lt].
    rewrite (lt_numbers (PInt lo) p (NInt lo) x eq_refl Hx), Hlo. reflexivity.
  - intros Ha.
    assert (Hhi : compare_number (NInt hi) x = Some Lt)
      by (rewrite compare_number_flip, Ha; reflexivity).
    assert (Hlo : compare_number (NInt lo) x = Some Lt).
    { destruct x as [n | y]; simpl in *.
      - injection Hhi as Hhi. rewrite Z.compare_lt_iff in Hhi. f_equal.
        rewrite Z.compare_lt_iff. lia.
      - now apply (compare_int_float_lt_mono lo hi). }
    rewrite Hlo, Hhi, Ha. cbn [bind is_le is_lt].
    rewrite (lt_numbers (PInt lo) (PInt hi) (NInt lo) (NInt hi) eq_refl eq_refl).
    cbn [bind compare_number is_lt].
    destruct (lo ?= hi) eqn:Hc; cbn [is_lt]; try reflexivity.
    + apply Z.compare_eq in Hc. now subst.
    + rewrite Z.compare_gt_iff in Hc. lia.
  - intros [H1 H2]. rewrite H1. cbn [bind]. rewrite H2. reflexivity.
Qed.

(** What [parse_value] does with a cell that is no null token, in terms
    of the two stages. *)
Lemma parse_value_stages (v : raw) (spec : ColumnSpec) (p : pyval) (c : bool) :
  is_na v = false ->
  convert (dtype spec) (cleaned (dtype spec) v) = Ok (p, c) ->
  parse_value v spec = validate spec p c.
Proof. intros Hna Hc. unfold parse_value. now rewrite Hna, Hc. Qed.

(** C8.  An integer, non-nullable column with range [[1, 18]] reads "20"
    as 18 with [coerced = true]; and whenever a cell of a column with an
    integer range [[lo, hi]] converts to a number, a number below [lo] is
    returned as [lo] and a number above [hi] as [hi], flagged as coerced
    and never rejected, while a number within the range is returned as
    converted. *)
Theorem C8_range_clamp :
  (forall n : string,
      parse_value (Some "20"%string) (column_in n "int" false (ints 1 18))
      = Ok (PInt 18, true))
  /\
  (forall spec v p c x lo hi,
      allowed_range spec = Some [PInt lo; PInt hi] -> lo <= hi ->
      is_na v = false ->
      convert (dtype spec) (cleaned (dtype spec) v) = Ok (p, c) ->
      as_number p = Some x ->
      (below x lo -> parse_value v spec = Ok (PInt lo, true)) /\
      (above x hi -> parse_value v spec = Ok (PInt hi, true)) /\
      (within lo hi x -> parse_value v spec = Ok (p, c))).
Proof.
  split.
  - intros n. reflexivity.
  - intros spec v p c x lo hi Hr Hle Hna Hc Hx.
    rewrite (parse_value_stages v spec p c Hna Hc).
    now apply validate_numeric_range.
Qed.

Lemma C8_range_clamp_witness :
  parse_value (Some "20.7"%string) (column_in "byeWeek" "int" true (ints 1 18))
  = Ok (PInt 18, true)
  /\ parse_value (Some "-3"%string) (column_in "byeWeek" "int" true (ints 1 18))
     = Ok (PInt 1, true)
  /\ parse_value (Some "7"%string) (column_in "byeWeek" "int" true (ints 1 18))
     = Ok (PInt 7, false).
Proof.
  split; [| split].
  - apply (proj2 C8_range_clamp (column_in "byeWeek" "int" true (ints 1 18))
             (Some "20.7"%string) (PInt 20) true (NInt 20) 1 18);
      try reflexivity; lia.
  - apply (proj2 C8_range_clamp (column_in "byeWeek" "int" true (ints 1 18))
             (Some "-3"%string) (PInt (-3)) false (NInt (-3)) 1 18);
      try reflexivity; lia.
  - apply (proj2 C8_range_clamp (column_in "byeWeek" "int" true (ints 1 18))
             (Some "7"%string) (PInt 7) false (NInt 7) 1 18);
      try reflexivity; try lia. split; reflexivity.
Defined.

(** ** Null tokens (C6) *)

Lemma mem_string_In (x : string) (l : list string) :
  mem_string x l = true <-> In x l.
Proof.
  unfold mem_string. rewrite existsb_exists. split.
  - intros [y [Hy He]]. apply String.eqb_eq in He. now subst.
  - intros H. exists x. split; [assumption | apply String.eqb_refl].
Qed.

(** C6, as the code has it.  Recognition is by membership of the raw
    text, or of the raw text without its surrounding white space, in the
    twenty tokens of [NA_TOKENS], compared as written: such a cell is null
    (not flagged as coerced) on a nullable column and the required-value
    error on a non-nullable one. *)
Theorem C6_null_tokens_exact (token : string) :
  In token NA_TOKENS \/ In (strip token) NA_TOKENS ->
  read_as_null token.
Proof.
  intros H spec.
  assert (Hna : is_na (Some token) = true).
  { unfold is_na. apply orb_true_iff.
    destruct H as [H | H]; [left | right]; now apply mem_string_In. }
  unfold parse_value. now rewrite Hna.
Qed.

Lemma C6_null_tokens_exact_witness :
  read_as_null "NULL" /\ read_as_null "  n/a ".
Proof.
  split.
  - apply (C6_null_tokens_exact "NULL"). left. simpl. tauto.
  - apply (C6_null_tokens_exact "  n/a "). right. simpl. tauto.
Defined.

(** C6 as stated fails: "none", a token of the claim's list, and "na",
    the lower-case form of "NA", are not in [NA_TOKENS]; a string column
    keeps them as text, whether nullable or not. *)
Lemma C6_case_variants_not_null :
  ~ read_as_null "none" /\ ~ read_as_null "na"
  /\ parse_value (Some "none"%string) (column "status" "str" true)
     = Ok (PStr "none", false)
  /\ parse_value (Some "na"%string) (column "status" "str" false)
     = Ok (PStr "na", false).
Proof.
  repeat split.
  - intros H. specialize (H (column "status" "str" true)). discriminate H.
  - intros H. specialize (H (column "status" "str" true)). discriminate H.
Qed.

(** ** Numeric normalisation (C3) *)

Lemma remove_char_drop (c : ascii) (s : string) :
  remove_char c s = drop_chars (fun d => Ascii.eqb d c) s.
Proof. induction s as [| d s IH]; simpl; [| rewrite IH]; reflexivity. Qed.

Lemma drop_chars_twice (p q : ascii -> bool) (s : string) :
  drop_chars p (drop_chars q s) = drop_chars (fun d => q d || p d) s.
Proof.
  induction s as [| d s IH]; simpl; [reflexivity |].
  destruct (q d); simpl; [assumption |].
  destruct (p d); rewrite IH; reflexivity.
Qed.

Lemma drop_chars_ext (p q : ascii -> bool) (s : string) :
  (forall d, p d = q d) -> drop_chars p s = drop_chars q s.
Proof.
  intros H. induction s as [| d s IH]; simpl; [| rewrite H, IH]; reflexivity.
Qed.

Lemma without_separators_idem (v : string) :
  without_separators (without_separators v) = without_separators v.
Proof.
  unfold without_separators. rewrite !remove_char_drop, !drop_chars_twice.
  apply drop_chars_ext. intros d.
  destruct (Ascii.eqb d ","), (Ascii.eqb d "$"); reflexivity.
Qed.

Lemma without_symbols_idem (v : string) :
  without_symbols (without_symbols v) = without_symbols v.
Proof.
  unfold without_symbols, without_separators.
  rewrite !remove_char_drop, !drop_chars_twice.
  apply drop_chars_ext. intros d.
  destruct (Ascii.eqb d ","), (Ascii.eqb d "$"), (Ascii.eqb d "%"); reflexivity.
Qed.

(** C3, as the code has it.  On a float column the thousands separators,
    the currency signs and the percent signs are removed before the
    parse and the number produced is that of the bare text: a percent
    sign does not divide it.  On an integer column the thousands
    separators and the currency signs are removed before the parse. *)
Theorem C3_symbols_stripped (spec : ColumnSpec) (v : string) :
  is_na (Some v) = false ->
  (dtype spec = "float"%string ->
   is_na (Some (without_symbols v)) = false ->
   parse_value (Some v) spec = parse_value (Some (without_symbols v)) spec)
  /\
  (dtype spec = "int"%string ->
   is_na (Some (without_separators v)) = false ->
   parse_value (Some v) spec = parse_value (Some (without_separators v)) spec).
Proof.
  intros Hna. split; intros Hd Hna'; unfold parse_value; rewrite Hna, Hna', Hd.
  - assert (E : cleaned "float" (Some (without_symbols v)) = cleaned "float" (Some v)).
    { cbn [cleaned String.eqb Ascii.eqb Bool.eqb].
      change (remove_char "%" (remove_char "$" (remove_char "," (without_symbols v))))
        with (without_symbols (without_symbols v)).
      now rewrite without_symbols_idem. }
    now rewrite E.
  - assert (E : cleaned "int" (Some (without_separators v)) = cleaned "int" (Some v)).
    { cbn [cleaned String.eqb Ascii.eqb Bool.eqb].
      change (remove_char "$" (remove_char "," (without_separators v)))
        with (without_separators (without_separators v)).
      now rewrite without_separators_idem. }
    now rewrite E.
Qed.

Lemma C3_symbols_stripped_witness :
  parse_value (Some "$1,234.5%"%string) (column "share" "float" true)
  = parse_value (Some "1234.5"%string) (column "share" "float" true)
  /\ parse_value (Some "$1,234"%string) (column "price" "int" true)
     = parse_value (Some "1234"%string) (column "price" "int" true).
Proof.
  split.
  - apply (proj1 (C3_symbols_stripped (column "share" "float" true) "$1,234.5%" eq_refl));
      reflexivity.
  - apply (proj2 (C3_symbols_stripped (column "price" "int" true) "$1,234" eq_refl));
      reflexivity.
Defined.

(** C3 as stated fails: on a float column "50%" is read as 50, the
    number "50" gives, not as 0.5; on an integer column the percent sign
    stays and the parse fails, which a nullable column turns into null. *)
Lemma C3_percent_not_divided :
  ~ percent_divides (column "share" "float" true) "50"
  /\ parse_value (Some "50%"%string) (column "share" "float" true)
     = parse_value (Some "50"%string) (column "share" "float" true)
  /\ parse_value (Some "50%"%string) (column "share" "float" true)
     = Ok (PFloat (float_of_int 50), false)
  /\ parse_value (Some "50%"%string) (column "share" "int" true) = Ok (PNone, true).
Proof.
  repeat split.
  intros H.
  destruct (H (float_of_int 50) false eq_refl) as [c' Hc'].
  vm_compute in Hc'. discriminate Hc'.
Qed.

(** ** Team codes (C9) *)

(** C9 fails on the registry: the allowed set of each of the three team
    columns holds the alias codes next to the canonical ones, so "ARZ" is
    found in it and returned as it is, not coerced; the alias table is
    consulted only for a code outside the allowed set. *)
Theorem C9_alias_not_applied :
  option_map (parse_value (Some "ARZ"%string)) (registered "projections_2025.csv" "teamName")
  = Some (Ok (PStr "ARZ", false))
  /\ option_map (parse_value (Some "ARZ"%string)) (registered "adp0_2025.csv" "Team Abbreviation")
     = Some (Ok (PStr "ARZ", false))
  /\ option_map (parse_value (Some "ARZ"%string)) (registered "preseason_rankings_2025.csv" "Team")
     = Some (Ok (PStr "ARZ", false)).
Proof. repeat split. Qed.

(** Where the allowed set holds the canonical codes only, the alias is
    applied. *)
Lemma alias_applied_outside_allowed_set (n : string) (nul : bool) :
  is_team_column n = true ->
  parse_value (Some "ARZ"%string) (column_in n "str" nul (strs VALID_TEAMS))
  = Ok (PStr "ARI", true).
Proof.
  intros H. unfold parse_value.
  cbn [is_na mem_string existsb NA_TOKENS].
  replace (is_na (Some "ARZ"%string)) with false by reflexivity.
  cbn [column_in dtype nullable cleaned convert String.eqb Ascii.eqb Bool.eqb is_empty].
  unfold validate. cbn [allowed_range column_in name dtype].
  replace (strip "ARZ") with "ARZ"%string by reflexivity.
  cbn [strs VALID_TEAMS map is_numeric].
  replace (mem (PStr "ARZ") _) with false by reflexivity.
  rewrite H. reflexivity.
Qed.

(** ** Conversion failures on nullable columns (C10) *)

(** C10 fails where the conversion overflows: on a nullable integer
    column the cell "1.0e999" is read as the float infinity, whose
    conversion to an integer raises [OverflowError]; the handler of
    [parse_value] does not catch it, and neither does the row loop: a
    lenient load stops at that row, which is in neither partition, and
    fails. *)
Theorem C10_overflow_escapes :
  option_map (parse_value (Some "1.0e999"%string)) (registered "projections_2025.csv" "byeWeek")
  = Some (Raise OverflowError)
  /\ option_map nullable (registered "projections_2025.csv" "byeWeek") = Some true
  /\ option_map
       (fun r => (success r, row_count (metadata r), parsed_rows (metadata r),
                  quarantined_rows (metadata r), errors r))
       (result_of (load_csv _parse_column_specs "2025-08-27" projections_overflow false))
     = Some (false, 2, 1, 0, [Builtin]).
Proof. repeat split; vm_compute; reflexivity. Qed.

Lemma order_cases (test : option comparison -> bool) (a b : pyval) :
  (exists r, order (M:=message) test a b = Ok r) \/ order (M:=message) test a b = Raise TypeError.
Proof.
  unfold order. destruct (as_number a), (as_number b), a, b; eauto.
Qed.

Lemma clamp_no_value_error (p min_val max_val : pyval) (c : bool) (m : message) :
  bind (le min_val p) (fun above =>
  bind (if above then le p max_val else Ok false) (fun inside =>
  if inside then Ok (p, c)
  else
    bind (min2 p max_val) (fun x =>
    bind (max2 min_val x) (fun clamped =>
    Ok (clamped, true)))))
  <> Raise (ValueError m).
Proof.
  unfold min2, max2, le, lt.
  destruct (order_cases is_le min_val p) as [[r1 ->] | ->]; [| discriminate].
  cbn [bind].
  assert (H2 : (exists r, (if r1 then order (M:=message) is_le p max_val else Ok false) = Ok r)
               \/ (if r1 then order (M:=message) is_le p max_val else Ok false) = Raise TypeError).
  { destruct r1; [apply order_cases | eauto]. }
  destruct H2 as [[r2 ->] | ->]; [| discriminate].
  cbn [bind]. destruct r2; [discriminate |].
  destruct (order_cases is_lt max_val p) as [[r3 ->] | ->]; [| discriminate].
  cbn [bind].
  destruct (order_cases is_lt min_val (if r3 then max_val else p)) as [[r4 ->] | ->];
    discriminate.
Qed.

Lemma validate_nullable (spec : ColumnSpec) (p : pyval) (c : bool) (m : message) :
  nullable spec = true -> validate spec p c <> Raise (ValueError m).
Proof.
  intros Hn. unfold validate.
  destruct (allowed_range spec) as [[| first range] |];
    [destruct p; discriminate | | destruct p; discriminate].
  destruct (is_numeric first).
  - destruct p; try discriminate; apply clamp_no_value_error.
  - rewrite Hn.
    destruct p; try discriminate;
      repeat match goal with
        | |- context [match ?x with _ => _ end] => destruct x
        end; discriminate.
Qed.

(** Apart from that, a nullable column raises no [ValueError], so no row
    is quarantined for a cell of it. *)
Lemma nullable_never_value_error (v : raw) (spec : ColumnSpec) (m : message) :
  nullable spec = true -> parse_value v spec <> Raise (ValueError m).
Proof.
  intros Hn. unfold parse_value. rewrite Hn.
  destruct (is_na v); [discriminate |].
  destruct (convert _ _) as [[p c] | [m' | |]]; try discriminate.
  now apply validate_nullable.
Qed.

(** ** Duplicate detection (C1) *)

Lemma dict_get_set {V} (d : dict V) (k k' : string) (v : V) :
  dict_get (dict_set d k v) k' = if String.eqb k k' then Some v else dict_get d k'.
Proof.
  induction d as [| [k0 v0] d IH]; simpl.
  - reflexivity.
  - destruct (String.eqb k0 k) eqn:E0; simpl.
    + apply String.eqb_eq in E0. subst k0.
      destruct (String.eqb k k'); reflexivity.
    + rewrite IH. destruct (String.eqb k0 k') eqn:E1; [| reflexivity].
      apply String.eqb_eq in E1. subst k0. now rewrite String.eqb_sym, E0.
Qed.

Lemma position_app_found (p : row -> bool) (l l' : list row) :
  existsb p l = true -> position p (l ++ l') = position p l.
Proof.
  induction l as [| r l IH]; simpl; [discriminate |].
  destruct (p r); [reflexivity |]. simpl. intros H. now rewrite IH.
Qed.

Lemma position_app_missing (p : row -> bool) (l l' : list row) :
  existsb p l = false -> position p (l ++ l') = len l + position p l'.
Proof.
  unfold len. induction l as [| r l IH]; [reflexivity |].
  cbn [existsb app position]. destruct (p r); [discriminate |]. simpl orb.
  intros H. rewrite IH by assumption. cbn [List.length]. lia.
Qed.

Lemma seen_ok_extend (key_columns : list string) (seen : dict Z) (u : list row) (r : row) :
  seen_ok key_columns seen u ->
  dict_get seen (composite_key key_columns r) = None ->
  seen_ok key_columns (dict_set seen (composite_key key_columns r) (len u + 1)) (u ++ [r]).
Proof.
  intros Hok Hnone k. rewrite dict_get_set, existsb_app. cbn [existsb].
  rewrite orb_false_r. fold (same_key key_columns k r).
  destruct (same_key key_columns k r) eqn:Hk.
  - unfold same_key in Hk. apply String.eqb_eq in Hk. subst k.
    assert (Hu : existsb (same_key key_columns (composite_key key_columns r)) u = false).
    { specialize (Hok (composite_key key_columns r)). rewrite Hnone in Hok.
      destruct (existsb _ u); [discriminate | reflexivity]. }
    rewrite Hu. cbn [orb]. rewrite position_app_missing by assumption.
    cbn [position]. unfold same_key at 1. now rewrite String.eqb_refl.
  - rewrite orb_false_r. rewrite Hok.
    destruct (existsb (same_key key_columns k) u) eqn:Hu; [| reflexivity].
    now rewrite position_app_found.
Qed.

Lemma detect_loop_spec (key_columns : list string) (data : list row) :
  forall (seen : dict Z) (u d : list row),
    seen_ok key_columns seen u ->
    exists u' o',
      detect_loop key_columns data seen u d
      = (u ++ u', d ++ map (duplicate_of key_columns (u ++ u')) o')
      /\ subsequence u' data /\ subsequence o' data
      /\ forall k,
           (existsb (same_key key_columns k) u = true ->
            group key_columns k u' = [] /\ group key_columns k o' = group key_columns k data)
           /\ (existsb (same_key key_columns k) u = false ->
               group key_columns k u' = firstn 1 (group key_columns k data)
               /\ group key_columns k o' = skipn 1 (group key_columns k data)).
Proof.
  induction data as [| r rest IH]; intros seen u d Hok.
  - exists [], []. cbn [detect_loop map]. rewrite !app_nil_r.
    repeat split; constructor.
  - cbn [detect_loop].
    pose proof (Hok (composite_key key_columns r)) as Hr.
    destruct (existsb (same_key key_columns (composite_key key_columns r)) u) eqn:Hu;
      rewrite Hr; cbv beta iota zeta.
    + destruct (IH seen u
                  (d ++ [annotate (position (same_key key_columns (composite_key key_columns r)) u)
                                  (composite_key key_columns r) r]) Hok)
        as [u' [o' [Heq [Hsu [Hso Hg]]]]].
      exists u', (r :: o'). split; [| split; [| split]].
      * unfold annotate in Heq. etransitivity; [exact Heq |]. f_equal. rewrite <- app_assoc. f_equal.
        cbn [map app]. f_equal. unfold duplicate_of.
        now rewrite position_app_found.
      * now constructor.
      * now constructor.
      * intros k. unfold group. cbn [filter].
        destruct (Hg k) as [Ht Hf].
        destruct (same_key key_columns k r) eqn:Hk.
        -- unfold same_key in Hk. apply String.eqb_eq in Hk. subst k.
           split; [| congruence]. intros _. destruct (Ht Hu) as [H1 H2].
           split; [assumption |]. unfold group in H2. now rewrite H2.
        -- split; assumption.
    + destruct (IH (dict_set seen (composite_key key_columns r) (len u + 1)) (u ++ [r]) d
                  (seen_ok_extend _ _ _ _ Hok Hr))
        as [u' [o' [Heq [Hsu [Hso Hg]]]]].
      exists (r :: u'), o'. split; [| split; [| split]].
      * rewrite Heq. rewrite <- !app_assoc. reflexivity.
      * now constructor.
      * now constructor.
      * intros k. unfold group. cbn [filter].
        destruct (Hg k) as [Ht Hf].
        rewrite existsb_app in Ht, Hf. cbn [existsb] in Ht, Hf.
        rewrite orb_false_r in Ht, Hf.
        destruct (same_key key_columns k r) eqn:Hk.
        -- unfold same_key in Hk. apply String.eqb_eq in Hk. subst k.
           split; [congruence |]. intros _.
           rewrite orb_true_r in Ht. destruct (Ht eq_refl) as [H1 H2].
           unfold group in H1, H2. rewrite H1. cbn [firstn skipn]. split; [reflexivity |].
           assumption.
        -- rewrite orb_false_r in Ht, Hf. split; assumption.
Qed.

(** X9.  What [detect_duplicates] computes, the part of C1 that holds:
    the unique output and the records behind the duplicates output are two
    subsequences of the input; of every group of rows that share a
    composite key the unique output holds exactly the first and the
    duplicates output the others, each annotated with its key and with the
    place, counted from 1, that the first row of its group has in the
    unique output. *)
Theorem first_occurrence_wins (data : list row) (key_columns : list string) :
  exists unique_rows others,
    detect_duplicates data key_columns
    = (unique_rows, map (duplicate_of key_columns unique_rows) others)
    /\ subsequence unique_rows data
    /\ subsequence others data
    /\ forall k,
         group key_columns k unique_rows = firstn 1 (group key_columns k data)
         /\ group key_columns k others = skipn 1 (group key_columns k data).
Proof.
  destruct (detect_loop_spec key_columns data [] [] []) as [u [o [Heq [Hu [Ho Hg]]]]].
  - intros k. reflexivity.
  - exists u, o. repeat split; try assumption; apply (proj2 (Hg k) eq_refl).
Qed.

(** C1 fails on the annotation: with a duplicate before it in the input,
    the first row of the second group is third in the input and carries
    source row 4, and its duplicate is annotated with 2, the place of that
    first row in the unique output, where the source notes a "1-based row
    number". *)
Theorem C1_duplicate_of_row :
  ~ names_input_position ["playerName"; "position"; "teamName"] two_pairs
  /\ ~ names_source_row ["playerName"; "position"; "teamName"] two_pairs
  /\ snd (detect_duplicates two_pairs ["playerName"; "position"; "teamName"])
     = [ annotate 1 "kyler murray|qb|ari" (player 3 "kyler murray");
         annotate 2 "clayton tune|qb|ari" (player 5 "Clayton Tune") ].
Proof.
  split; [| split].
  - intros H.
    destruct (H (annotate 2 "clayton tune|qb|ari" (player 5 "Clayton Tune")))
      as [k [Hk Hn]].
    + vm_compute. tauto.
    + vm_compute in Hk. injection Hk as <-. vm_compute in Hn. discriminate Hn.
  - intros H.
    destruct (H (annotate 2 "clayton tune|qb|ari" (player 5 "Clayton Tune")))
      as [k [first [Hk [Hf Hn]]]].
    + vm_compute. tauto.
    + vm_compute in Hk. injection Hk as <-. vm_compute in Hf. injection Hf as <-.
      vm_compute in Hn. discriminate Hn.
  - reflexivity.
Qed.

(** ** The row loop *)

Lemma len_app {A} (l l' : list A) : len (l ++ l') = len l + len l'.
Proof. unfold len. rewrite length_app. lia. Qed.

Lemma len_cons {A} (x : A) (l : list A) : len (x :: l) = 1 + len l.
Proof. unfold len. cbn [List.length]. lia. Qed.

Lemma len_nonneg {A} (l : list A) : 0 <= len l.
Proof. unfold len. lia. Qed.

Lemma len_map {A B} (f : A -> B) (l : list A) : len (map f l) = len l.
Proof. unfold len. now rewrite length_map. Qed.

Lemma len_nil {A} : len (@nil A) = 0.
Proof. reflexivity. Qed.

Ltac lens :=
  unfold len in *; rewrite ?length_app, ?length_map in *; cbn [List.length] in *; lia.

Lemma detect_loop_length (key_columns : list string) (data : list row) :
  forall (seen : dict Z) (u d u' d' : list row),
    detect_loop key_columns data seen u d = (u', d') ->
    len u' + len d' = len u + len d + len data.
Proof.
  induction data as [| r rest IH]; intros seen u d u' d' H; cbn [detect_loop] in H.
  - injection H as <- <-. lens.
  - destruct (dict_get seen (composite_key key_columns r)); apply IH in H; lens.
Qed.

Lemma quarantine_duplicates_length (filename : string) (parsed parsed' : list row)
    (quarantine quarantine' : list qrow) :
  quarantine_duplicates filename parsed quarantine = (parsed', quarantine') ->
  len parsed' + len quarantine' = len parsed + len quarantine.
Proof.
  unfold quarantine_duplicates, detect_duplicates.
  destruct (negb (is_nil parsed) && mem_string filename _);
    [| intros H; now injection H as <- <-].
  destruct (negb (is_nil (key_cols filename))); [| intros H; now injection H as <- <-].
  destruct (detect_loop _ _ _ _ _) as [u d] eqn:Hd. intros H. injection H as <- <-.
  apply detect_loop_length in Hd. lens.
Qed.

(** A row goes through [parse_cells] without an exception leaving the
    loop exactly when no cell of it stops. *)
Lemma parse_cells_through (specs : dict ColumnSpec) (strict : bool) (row_num : Z)
    (cells : dict raw) :
  forall rs coerced nulls,
    row_stops specs strict cells = false ->
    exists rs' coerced' nulls',
      parse_cells specs strict row_num cells rs coerced nulls = (rs', coerced', nulls', None)
      /\ (strict = true -> row_valid rs' = row_valid rs).
Proof.
  unfold row_stops.
  induction cells as [| [col value] rest IH]; intros rs coerced nulls H.
  - exists rs, coerced, nulls. split; reflexivity.
  - cbn [existsb] in H. apply orb_false_iff in H. destruct H as [Hc Hrest].
    unfold cell_stops in Hc. cbn [fst snd] in Hc. cbn [parse_cells].
    destruct (dict_get specs (strip col)) as [spec |].
    + destruct (parse_value value spec) as [[v c] | [m | |]]; try discriminate.
      * edestruct IH as [rs' [c' [n' [Heq Hv]]]]; [exact Hrest |].
        exists rs', c', n'. split; [exact Heq | exact Hv].
      * subst strict.
        edestruct IH as [rs' [c' [n' [Heq Hv]]]]; [exact Hrest |].
        exists rs', c', n'. split; [exact Heq | discriminate].
    + edestruct IH as [rs' [c' [n' [Heq Hv]]]]; [exact Hrest |].
      exists rs', c', n'. split; [exact Heq | exact Hv].
Qed.

Lemma parse_cells_stopped (specs : dict ColumnSpec) (strict : bool) (row_num : Z)
    (cells : dict raw) :
  forall rs coerced nulls,
    row_stops specs strict cells = true ->
    exists rs' coerced' nulls' e,
      parse_cells specs strict row_num cells rs coerced nulls = (rs', coerced', nulls', Some e).
Proof.
  unfold row_stops.
  induction cells as [| [col value] rest IH]; intros rs coerced nulls H.
  - discriminate.
  - cbn [existsb] in H. unfold cell_stops at 1 in H. cbn [fst snd] in H.
    cbn [parse_cells].
    destruct (dict_get specs (strip col)) as [spec |].
    + destruct (parse_value value spec) as [[v c] | [m | |]].
      * apply IH. exact H.
      * destruct strict; [eauto |]. apply IH. exact H.
      * eauto.
      * eauto.
    + apply IH. exact H.
Qed.

(** The counts after a loop that no exception left. *)
Lemma parse_rows_complete (specs : dict ColumnSpec) (strict : bool) (rows : list (dict raw)) :
  forall row_num st st',
    parse_rows specs strict row_num rows st = (st', None) ->
    st_total_rows st' = st_total_rows st + len rows
    /\ len (st_parsed_data st') + len (st_quarantined_rows st')
       = len (st_parsed_data st) + len (st_quarantined_rows st) + len rows.
Proof.
  induction rows as [| cells rest IH]; intros row_num st st' H; cbn [parse_rows] in H.
  - injection H as <-. lens.
  - destruct (parse_cells _ _ _ _ _ _ _) as [[[rs c] n] [e |]]; [discriminate |].
    apply IH in H.
    destruct (row_valid rs); cbn [st_total_rows st_parsed_data st_quarantined_rows] in H;
      lens.
Qed.

(** A loop over rows none of which stops is left by no exception. *)
Lemma parse_rows_through (specs : dict ColumnSpec) (strict : bool) (rows : list (dict raw)) :
  forallb (fun cells => negb (row_stops specs strict cells)) rows = true ->
  forall row_num st,
    exists st',
      parse_rows specs strict row_num rows st = (st', None)
      /\ (strict = true ->
          len (st_parsed_data st') = len (st_parsed_data st) + len rows
          /\ st_quarantined_rows st' = st_quarantined_rows st).
Proof.
  induction rows as [| cells rest IH]; intros H row_num st.
  - exists st. split; [reflexivity |]. intros _. split; [lens | reflexivity].
  - cbn [forallb] in H. apply andb_true_iff in H. destruct H as [Hc Hrest].
    apply negb_true_iff in Hc. cbn [parse_rows].
    destruct (parse_cells_through specs strict row_num cells
                {| parsed_row := [("_row_number", PInt row_num)];
                   row_exceptions := []; row_valid := true |}
                (st_coercion_count st) (st_null_count st) Hc)
      as [rs [c [n [Heq Hv]]]].
    rewrite Heq.
    match goal with
    | |- context [parse_rows specs strict (row_num + 1) rest ?s] =>
        destruct (IH Hrest (row_num + 1) s) as [st' [Hst' Hstrict]]
    end.
    exists st'. split; [exact Hst' |].
    intros Hs. specialize (Hstrict Hs). specialize (Hv Hs). cbn [row_valid] in Hv.
    rewrite Hv in Hstrict. cbn [st_parsed_data st_quarantined_rows] in Hstrict.
    destruct Hstrict as [H1 H2]. split; [lens | exact H2].
Qed.

(** The loop stops at the first row that stops: the rows after it are
    not read, the rows before it are kept. *)
Lemma parse_rows_stopped (specs : dict ColumnSpec) (strict : bool)
    (good : list (dict raw)) (bad : dict raw) (rest : list (dict raw)) :
  forallb (fun cells => negb (row_stops specs strict cells)) good = true ->
  row_stops specs strict bad = true ->
  forall row_num st,
    exists st' e,
      parse_rows specs strict row_num (good ++ bad :: rest) st = (st', Some e)
      /\ st_total_rows st' = st_total_rows st + len good + 1
      /\ len (st_parsed_data st') + len (st_quarantined_rows st')
         = len (st_parsed_data st) + len (st_quarantined_rows st) + len good
      /\ (strict = true ->
          len (st_parsed_data st') = len (st_parsed_data st) + len good
          /\ st_quarantined_rows st' = st_quarantined_rows st).
Proof.
  intros Hgood Hbad. induction good as [| cells good IH]; intros row_num st.
  - cbn [app parse_rows].
    destruct (parse_cells_stopped specs strict row_num bad
                {| parsed_row := [("_row_number", PInt row_num)];
                   row_exceptions := []; row_valid := true |}
                (st_coercion_count st) (st_null_count st) Hbad)
      as [rs [c [n [e Heq]]]].
    rewrite Heq. eexists. exists e. split; [reflexivity |].
    cbn [st_total_rows st_parsed_data st_quarantined_rows].
    repeat split; lens.
  - cbn [forallb] in Hgood. apply andb_true_iff in Hgood. destruct Hgood as [Hc Hgood].
    apply negb_true_iff in Hc. cbn [app parse_rows].
    destruct (parse_cells_through specs strict row_num cells
                {| parsed_row := [("_row_number", PInt row_num)];
                   row_exceptions := []; row_valid := true |}
                (st_coercion_count st) (st_null_count st) Hc)
      as [rs [c [n [Heq Hv]]]].
    rewrite Heq.
    match goal with
    | |- context [parse_rows specs strict (row_num + 1) _ ?s] =>
        destruct (IH Hgood (row_num + 1) s) as [st' [e [Hst' [Ht [Hn Hstrict]]]]]
    end.
    exists st', e. split; [exact Hst' |].
    split; [| split].
    + destruct (row_valid rs); cbn [st_total_rows] in Ht; lens.
    + destruct (row_valid rs); cbn [st_parsed_data st_quarantined_rows] in Hn; lens.
    + intros Hs. specialize (Hstrict Hs). specialize (Hv Hs). cbn [row_valid] in Hv.
      rewrite Hv in Hstrict. cbn [st_parsed_data st_quarantined_rows] in Hstrict.
      destruct Hstrict as [H1 H2]. split; [lens | exact H2].
Qed.

(** ** The load *)

(** What a load that returns is made of. *)
Lemma load_csv_returns (column_specs : registry) (now : string) (f : source_file)
    (strict : bool) (r : LoadResult) :
  file_exists f = true ->
  returned (load_csv column_specs now f strict) = Ok r ->
  exists st errs warns raised parsed quarantine,
    read_file (specs_for column_specs (file_name f)) strict (file_records f)
    = (st, errs, warns, raised)
    /\ quarantine_duplicates (file_name f) (st_parsed_data st) (st_quarantined_rows st)
       = (parsed, quarantine)
    /\ data r = parsed
    /\ quarantined r = quarantine
    /\ errors r = match raised with
                  | Some e => errs ++ [str_of_error e]
                  | None => errs
                  end
    /\ success r = is_nil (errors r)
    /\ row_count (metadata r) = st_total_rows st
    /\ parsed_rows (metadata r) = len parsed
    /\ quarantined_rows (metadata r) = len quarantine
    /\ incl warns (warnings r)
    /\ (clean_sink (load_csv column_specs now f strict) <> None ->
        success r = true /\ parsed <> []).
Proof.
  intros Hex H. unfold load_csv in *. rewrite Hex in *. cbn [negb] in *.
  fold (specs_for column_specs (file_name f)) in *.
  destruct (read_file _ _ _) as [[[st errs] warns] raised].
  destruct (quarantine_duplicates _ _ _) as [parsed quarantine] eqn:Hq.
  exists st, errs, warns, raised, parsed, quarantine.
  split; [reflexivity |]. split; [exact Hq |]. clear Hq.
  destruct (fieldnames (file_records f)) as [fields |]; [| discriminate H].
  destruct (_write_quarantine quarantine) as [qfile [e |]]; [discriminate H |].
  destruct (negb (is_nil parsed) && is_nil _) eqn:Hw.
  - destruct (_write_clean_data parsed) as [cfile [e |]]; [discriminate H |].
    cbn [returned clean_sink] in *. injection H as <-.
    cbn [data quarantined errors success metadata row_count parsed_rows quarantined_rows
         warnings].
    apply andb_true_iff in Hw. destruct Hw as [Hp He].
    repeat split; try reflexivity.
    + destruct (is_nil quarantine); [apply incl_refl | apply incl_appl, incl_refl].
    + exact He.
    + intros ->. discriminate Hp.
  - cbn [returned clean_sink] in *. injection H as <-.
    cbn [data quarantined errors success metadata row_count parsed_rows quarantined_rows
         warnings].
    repeat split; try reflexivity; try congruence.
    destruct (is_nil quarantine); [apply incl_refl | apply incl_appl, incl_refl].
Qed.

Lemma read_file_complete (specs : dict ColumnSpec) (strict : bool)
    (records : list (list string)) (st : loop_state) (errs : list message)
    (warns : list warning) :
  read_file specs strict records = (st, errs, warns, None) ->
  parse_rows specs strict 2 (DictReader records) initial_state = (st, None)
  /\ validate_header specs (fieldnames records) strict = (errs, warns, None).
Proof.
  unfold read_file.
  destruct (validate_header _ _ _) as [[errs0 warns0] [e |]]; [discriminate |].
  destruct (parse_rows _ _ _ _ _) as [st0 raised0]. intros H.
  injection H as <- <- <- ->. split; reflexivity.
Qed.

(** C2.  For a load that runs to completion, one that returns a result
    no error was recorded in, the parsed and the quarantined counts of the
    metadata add up to the row count, which is the number of rows read
    from the file, and they are the lengths of the two partitions,
    whatever the mode, the failing rows and the duplicates. *)
Theorem C2_partition_total (column_specs : registry) (now : string) (f : source_file)
    (strict : bool) (r : LoadResult) :
  returned (load_csv column_specs now f strict) = Ok r ->
  success r = true ->
  parsed_rows (metadata r) + quarantined_rows (metadata r) = row_count (metadata r)
  /\ row_count (metadata r) = len (DictReader (file_records f))
  /\ parsed_rows (metadata r) = len (data r)
  /\ quarantined_rows (metadata r) = len (quarantined r).
Proof.
  intros H Hs.
  destruct (file_exists f) eqn:Hex.
  - destruct (load_csv_returns _ _ _ _ _ Hex H)
      as [st [errs [warns [raised [parsed [quarantine
         [Hread [Hq [Hd [Hqr [He [Hsucc [Hrc [Hpr [Hqc _]]]]]]]]]]]]]]].
    rewrite Hsucc, He in Hs.
    destruct raised as [e |]; [destruct errs; discriminate Hs |].
    apply read_file_complete in Hread. destruct Hread as [Hrows _].
    apply parse_rows_complete in Hrows. destruct Hrows as [Ht Hn].
    apply quarantine_duplicates_length in Hq.
    cbn [initial_state st_total_rows st_parsed_data st_quarantined_rows] in Ht, Hn.
    rewrite Hd, Hqr, Hrc, Hpr, Hqc. repeat split; lens.
  - unfold load_csv in H. rewrite Hex in H. cbn [negb returned] in H.
    injection H as <-. discriminate Hs.
Qed.

Lemma C2_partition_total_witness :
  exists r,
    result_of (load_csv _parse_column_specs "2025-08-27" adp_sample false) = Some r
    /\ success r = true
    /\ parsed_rows (metadata r) = 2 /\ quarantined_rows (metadata r) = 1
    /\ parsed_rows (metadata r) + quarantined_rows (metadata r) = row_count (metadata r).
Proof.
  destruct (returned (load_csv _parse_column_specs "2025-08-27" adp_sample false))
    as [r | e] eqn:H; [| vm_compute in H; discriminate H].
  exists r.
  assert (Hs : success r = true) by (vm_compute in H; injection H as <-; reflexivity).
  split; [unfold result_of; now rewrite H |].
  split; [exact Hs |].
  split; [vm_compute in H; injection H as <-; reflexivity |].
  split; [vm_compute in H; injection H as <-; reflexivity |].
  exact (proj1 (C2_partition_total _ _ _ _ r H Hs)).
Defined.

(** ** Strict mode (C5) *)

Lemma is_nil_false {A} (l : list A) : l <> [] -> is_nil l = false.
Proof. destruct l; [congruence | reflexivity]. Qed.

(** A missing column in strict mode: the load returns a failed result
    and writes nothing. *)
Lemma strict_missing_column (column_specs : registry) (now : string) (f : source_file)
    (fields : list string) :
  file_exists f = true ->
  fieldnames (file_records f) = Some fields ->
  specs_for column_specs (file_name f) <> [] ->
  missing_cols (specs_for column_specs (file_name f)) (Some fields) <> [] ->
  exists r,
    load_csv column_specs now f true
    = {| returned := Ok r; quarantine_sink := None; clean_sink := None |}
    /\ success r = false
    /\ data r = [] /\ quarantined r = []
    /\ errors r
       = [ MissingColumns (missing_cols (specs_for column_specs (file_name f)) (Some fields));
           MissingColumns (missing_cols (specs_for column_specs (file_name f)) (Some fields)) ]
    /\ warnings r = []
    /\ row_count (metadata r) = 0
    /\ parsed_rows (metadata r) = 0 /\ quarantined_rows (metadata r) = 0.
Proof.
  intros Hex Hf Hs Hm. unfold load_csv. rewrite Hex. cbn [negb].
  fold (specs_for column_specs (file_name f)).
  unfold read_file, validate_header. rewrite Hf.
  rewrite (is_nil_false _ Hs), (is_nil_false _ Hm). cbn [negb andb].
  cbn [initial_state st_parsed_data st_quarantined_rows st_exceptions st_total_rows
       st_coercion_count st_null_count].
  unfold quarantine_duplicates. cbn [is_nil negb andb].
  cbn [_write_quarantine write_rows is_nil app str_of_error negb andb].
  eexists. split; [reflexivity |]. cbn. repeat split; reflexivity.
Qed.

Lemma read_file_rows (specs : dict ColumnSpec) (strict : bool)
    (records : list (list string)) :
  header_raises specs (fieldnames records) strict = false ->
  exists warns,
    validate_header specs (fieldnames records) strict = ([], warns, None)
    /\ read_file specs strict records
       = (fst (parse_rows specs strict 2 (DictReader records) initial_state), [], warns,
          snd (parse_rows specs strict 2 (DictReader records) initial_state)).
Proof.
  unfold header_raises, read_file.
  destruct (validate_header _ _ _) as [[errs warns] [e |]] eqn:Hv; [discriminate |].
  intros _. exists warns.
  assert (errs = []).
  { unfold validate_header in Hv.
    destruct (is_nil specs); [now injection Hv as <- |].
    destruct (negb _ && strict); [discriminate Hv | now injection Hv as <-]. }
  subst errs. split; [reflexivity |].
  destruct (parse_rows _ _ _ _ _); reflexivity.
Qed.

(** C5, as the code has it.  In strict mode the first row with a cell
    that raises ends the row loop: the rows after it are not read, the
    load is a failure and nothing is written to the clean-data sink; the
    rows accepted before it stay in the result, as data or as quarantined
    duplicates, and in its counts.  A file with a header that lacks a
    required column returns, in strict mode, a failed result with no row
    read and nothing written to either sink. *)
Theorem C5_strict_abort :
  (forall column_specs now f r good bad rest,
      file_exists f = true ->
      header_raises (specs_for column_specs (file_name f)) (fieldnames (file_records f)) true
      = false ->
      DictReader (file_records f) = good ++ bad :: rest ->
      forallb (fun cells => negb (row_stops (specs_for column_specs (file_name f)) true cells))
              good = true ->
      row_stops (specs_for column_specs (file_name f)) true bad = true ->
      returned (load_csv column_specs now f true) = Ok r ->
      success r = false
      /\ clean_sink (load_csv column_specs now f true) = None
      /\ row_count (metadata r) = len good + 1
      /\ len (data r) + len (quarantined r) = len good
      /\ parsed_rows (metadata r) + quarantined_rows (metadata r) = len good)
  /\
  (forall column_specs now f fields,
      file_exists f = true ->
      fieldnames (file_records f) = Some fields ->
      specs_for column_specs (file_name f) <> [] ->
      missing_cols (specs_for column_specs (file_name f)) (Some fields) <> [] ->
      exists r,
        load_csv column_specs now f true
        = {| returned := Ok r; quarantine_sink := None; clean_sink := None |}
        /\ success r = false /\ data r = [] /\ quarantined r = []
        /\ row_count (metadata r) = 0).
Proof.
  split.
  - intros column_specs now f r good bad rest Hex Hh Hrows Hgood Hbad H.
    destruct (load_csv_returns _ _ _ _ _ Hex H)
      as [st [errs [warns [raised [parsed [quarantine
         [Hread [Hq [Hd [Hqr [He [Hsucc [Hrc [Hpr [Hqc [_ Hclean]]]]]]]]]]]]]]]].
    destruct (read_file_rows _ _ _ Hh) as [warns' [_ Hread']].
    rewrite Hread in Hread'. rewrite Hrows in Hread'.
    destruct (parse_rows_stopped _ true good bad rest Hgood Hbad 2 initial_state)
      as [st' [e [Hp [Ht [Hn _]]]]].
    rewrite Hp in Hread'. cbn [fst snd] in Hread'.
    injection Hread' as -> -> -> ->.
    cbn [initial_state st_total_rows st_parsed_data st_quarantined_rows] in Ht, Hn.
    apply quarantine_duplicates_length in Hq.
    assert (Hfalse : success r = false) by (rewrite Hsucc, He; reflexivity).
    split; [exact Hfalse |]. split.
    + destruct (clean_sink _) eqn:Hc; [| reflexivity].
      destruct Hclean as [Hs _]; [discriminate | congruence].
    + rewrite Hd, Hqr, Hrc, Hpr, Hqc. repeat split; lens.
  - intros column_specs now f fields Hex Hf Hs Hm.
    destruct (strict_missing_column column_specs now f fields Hex Hf Hs Hm)
      as [r [H1 [H2 [H3 [H4 [_ [_ [H5 _]]]]]]]].
    exists r. repeat split; assumption.
Qed.


Lemma C5_strict_abort_witness :
  (exists r,
      result_of (load_csv _parse_column_specs "2025-08-27" adp_bad_rank true) = Some r
      /\ success r = false
      /\ clean_sink (load_csv _parse_column_specs "2025-08-27" adp_bad_rank true) = None
      /\ row_count (metadata r) = 2)
  /\
  (exists r,
      load_csv _parse_column_specs "2025-08-27" adp_sample true
      = {| returned := Ok r; quarantine_sink := None; clean_sink := None |}
      /\ success r = false /\ row_count (metadata r) = 0).
Proof.
  split.
  - destruct (returned (load_csv _parse_column_specs "2025-08-27" adp_bad_rank true))
      as [r | e] eqn:H; [| vm_compute in H; discriminate H].
    exists r. split; [unfold result_of; now rewrite H |].
    assert (Hh : header_raises (specs_for _parse_column_specs (file_name adp_bad_rank))
                   (fieldnames (file_records adp_bad_rank)) true = false)
      by (vm_compute; reflexivity).
    assert (Hrows : DictReader (file_records adp_bad_rank)
                    = firstn 1 (DictReader (file_records adp_bad_rank))
                      ++ nth 1 (DictReader (file_records adp_bad_rank)) []
                      :: skipn 2 (DictReader (file_records adp_bad_rank)))
      by (vm_compute; reflexivity).
    assert (Hgood : forallb
                      (fun cells =>
                         negb (row_stops (specs_for _parse_column_specs
                                                    (file_name adp_bad_rank)) true cells))
                      (firstn 1 (DictReader (file_records adp_bad_rank))) = true)
      by (vm_compute; reflexivity).
    assert (Hbad : row_stops (specs_for _parse_column_specs (file_name adp_bad_rank)) true
                     (nth 1 (DictReader (file_records adp_bad_rank)) []) = true)
      by (vm_compute; reflexivity).
    destruct (proj1 C5_strict_abort _parse_column_specs "2025-08-27" adp_bad_rank r
                _ _ _ eq_refl Hh Hrows Hgood Hbad H)
      as [H1 [H2 [H3 _]]].
    repeat split; assumption.
  - assert (Hs : specs_for _parse_column_specs (file_name adp_sample) <> [])
      by (vm_compute; discriminate).
    assert (Hm : missing_cols (specs_for _parse_column_specs (file_name adp_sample))
                   (Some ["Full Name"; "Position"; "Team Abbreviation"]) <> [])
      by (vm_compute; discriminate).
    destruct (proj2 C5_strict_abort _parse_column_specs "2025-08-27" adp_sample
                ["Full Name"; "Position"; "Team Abbreviation"] eq_refl eq_refl Hs Hm)
      as [r [H1 [H2 [_ [_ H3]]]]].
    exists r. repeat split; assumption.
Defined.

(** C5 as stated fails: the strict load of a file whose second row has a
    rank that is no number fails, and the result still holds the first
    row and counts it as parsed. *)
Lemma C5_partial_output_kept :
  exists r,
    result_of (load_csv _parse_column_specs "2025-08-27" adp_bad_rank true) = Some r
    /\ success r = false
    /\ ~ discards_partial_output r
    /\ parsed_rows (metadata r) = 1
    /\ map (fun row => dict_get row "Full Name") (data r) = [Some (PStr "Kyler Murray")].
Proof.
  destruct (returned (load_csv _parse_column_specs "2025-08-27" adp_bad_rank true))
    as [r | e] eqn:H; [| vm_compute in H; discriminate H].
  exists r. split; [unfold result_of; now rewrite H |].
  vm_compute in H. injection H as <-.
  repeat split; try reflexivity.
  intros [Hd _]. discriminate Hd.
Qed.

(** ** Header validation (C7) *)

Lemma difference_In (a b : list string) (c : string) :
  In c (difference a b) <-> In c a /\ ~ In c b.
Proof.
  unfold difference. rewrite filter_In, negb_true_iff.
  rewrite <- (mem_string_In c b). destruct (mem_string c b); intuition congruence.
Qed.

Lemma set_of_In (l : list string) (c : string) : In c (set_of l) <-> In c l.
Proof. unfold set_of. apply nodup_In. Qed.

Lemma header_raises_when (specs : dict ColumnSpec) (fields : option (list string))
    (strict : bool) :
  header_raises specs fields strict
  = negb (is_nil specs) && (negb (is_nil (missing_cols specs fields)) && strict).
Proof.
  unfold header_raises, validate_header.
  destruct (is_nil specs); [reflexivity |].
  destruct (negb (is_nil (missing_cols specs fields)) && strict); reflexivity.
Qed.

Lemma header_warnings (specs : dict ColumnSpec) (fields : option (list string))
    (strict : bool) (errs : list message) (warns : list warning) :
  validate_header specs fields strict = (errs, warns, None) ->
  specs <> [] ->
  (missing_cols specs fields <> [] ->
   In (MissingColumnsWarning (missing_cols specs fields)) warns)
  /\ (extra_cols specs fields <> [] -> In (ExtraColumns (extra_cols specs fields)) warns).
Proof.
  unfold validate_header. intros H Hs. rewrite (is_nil_false _ Hs) in H.
  destruct (negb (is_nil (missing_cols specs fields)) && strict); [discriminate H |].
  injection H as <- <-. split; intros Hne; rewrite (is_nil_false _ Hne).
  - now left.
  - apply in_or_app. right. now left.
Qed.

Lemma parse_cells_keeps (specs : dict ColumnSpec) (strict : bool) (row_num : Z)
    (k : string) (cells : dict raw) :
  (forall cell, In cell cells -> strip (fst cell) <> k) ->
  forall rs coerced nulls rs' coerced' nulls' raised,
    parse_cells specs strict row_num cells rs coerced nulls = (rs', coerced', nulls', raised) ->
    dict_get (parsed_row rs') k = dict_get (parsed_row rs) k.
Proof.
  induction cells as [| [col value] rest IH]; intros Hk rs c n rs' c' n' raised H;
    cbn [parse_cells] in H.
  - now injection H as <- _ _ _.
  - assert (Hcol : String.eqb (strip col) k = false).
    { apply String.eqb_neq. apply (Hk (col, value)). now left. }
    assert (Hrest : forall cell, In cell rest -> strip (fst cell) <> k).
    { intros cell Hin. apply Hk. now right. }
    destruct (dict_get specs (strip col)) as [spec |].
    + destruct (parse_value value spec) as [[v cf] | [m | |]].
      * apply (IH Hrest) in H. cbn [parsed_row] in H.
        now rewrite dict_get_set, Hcol in H.
      * destruct strict.
        -- now injection H as <- _ _ _.
        -- now apply (IH Hrest) in H.
      * now injection H as <- _ _ _.
      * now injection H as <- _ _ _.
    + apply (IH Hrest) in H. cbn [parsed_row] in H.
      now rewrite dict_get_set, Hcol in H.
Qed.

Lemma parse_cells_passthrough (specs : dict ColumnSpec) (strict : bool) (row_num : Z)
    (col : string) (value : raw) (after : dict raw) (before : dict raw) :
  dict_get specs (strip col) = None ->
  (forall cell, In cell after -> strip (fst cell) <> strip col) ->
  forall rs coerced nulls rs' coerced' nulls',
    parse_cells specs strict row_num (before ++ (col, value) :: after) rs coerced nulls
    = (rs', coerced', nulls', None) ->
    dict_get (parsed_row rs') (strip col) = Some (passthrough value).
Proof.
  intros Hspec Hafter.
  induction before as [| [col0 value0] before IH]; intros rs c n rs' c' n' H;
    cbn [app parse_cells] in H.
  - rewrite Hspec in H.
    apply (parse_cells_keeps _ _ _ (strip col) after Hafter) in H.
    cbn [parsed_row] in H. now rewrite dict_get_set, String.eqb_refl in H.
  - destruct (dict_get specs (strip col0)) as [spec |].
    + destruct (parse_value value0 spec) as [[v cf] | [m | |]].
      * now apply IH in H.
      * destruct strict; [discriminate H | now apply IH in H].
      * discriminate H.
      * discriminate H.
    + now apply IH in H.
Qed.

(** C7, as the code has it.  The missing columns are the expected ones
    absent from the header and the extra columns the header's ones that
    are not expected.  In strict mode a missing column makes the load of a
    file with a header a failure, the error recorded and no row read.
    Otherwise, in lenient mode or with no column missing, the header
    stops nothing: a load none of whose rows raises out of the loop
    succeeds with every row read, a warning recorded for the missing
    columns and one for the extra columns.  A cell whose trimmed column
    name has no specification is stored as its trimmed text, or as null
    when it is empty or absent. *)
Theorem C7_header_validation :
  (forall specs fields c,
      (In c (missing_cols specs fields)
       <-> In c (keys specs) /\ ~ In c (match fields with Some l => l | None => [] end))
      /\ (In c (extra_cols specs fields)
          <-> In c (match fields with Some l => l | None => [] end) /\ ~ In c (keys specs)))
  /\
  (forall column_specs now f fields,
      file_exists f = true ->
      fieldnames (file_records f) = Some fields ->
      specs_for column_specs (file_name f) <> [] ->
      missing_cols (specs_for column_specs (file_name f)) (Some fields) <> [] ->
      exists r,
        load_csv column_specs now f true
        = {| returned := Ok r; quarantine_sink := None; clean_sink := None |}
        /\ success r = false
        /\ errors r
           = [ MissingColumns (missing_cols (specs_for column_specs (file_name f)) (Some fields));
               MissingColumns (missing_cols (specs_for column_specs (file_name f)) (Some fields)) ]
        /\ row_count (metadata r) = 0)
  /\
  (forall column_specs now f strict r,
      file_exists f = true ->
      returned (load_csv column_specs now f strict) = Ok r ->
      strict = false
      \/ missing_cols (specs_for column_specs (file_name f)) (fieldnames (file_records f)) = [] ->
      forallb (fun cells =>
                 negb (row_stops (specs_for column_specs (file_name f)) strict cells))
              (DictReader (file_records f)) = true ->
      success r = true
      /\ row_count (metadata r) = len (DictReader (file_records f))
      /\ (specs_for column_specs (file_name f) <> [] ->
          (missing_cols (specs_for column_specs (file_name f)) (fieldnames (file_records f))
           <> [] ->
           In (MissingColumnsWarning
                 (missing_cols (specs_for column_specs (file_name f))
                               (fieldnames (file_records f))))
              (warnings r))
          /\ (extra_cols (specs_for column_specs (file_name f)) (fieldnames (file_records f))
              <> [] ->
              In (ExtraColumns
                    (extra_cols (specs_for column_specs (file_name f))
                                (fieldnames (file_records f))))
                 (warnings r))))
  /\
  (forall specs strict row_num col value before after rs coerced nulls rs' coerced' nulls',
      dict_get specs (strip col) = None ->
      (forall cell, In cell after -> strip (fst cell) <> strip col) ->
      parse_cells specs strict row_num (before ++ (col, value) :: after) rs coerced nulls
      = (rs', coerced', nulls', None) ->
      dict_get (parsed_row rs') (strip col)
      = Some (match value with
              | Some EmptyString => PNone
              | Some text => PStr (strip text)
              | None => PNone
              end)).
Proof.
  split; [| split; [| split]].
  - intros specs fields c. unfold missing_cols, extra_cols.
    rewrite !difference_In, !set_of_In. split; reflexivity.
  - intros column_specs now f fields Hex Hf Hs Hm.
    destruct (strict_missing_column column_specs now f fields Hex Hf Hs Hm)
      as [r [H1 [H2 [_ [_ [H3 [_ [H4 _]]]]]]]].
    exists r. repeat split; assumption.
  - intros column_specs now f strict r Hex H Hmode Hrows.
    destruct (load_csv_returns _ _ _ _ _ Hex H)
      as [st [errs [warns [raised [parsed [quarantine
         [Hread [_ [_ [_ [He [Hsucc [Hrc [_ [_ [Hincl _]]]]]]]]]]]]]]]].
    assert (Hh : header_raises (specs_for column_specs (file_name f))
                               (fieldnames (file_records f)) strict = false).
    { rewrite header_raises_when. destruct Hmode as [-> | ->].
      - now rewrite !andb_false_r.
      - cbn [is_nil negb andb]. now rewrite andb_false_r. }
    destruct (read_file_rows _ _ _ Hh) as [warns' [Hv Hread']].
    rewrite Hread in Hread'.
    destruct (parse_rows_through _ strict _ Hrows 2 initial_state) as [st' [Hp _]].
    rewrite Hp in Hread'. cbn [fst snd] in Hread'.
    injection Hread' as -> -> -> ->.
    apply parse_rows_complete in Hp. destruct Hp as [Ht _].
    cbn [initial_state st_total_rows] in Ht.
    split; [rewrite Hsucc, He; reflexivity |].
    split; [rewrite Hrc; lens |].
    intros Hs. destruct (header_warnings _ _ _ _ _ Hv Hs) as [Hm Hx].
    split; intros Hne; apply Hincl; auto.
  - intros specs strict row_num col value before after rs c n rs' c' n' Hspec Hafter H.
    rewrite (parse_cells_passthrough _ _ _ _ _ _ _ Hspec Hafter _ _ _ _ _ _ H).
    destruct value as [[| ch text] |]; reflexivity.
Qed.


Lemma C7_header_validation_witness :
  (exists r,
      load_csv _parse_column_specs "2025-08-27" adp_sample true
      = {| returned := Ok r; quarantine_sink := None; clean_sink := None |}
      /\ success r = false)
  /\
  (exists r,
      result_of (load_csv _parse_column_specs "2025-08-27" adp_sample false) = Some r
      /\ success r = true /\ row_count (metadata r) = 3)
  /\
  (exists r,
      result_of (load_csv _parse_column_specs "2025-08-27" rankings_with_note true) = Some r
      /\ success r = true /\ In (ExtraColumns ["Note"]) (warnings r)).
Proof.
  split; [| split].
  - assert (Hs : specs_for _parse_column_specs (file_name adp_sample) <> [])
      by (vm_compute; discriminate).
    assert (Hm : missing_cols (specs_for _parse_column_specs (file_name adp_sample))
                   (Some ["Full Name"; "Position"; "Team Abbreviation"]) <> [])
      by (vm_compute; discriminate).
    destruct (proj1 (proj2 C7_header_validation) _parse_column_specs "2025-08-27" adp_sample
                ["Full Name"; "Position"; "Team Abbreviation"] eq_refl eq_refl Hs Hm)
      as [r [H1 [H2 _]]].
    exists r. split; assumption.
  - destruct (returned (load_csv _parse_column_specs "2025-08-27" adp_sample false))
      as [r | e] eqn:H; [| vm_compute in H; discriminate H].
    exists r. split; [unfold result_of; now rewrite H |].
    assert (Hrows : forallb
                      (fun cells =>
                         negb (row_stops (specs_for _parse_column_specs (file_name adp_sample))
                                         false cells))
                      (DictReader (file_records adp_sample)) = true)
      by (vm_compute; reflexivity).
    destruct (proj1 (proj2 (proj2 C7_header_validation)) _parse_column_specs
                "2025-08-27" adp_sample false r eq_refl H (or_introl eq_refl) Hrows)
      as [H1 [H2 _]].
    split; assumption.
  - destruct (returned (load_csv _parse_column_specs "2025-08-27" rankings_with_note true))
      as [r | e] eqn:H; [| vm_compute in H; discriminate H].
    exists r. split; [unfold result_of; now rewrite H |].
    assert (Hmiss : missing_cols (specs_for _parse_column_specs (file_name rankings_with_note))
                      (fieldnames (file_records rankings_with_note)) = [])
      by (vm_compute; reflexivity).
    assert (Hrows : forallb
                      (fun cells =>
                         negb (row_stops (specs_for _parse_column_specs
                                                    (file_name rankings_with_note))
                                         true cells))
                      (DictReader (file_records rankings_with_note)) = true)
      by (vm_compute; reflexivity).
    destruct (proj1 (proj2 (proj2 C7_header_validation)) _parse_column_specs
                "2025-08-27" rankings_with_note true r eq_refl H (or_intror Hmiss) Hrows)
      as [H1 [_ H3]].
    split; [assumption |].
    assert (Hextra : extra_cols (specs_for _parse_column_specs (file_name rankings_with_note))
                       (fieldnames (file_records rankings_with_note)) = ["Note"])
      by (vm_compute; reflexivity).
    rewrite Hextra in H3. apply H3; [vm_compute |]; discriminate.
Defined.

(** C7 as stated fails: in the lenient load of a file with an extra
    column, the empty cell of that column is stored as null, not as the
    empty text. *)
Lemma C7_empty_cell_is_null :
  exists r first,
    result_of (load_csv _parse_column_specs "2025-08-27" rankings_with_note false) = Some r
    /\ nth_error (data r) 0 = Some first
    /\ nth_error (file_records rankings_with_note) 1
       = Some ["ARI"; "1.5"; "0.5"; "0.0"; "3"; "8.5"; "45.3%"; "20%"; "5%"; "1%"; ""]
    /\ ~ passes_trimmed_text first "Note" ""
    /\ dict_get first "Note" = Some PNone.
Proof.
  destruct (returned (load_csv _parse_column_specs "2025-08-27" rankings_with_note false))
    as [r | e] eqn:H; [| vm_compute in H; discriminate H].
  destruct (nth_error (data r) 0) as [first |] eqn:Hfirst;
    [| vm_compute in H; injection H as <-; discriminate Hfirst].
  exists r, first. split; [unfold result_of; now rewrite H |].
  split; [exact Hfirst |]. split; [reflexivity |].
  vm_compute in H. injection H as <-. vm_compute in Hfirst. injection Hfirst as <-.
  split; [| reflexivity].
  intros Hp. vm_compute in Hp. discriminate Hp.
Qed.

(** ** The quarantine-ratio gate (C4) *)

Lemma load_file_parsed_nonneg (column_specs : registry) (now : string) (f : source_file) :
  0 <= parsed_rows (metadata (snd (load_file column_specs now f))).
Proof.
  unfold load_file.
  destruct (returned (load_csv column_specs now f false)) as [r | e] eqn:H;
    cbn [snd]; [| cbn; lia].
  destruct (file_exists f) eqn:Hex.
  - destruct (load_csv_returns _ _ _ _ _ Hex H)
      as [st [errs [warns [raised [parsed [quarantine
         [_ [_ [_ [_ [_ [_ [_ [Hpr _]]]]]]]]]]]]]].
    rewrite Hpr. apply len_nonneg.
  - unfold load_csv in H. rewrite Hex in H. cbn [negb returned] in H.
    injection H as <-. cbn. lia.
Qed.

Lemma total_parsed_nonneg (w : world) : 0 <= total_rows_parsed (report_of w).
Proof.
  unfold report_of, generate_audit_report, load_all_canonical_data, total.
  cbn [total_rows_parsed].
  induction (canonical w) as [| f files IH]; cbn [map fold_right]; [lia |].
  pose proof (load_file_parsed_nonneg _parse_column_specs (timestamp w) f). lia.
Qed.

Lemma run_integrity_check_keeps (m : pipeline_metadata) (o : check_outcome) :
  stages_completed (fst (run_integrity_check m o)) = stages_completed m
  /\ stages_failed (fst (run_integrity_check m o)) = stages_failed m
  /\ start_time (fst (run_integrity_check m o)) = start_time m
  /\ exists more, run_errors (fst (run_integrity_check m o)) = run_errors m ++ more.
Proof.
  destruct o as [code out err | | text]; cbn [run_integrity_check].
  - destruct (code =? 0); cbn; repeat split; eauto.
    exists []. now rewrite app_nil_r.
  - cbn. repeat split; eauto.
  - cbn. repeat split; eauto.
Qed.

Lemma reaches_loading_passes (cfg : config) (w : world) (m : pipeline_metadata) :
  reaches_loading cfg w ->
  fail_on_integrity_violation cfg && negb (snd (run_integrity_check m (pre_check w))) = false.
Proof.
  intros [H | [out [err H]]].
  - now rewrite H.
  - rewrite H. cbn. apply andb_false_r.
Qed.

(** C4.  When the run reaches the loading stage, the ratio of the
    quarantined to the parsed rows of the audit report exceeds
    [max_quarantine_ratio] and [fail_on_validation_error] is set, the run
    reports failure, the violation is in the errors of the run, and the
    final step still takes place: the metadata saved is the metadata of
    the run, with its end time and duration, the one stage completed and
    the stages that failed. *)
Theorem C4_quarantine_ratio_failure (cfg : config) (w : world) (ratio : float) :
  reaches_loading cfg w ->
  truediv (total_rows_quarantined (report_of w)) (total_rows_parsed (report_of w))
  = Some ratio ->
  gt (NFloat ratio) (max_quarantine_ratio cfg) = true ->
  fail_on_validation_error cfg = true ->
  run_success (run_pipeline cfg w) = false
  /\ In (QuarantineRatioExceeded ratio (max_quarantine_ratio cfg))
        (run_errors (run_metadata (run_pipeline cfg w)))
  /\ saved_metadata (run_pipeline cfg w) = Some (run_metadata (run_pipeline cfg w))
  /\ end_time (run_metadata (run_pipeline cfg w)) = Some (clock_end w)
  /\ duration_seconds (run_metadata (run_pipeline cfg w))
     = Some (clock_end w - clock_start w)
  /\ stages_completed (run_metadata (run_pipeline cfg w)) = ["integrity_pre_check"]
  /\ stages_failed (run_metadata (run_pipeline cfg w))
     = filter (fun s => negb (mem_string s ["integrity_pre_check"])) (stages cfg).
Proof.
  intros Hreach Hdiv Hgt Hfail.
  assert (Hpos : (0 <? total_rows_parsed (report_of w)) = true).
  { apply Z.ltb_lt. pose proof (total_parsed_nonneg w).
    destruct (total_rows_parsed (report_of w)) eqn:Hp; try lia.
    unfold truediv in Hdiv. destruct (total_rows_quarantined (report_of w)); discriminate. }
  set (m0 := set_times initial_metadata (Some (clock_start w)) None None).
  pose proof (reaches_loading_passes cfg w m0 Hreach) as Hpass.
  destruct (run_integrity_check_keeps m0 (pre_check w)) as [Hc [Hf [Hst [more Herr]]]].
  unfold run_pipeline, run_stages. fold m0.
  destruct (run_integrity_check m0 (pre_check w)) as [m1 passed] eqn:Hcheck.
  cbn [fst snd] in *. rewrite Hpass.
  unfold load_and_clean_data. fold (report_of w).
  unfold check_quarantine_ratio. rewrite Hpos, Hdiv, Hgt, Hfail.
  cbn [run_success run_metadata saved_metadata].
  unfold record_failure, finalize.
  set (failed := filter _ (stages cfg)).
  assert (Hfilter : failed
                    = filter (fun s => negb (mem_string s ["integrity_pre_check"])) (stages cfg)).
  { unfold failed. cbn [add_error complete stages_completed]. now rewrite Hc. }
  split; [reflexivity |]. split.
  - destruct (is_nil failed); cbn; rewrite Herr;
      apply in_or_app; right; cbn; tauto.
  - split; [reflexivity |].
    destruct (is_nil failed) eqn:Hnil;
      cbn [set_times set_stages_failed add_error complete end_time duration_seconds
           stages_completed stages_failed];
      rewrite Hc;
      (split; [reflexivity |]); (split; [reflexivity |]); (split; [reflexivity |]).
    + rewrite Hf, <- Hfilter. destruct failed; [reflexivity | discriminate].
    + exact Hfilter.
Qed.

Lemma C4_quarantine_ratio_failure_witness :
  total_rows_parsed (report_of hundred_world) = 100
  /\ total_rows_quarantined (report_of hundred_world) = 15
  /\ run_success (run_pipeline strict_config hundred_world) = false
  /\ saved_metadata (run_pipeline strict_config hundred_world)
     = Some (run_metadata (run_pipeline strict_config hundred_world))
  /\ stages_failed (run_metadata (run_pipeline strict_config hundred_world))
     = ["data_loading"; "data_validation"; "data_transformation";
        "integrity_post_check"; "metadata_generation"].
Proof.
  assert (Hreach : reaches_loading strict_config hundred_world)
    by (right; exists "", ""; reflexivity).
  assert (Hdiv : truediv (total_rows_quarantined (report_of hundred_world))
                         (total_rows_parsed (report_of hundred_world))
                 = Some (decimal_to_float false 15 (-2)))
    by (vm_compute; reflexivity).
  assert (Hgt : gt (NFloat (decimal_to_float false 15 (-2)))
                   (max_quarantine_ratio strict_config) = true)
    by (vm_compute; reflexivity).
  destruct (C4_quarantine_ratio_failure strict_config hundred_world
              (decimal_to_float false 15 (-2)) Hreach Hdiv Hgt eq_refl)
    as [H1 [_ [H3 [_ [_ [_ H7]]]]]].
  split; [vm_compute; reflexivity |]. split; [vm_compute; reflexivity |].
  split; [exact H1 |]. split; [exact H3 |]. exact H7.
Defined.
(* ================================================================== *)
(** * Further properties of [parse_value] *)
(* ================================================================== *)

(** The clamp of "Validate allowed range" returns the value as it came,
    or a value flagged as coerced, or raises. *)
Lemma clamp_flag (p min_val max_val : pyval) (c : bool) (p' : pyval) (c' : bool) :
  bind (le (M:=message) min_val p) (fun above =>
  bind (if above then le p max_val else Ok false) (fun inside =>
  if inside then Ok (p, c)
  else
    bind (min2 p max_val) (fun x =>
    bind (max2 min_val x) (fun clamped =>
    Ok (clamped, true)))))
  = Ok (p', c') ->
  (p' = p /\ c' = c) \/ c' = true.
Proof.
  unfold min2, max2, le, lt.
  destruct (order_cases is_le min_val p) as [[r1 ->] | ->]; [| discriminate].
  cbn [bind].
  assert (H2 : (exists r, (if r1 then order (M:=message) is_le p max_val else Ok false) = Ok r)
               \/ (if r1 then order (M:=message) is_le p max_val else Ok false) = Raise TypeError).
  { destruct r1; [apply order_cases | eauto]. }
  destruct H2 as [[r2 ->] | ->]; [| discriminate].
  cbn [bind]. destruct r2.
  - intros H. injection H as <- <-. now left.
  - destruct (order_cases is_lt max_val p) as [[r3 ->] | ->]; [| discriminate].
    cbn [bind].
    destruct (order_cases is_lt min_val (if r3 then max_val else p)) as [[r4 ->] | ->];
      [| discriminate].
    cbn [bind]. intros H. injection H as _ <-. now right.
Qed.

Lemma validate_flag (spec : ColumnSpec) (p : pyval) (c : bool) (p' : pyval) (c' : bool) :
  validate spec p c = Ok (p', c') -> (p' = p /\ c' = c) \/ c' = true.
Proof.
  unfold validate.
  destruct (allowed_range spec) as [[| first range] |].
  - destruct p; intros H; injection H as <- <-; now left.
  - destruct (is_numeric first).
    + destruct p; try apply clamp_flag.
      intros H; injection H as <- <-; now left.
    + destruct p; try (intros H; injection H as <- <-; now left);
        repeat match goal with
          | |- context [match ?x with _ => _ end] => destruct x
          end;
        intros H; try discriminate H; injection H as <- <-; auto.
  - destruct p; intros H; injection H as <- <-; now left.
Qed.

(** X1.  A result that is not flagged as coerced is a null token read as
    null, or exactly what the conversion of the cleaned text gives: no
    truncation, clamp, alias, change of case or null stands behind
    [coerced = false]. *)
Theorem unflagged_is_direct (v : raw) (spec : ColumnSpec) (p : pyval) :
  parse_value v spec = Ok (p, false) ->
  (is_na v = true /\ nullable spec = true /\ p = PNone)
  \/ (is_na v = false
      /\ convert (dtype spec) (cleaned (dtype spec) v) = Ok (p, false)).
Proof.
  unfold parse_value. destruct (is_na v).
  - destruct (nullable spec); [| discriminate].
    intros H. injection H as <-. left. auto.
  - intros H. right. split; [reflexivity |].
    destruct (convert _ _) as [[p0 c0] | [m | |]].
    + destruct (validate_flag _ _ _ _ _ H) as [[-> ->] | Hc]; [reflexivity | discriminate].
    + destruct (nullable spec); discriminate.
    + destruct (nullable spec); discriminate.
    + discriminate.
Qed.

Lemma unflagged_is_direct_witness :
  (is_na (Some "17"%string) = false
   /\ convert "int" (cleaned "int" (Some "17"%string)) = Ok (PInt 17, false)).
Proof.
  destruct (unflagged_is_direct (Some "17"%string)
              (column_in "byeWeek" "int" true (ints 1 18)) (PInt 17) eq_refl)
    as [[H _] | H]; [discriminate H | exact H].
Defined.

Lemma comparable (lo hi : Z) (x : number) (c : comparison) :
  compare_number (NInt lo) x = Some c -> exists c', compare_number x (NInt hi) = Some c'.
Proof.
  destruct x as [n | y]; cbn [compare_number]; [eauto |].
  destruct y; cbn; try discriminate; eauto.
Qed.

(** A value that leaves the numeric check of an integer range
    [[lo, hi]] is null or lies within the range. *)
Lemma validate_within (spec : ColumnSpec) (p : pyval) (c : bool) (lo hi : Z)
    (p' : pyval) (c' : bool) :
  allowed_range spec = Some [PInt lo; PInt hi] -> lo <= hi ->
  validate spec p c = Ok (p', c') ->
  p' = PNone \/ exists x, as_number p' = Some x /\ within lo hi x.
Proof.
  intros Hr Hle.
  assert (Hlo : within lo hi (NInt lo)).
  { split; cbn; [rewrite Z.compare_refl; reflexivity |].
    destruct (lo ?= hi) eqn:E; try reflexivity. rewrite Z.compare_gt_iff in E. lia. }
  assert (Hhi : within lo hi (NInt hi)).
  { split; cbn; [| rewrite Z.compare_refl; reflexivity].
    destruct (lo ?= hi) eqn:E; try reflexivity. rewrite Z.compare_gt_iff in E. lia. }
  destruct (as_number p) as [x |] eqn:Hx.
  - assert (Hp : is_none p = false) by (destruct p; try discriminate; reflexivity).
    rewrite (validate_numeric _ _ _ _ c Hr Hp).
    rewrite (le_numbers (PInt lo) p (NInt lo) x eq_refl Hx).
    rewrite (le_numbers p (PInt hi) x (NInt hi) Hx eq_refl).
    unfold min2, max2.
    rewrite (lt_numbers (PInt hi) p (NInt hi) x eq_refl Hx).
    cbn [bind].
    destruct (is_le (compare_number (NInt lo) x)) eqn:H1.
    + destruct (is_le (compare_number x (NInt hi))) eqn:H2.
      * intros H. injection H as <- <-. right. exists x. repeat split; assumption.
      * cbn [bind].
        destruct (is_lt (compare_number (NInt hi) x)) eqn:H3; cbn [bind].
        -- rewrite (lt_numbers (PInt lo) (PInt hi) (NInt lo) (NInt hi) eq_refl eq_refl).
           cbn [bind]. intros H. injection H as <- <-. right.
           destruct (lo ?= hi); [exists (NInt lo) | exists (NInt hi) | exists (NInt lo)];
             split; auto.
        -- exfalso.
           destruct (compare_number (NInt lo) x) as [c1 |] eqn:E1; [| discriminate H1].
           destruct (comparable lo hi x c1 E1) as [c2 E2].
           rewrite compare_number_flip, E2 in H3. rewrite E2 in H2.
           destruct c2; discriminate.
    + cbn [bind].
      destruct (is_lt (compare_number (NInt hi) x)) eqn:H3; cbn [bind].
      * rewrite (lt_numbers (PInt lo) (PInt hi) (NInt lo) (NInt hi) eq_refl eq_refl).
        cbn [bind]. intros H. injection H as <- <-. right.
        destruct (lo ?= hi); [exists (NInt lo) | exists (NInt hi) | exists (NInt lo)];
             split; auto.
      * rewrite (lt_numbers (PInt lo) p (NInt lo) x eq_refl Hx). cbn [bind].
        assert (H4 : is_lt (compare_number (NInt lo) x) = false).
        { destruct (compare_number (NInt lo) x) as [[] |]; try reflexivity; discriminate. }
        rewrite H4. intros H. injection H as <- <-. right. exists (NInt lo). split; auto.
  - destruct p; try discriminate Hx.
    + unfold validate. intros H. injection H as <- <-. now left.
    + assert (Hp : is_none (PStr s) = false) by reflexivity.
      rewrite (validate_numeric _ _ _ _ c Hr Hp). discriminate.
Qed.

(** X2.  On a column with an integer range [[lo, hi]] every value
    [parse_value] returns is null or a number within the range, whatever
    the cell: infinities and NaN included. *)
Theorem result_within_range (v : raw) (spec : ColumnSpec) (lo hi : Z) (p : pyval) (c : bool) :
  allowed_range spec = Some [PInt lo; PInt hi] -> lo <= hi ->
  parse_value v spec = Ok (p, c) ->
  p = PNone \/ exists x, as_number p = Some x /\ within lo hi x.
Proof.
  intros Hr Hle. unfold parse_value. destruct (is_na v).
  - destruct (nullable spec); [| discriminate]. intros H. injection H as <- _. now left.
  - destruct (convert _ _) as [[p0 c0] | [m | |]].
    + apply validate_within; assumption.
    + destruct (nullable spec); [| discriminate]. intros H. injection H as <- _. now left.
    + destruct (nullable spec); [| discriminate]. intros H. injection H as <- _. now left.
    + discriminate.
Qed.

Lemma result_within_range_witness :
  parse_value (Some "-inf"%string) (column_in "games" "float" true (ints 0 17))
  = Ok (PInt 0, true)
  /\ (PInt 0 = PNone \/ exists x, as_number (PInt 0) = Some x /\ within 0 17 x).
Proof.
  split; [reflexivity |].
  apply (result_within_range (Some "-inf"%string)
           (column_in "games" "float" true (ints 0 17)) 0 17 (PInt 0) true eq_refl);
    [lia | reflexivity].
Defined.

(** X3.  Clamping is idempotent: a value that has left the check of an
    integer range goes through it again unchanged and unflagged. *)
Theorem clamp_idempotent (spec : ColumnSpec) (p : pyval) (c : bool) (lo hi : Z)
    (p' : pyval) (c' : bool) :
  allowed_range spec = Some [PInt lo; PInt hi] -> lo <= hi ->
  validate spec p c = Ok (p', c') ->
  validate spec p' false = Ok (p', false).
Proof.
  intros Hr Hle H.
  destruct (validate_within _ _ _ _ _ _ _ Hr Hle H) as [-> | [x [Hx Hw]]].
  - reflexivity.
  - now apply (proj2 (proj2 (validate_numeric_range spec p' x lo hi false Hr Hle Hx))).
Qed.

Lemma clamp_idempotent_witness :
  validate (column_in "byeWeek" "int" true (ints 1 18)) (PInt 20) false = Ok (PInt 18, true)
  /\ validate (column_in "byeWeek" "int" true (ints 1 18)) (PInt 18) false
     = Ok (PInt 18, false).
Proof.
  split; [reflexivity |].
  apply (clamp_idempotent (column_in "byeWeek" "int" true (ints 1 18)) (PInt 20) false 1 18
           (PInt 18) true eq_refl); [lia | reflexivity].
Defined.

Lemma order_operands {M} (test : option comparison -> bool) (a b : pyval) (r : bool) :
  order (M:=M) test a b = Ok r -> is_none a = false /\ is_none b = false.
Proof.
  unfold order. destruct a, b; cbn; try discriminate; auto.
Qed.

Lemma present_not_empty (s : string) : is_na (Some s) = false -> is_empty s = false.
Proof. destruct s; [discriminate | reflexivity]. Qed.

Lemma convert_present (d : string) (v : raw) (s : string) (p : pyval) (c : bool) :
  is_na (Some s) = false -> v = cleaned d (Some s) ->
  convert d v = Ok (p, c) -> is_none p = false.
Proof.
  intros Hna ->. unfold convert, cleaned.
  destruct (String.eqb d "str") eqn:E1.
  - apply String.eqb_eq in E1. subst d. cbn [String.eqb Ascii.eqb Bool.eqb].
    rewrite (present_not_empty s Hna). intros H. injection H as <- _. reflexivity.
  - destruct (String.eqb d "int").
    + destruct (contains_char _ _).
      * destruct (float_of_str _); [| discriminate].
        destruct (int_of_float _ _); [| discriminate].
        cbn [bind]. intros H. injection H as <- _. reflexivity.
      * destruct (int_of_str _); [| discriminate].
        intros H. injection H as <- _. reflexivity.
    + destruct (String.eqb d "float").
      * destruct (float_of_str _); [| discriminate].
        intros H. injection H as <- _. reflexivity.
      * destruct (String.eqb d "bool").
        -- repeat match goal with
             | |- context [if ?b then _ else _] => destruct b
             end; try discriminate; intros H; injection H as <- _; reflexivity.
        -- intros H; injection H as <- _; reflexivity.
Qed.

Lemma validate_present (spec : ColumnSpec) (p : pyval) (c : bool) (p' : pyval) (c' : bool) :
  nullable spec = false -> is_none p = false ->
  validate spec p c = Ok (p', c') -> is_none p' = false.
Proof.
  intros Hn Hp. unfold validate.
  destruct (allowed_range spec) as [[| first range] |].
  - destruct p; intros H; injection H as <- _; assumption.
  - destruct (is_numeric first) eqn:Hf.
    + assert (Hfirst : is_none first = false) by (destruct first; try discriminate; reflexivity).
      destruct p; try discriminate Hp;
        unfold min2, max2, le, lt;
        match goal with
        | |- context [order is_le first ?q] =>
            destruct (order (M:=message) is_le first q) as [above |]; [| discriminate];
            cbn [bind];
            destruct (if above then order (M:=message) is_le q (last (first :: range) first)
                      else Ok false) as [[] |]; [| | discriminate]; cbn [bind];
            [ intros H; injection H as <- _; reflexivity |];
            destruct (order (M:=message) is_lt (last (first :: range) first) q)
              as [b1 |] eqn:E1; [| discriminate]; cbn [bind];
            destruct (order (M:=message) is_lt first
                        (if b1 then last (first :: range) first else q))
              as [b2 |] eqn:E2; [| discriminate]; cbn [bind];
            intros H; injection H as <- _;
            destruct b2; [| assumption];
            apply (order_operands _ _ _ _ E2)
        end.
    + rewrite Hn.
      destruct p; try discriminate Hp;
        repeat match goal with
          | |- context [match ?x with _ => _ end] => destruct x
          end;
        intros H; try discriminate H; injection H as <- _; reflexivity.
  - destruct p; intros H; injection H as <- _; assumption.
Qed.

(** X4.  On a column that is not nullable, a cell that is present never
    comes back as null: [parse_value] returns a value or raises. *)
Theorem non_nullable_never_null (s : string) (spec : ColumnSpec) (p : pyval) (c : bool) :
  nullable spec = false ->
  parse_value (Some s) spec = Ok (p, c) ->
  p <> PNone.
Proof.
  intros Hn. unfold parse_value. rewrite Hn.
  destruct (is_na (Some s)) eqn:Hna; [discriminate |].
  destruct (convert _ _) as [[p0 c0] | [m | |]] eqn:Hc; try discriminate.
  intros H Hp. subst p.
  pose proof (convert_present _ _ s _ _ Hna eq_refl Hc) as H0.
  pose proof (validate_present _ _ _ _ _ Hn H0 H) as H1. discriminate H1.
Qed.

Lemma non_nullable_never_null_witness :
  parse_value (Some " qb "%string) (column_in "position" "str" false (strs VALID_POSITIONS))
  = Ok (PStr "QB", true)
  /\ PStr "QB" <> PNone.
Proof.
  split; [reflexivity |].
  apply (non_nullable_never_null " qb "%string
           (column_in "position" "str" false (strs VALID_POSITIONS)) (PStr "QB") true eq_refl).
  reflexivity.
Defined.

(** X5.  A field that is absent from a record (the reader gives [None],
    as for a record shorter than the header) is accepted as null on every
    [str] column, not nullable ones included, and is not flagged. *)
Theorem absent_field_is_null (spec : ColumnSpec) :
  dtype spec = "str"%string ->
  parse_value None spec = Ok (PNone, false).
Proof.
  intros Hd. unfold parse_value. cbn [is_na cleaned]. rewrite Hd. reflexivity.
Qed.

Lemma absent_field_is_null_witness :
  nullable (column "playerName" "str" false) = false
  /\ parse_value None (column "playerName" "str" false) = Ok (PNone, false).
Proof.
  split; [reflexivity |].
  apply (absent_field_is_null (column "playerName" "str" false)). reflexivity.
Defined.

(** On the other column types an absent field is a conversion failure:
    null and flagged where the column is nullable, [ValueError]
    otherwise. *)
Lemma absent_field_numeric (spec : ColumnSpec) :
  dtype spec = "int"%string \/ dtype spec = "float"%string ->
  parse_value None spec
  = if nullable spec then Ok (PNone, true)
    else Raise (ValueError (CannotParse (name spec) None (dtype spec))).
Proof.
  intros [Hd | Hd]; unfold parse_value; cbn [is_na cleaned]; rewrite Hd; reflexivity.
Qed.

Lemma dict_get_In {V} (d : dict V) (k : string) (v : V) :
  dict_get d k = Some v -> In (k, v) d.
Proof.
  induction d as [| [k' v'] d IH]; cbn [dict_get]; [discriminate |].
  destruct (String.eqb k' k) eqn:E.
  - apply String.eqb_eq in E. subst k'. intros H. injection H as ->. now left.
  - intros H. right. now apply IH.
Qed.

Lemma validate_categorical (spec : ColumnSpec) (p : pyval) (c : bool) (range : list pyval)
    (p' : pyval) (c' : bool) :
  dtype spec = "str"%string ->
  allowed_range spec = Some range ->
  (exists first rest, range = first :: rest /\ is_numeric first = false) ->
  validate spec p c = Ok (p', c') ->
  p' = PNone \/ mem p' range = true
  \/ (is_team_column (name spec) = true
      /\ exists k code, dict_get TEAM_MAPPINGS k = Some code /\ p' = PStr code).
Proof.
  intros Hd Hr [a0 [rest [-> Hf]]]. unfold validate. rewrite Hr, Hf, Hd.
  cbn [String.eqb Ascii.eqb Bool.eqb].
  destruct p; try (intros H; injection H as <- _; now left).
  all: match goal with
       | |- context [mem ?q ?r] =>
           destruct (mem q r) eqn:Hm;
           [ intros H; injection H as <- _; right; left; exact Hm |]
       end.
  all: destruct (is_team_column (name spec)) eqn:Ht; cbv beta iota.
  all: match goal with
       | |- context [team_mapping ?q] =>
           destruct (team_mapping q) as [v |] eqn:Hv;
           [ intros H; injection H as <- _; right; right; split; [reflexivity |];
             destruct q; try discriminate Hv; cbn [team_mapping] in Hv;
             eexists; eexists; split; [exact Hv | reflexivity] |]
       | _ => idtac
       end.
  all: match goal with
       | |- context [mem (PStr ?u) ?r] =>
           destruct (mem (PStr u) r) eqn:Hu;
           [ intros H; injection H as <- _; right; left; exact Hu |];
           try (destruct (dict_get TEAM_MAPPINGS u) as [w |] eqn:Hw;
                [ intros H; injection H as <- _; right; right; split; [reflexivity |];
                  eexists; eexists; split; [exact Hw | reflexivity] |])
       end.
  all: destruct (nullable spec); [| discriminate]; intros H; injection H as <- _; now left.
Qed.

(** X6.  On a [str] column with a set of allowed values, every value
    [parse_value] returns is null, one of the allowed values, or, on a
    team column, the canonical code of an alias of [TEAM_MAPPINGS]. *)
Theorem result_in_allowed_set (v : raw) (spec : ColumnSpec) (range : list pyval)
    (p : pyval) (c : bool) :
  dtype spec = "str"%string ->
  allowed_range spec = Some range ->
  (exists first rest, range = first :: rest /\ is_numeric first = false) ->
  parse_value v spec = Ok (p, c) ->
  p = PNone \/ mem p range = true
  \/ (is_team_column (name spec) = true
      /\ exists k code, dict_get TEAM_MAPPINGS k = Some code /\ p = PStr code).
Proof.
  intros Hd Hr Hf. unfold parse_value. destruct (is_na v).
  - destruct (nullable spec); [| discriminate]. intros H. injection H as <- _. now left.
  - destruct (convert _ _) as [[p0 c0] | [m | |]].
    + now apply validate_categorical.
    + destruct (nullable spec); [| discriminate]. intros H. injection H as <- _. now left.
    + destruct (nullable spec); [| discriminate]. intros H. injection H as <- _. now left.
    + discriminate.
Qed.

Lemma result_in_allowed_set_witness :
  parse_value (Some "wr"%string) (column_in "position" "str" false (strs VALID_POSITIONS))
  = Ok (PStr "WR", true)
  /\ (PStr "WR" = PNone \/ mem (PStr "WR") (strs VALID_POSITIONS) = true
      \/ (is_team_column "position" = true
          /\ exists k code, dict_get TEAM_MAPPINGS k = Some code /\ PStr "WR" = PStr code)).
Proof.
  split; [reflexivity |].
  apply (result_in_allowed_set (Some "wr"%string)
           (column_in "position" "str" false (strs VALID_POSITIONS))
           (strs VALID_POSITIONS) (PStr "WR") true eq_refl eq_refl).
  - eexists. eexists. split; reflexivity.
  - reflexivity.
Defined.

Lemma alias_keys_upper (k v : string) : dict_get TEAM_MAPPINGS k = Some v -> upper k = k.
Proof.
  intros H. apply dict_get_In in H. cbn in H.
  repeat (destruct H as [H | H]; [injection H as <- _; reflexivity |]). contradiction.
Qed.

(** X7.  The alias lookup ignores case and surrounding white space: on a
    team column of type [str], a cell whose trimmed upper-case form is an
    alias of [TEAM_MAPPINGS], and which is not allowed as written or in
    upper case, is read as the alias's canonical code and flagged. *)
Theorem alias_ignores_case (s v n : string) (nul : bool) (range : list pyval) :
  is_team_column n = true ->
  (exists first rest, range = first :: rest /\ is_numeric first = false) ->
  is_na (Some s) = false ->
  mem (PStr (strip s)) range = false ->
  mem (PStr (upper (strip s))) range = false ->
  dict_get TEAM_MAPPINGS (upper (strip s)) = Some v ->
  parse_value (Some s) (column_in n "str" nul range) = Ok (PStr v, true).
Proof.
  intros Ht [a0 [rest [-> Hf]]] Hna Hm Hu Hv.
  unfold parse_value. rewrite Hna.
  cbn [column_in dtype cleaned convert String.eqb Ascii.eqb Bool.eqb].
  rewrite (present_not_empty s Hna).
  unfold validate. cbn [allowed_range column_in name dtype nullable].
  rewrite Hf, Hm, Ht. cbn [team_mapping String.eqb Ascii.eqb Bool.eqb str].
  destruct (dict_get TEAM_MAPPINGS (strip s)) as [v' |] eqn:Hv'.
  - rewrite <- (alias_keys_upper _ _ Hv') in Hv' at 1. rewrite Hv in Hv'.
    injection Hv' as <-. reflexivity.
  - rewrite Hu, Hv. reflexivity.
Qed.

Lemma alias_ignores_case_witness :
  parse_value (Some " arz "%string) (column_in "Team" "str" false (strs VALID_TEAMS))
  = Ok (PStr "ARI", true).
Proof.
  apply (alias_ignores_case " arz "%string "ARI"%string "Team"%string false (strs VALID_TEAMS)
           eq_refl).
  - eexists. eexists. split; reflexivity.
  - reflexivity.
  - reflexivity.
  - reflexivity.
  - reflexivity.
Defined.

Lemma clamp_raises (p min_val max_val : pyval) (c : bool) (e : error) :
  bind (le (M:=message) min_val p) (fun above =>
  bind (if above then le p max_val else Ok false) (fun inside =>
  if inside then Ok (p, c)
  else
    bind (min2 p max_val) (fun x =>
    bind (max2 min_val x) (fun clamped =>
    Ok (clamped, true)))))
  = Raise e ->
  e = TypeError.
Proof.
  unfold min2, max2, le, lt.
  destruct (order_cases is_le min_val p) as [[r1 ->] | ->];
    [| intros H; now injection H as <-].
  cbn [bind].
  assert (H2 : (exists r, (if r1 then order (M:=message) is_le p max_val else Ok false) = Ok r)
               \/ (if r1 then order (M:=message) is_le p max_val else Ok false) = Raise TypeError).
  { destruct r1; [apply order_cases | eauto]. }
  destruct H2 as [[r2 ->] | ->]; [| intros H; now injection H as <-].
  cbn [bind]. destruct r2; [discriminate |].
  destruct (order_cases is_lt max_val p) as [[r3 ->] | ->];
    [| intros H; now injection H as <-].
  cbn [bind].
  destruct (order_cases is_lt min_val (if r3 then max_val else p)) as [[r4 ->] | ->];
    [discriminate | intros H; now injection H as <-].
Qed.

Lemma convert_overflow (d : string) (v : raw) :
  convert d v = Raise OverflowError -> d = "int"%string.
Proof.
  unfold convert.
  destruct (String.eqb d "str"); [destruct v as [s |]; discriminate |].
  destruct (String.eqb d "int") eqn:E; [intros _; now apply String.eqb_eq |].
  destruct (String.eqb d "float");
    [destruct v as [s |]; [destruct (float_of_str s) |]; discriminate |].
  destruct (String.eqb d "bool"); [| destruct v; discriminate].
  destruct v as [s |]; [| discriminate].
  repeat match goal with
         | |- context [if ?b then _ else _] => destruct b
         end; discriminate.
Qed.

(** X8.  On a nullable column [parse_value] raises in two cases only:
    [OverflowError], from the conversion of an integer column, and
    [TypeError], from the comparison with a numeric bound.  It never
    raises [ValueError], so no row is quarantined for a cell of such a
    column. *)
Theorem nullable_raises_only (v : raw) (spec : ColumnSpec) (e : error) :
  nullable spec = true ->
  parse_value v spec = Raise e ->
  (e = OverflowError /\ dtype spec = "int"%string)
  \/ (e = TypeError
      /\ exists first rest,
           allowed_range spec = Some (first :: rest) /\ is_numeric first = true).
Proof.
  intros Hn. unfold parse_value. rewrite Hn.
  destruct (is_na v); [discriminate |].
  destruct (convert _ _) as [[p c] | [m | |]] eqn:Hc; try discriminate.
  - unfold validate.
    destruct (allowed_range spec) as [[| first rest] |];
      [destruct p; discriminate | | destruct p; discriminate].
    destruct (is_numeric first) eqn:Hf.
    + intros H. right. split; [| now exists first, rest].
      destruct p; try discriminate H; now apply clamp_raises in H.
    + rewrite Hn.
      destruct p; try discriminate;
        repeat match goal with
          | |- context [match ?x with _ => _ end] => destruct x
          end; discriminate.
  - intros H. injection H as <-. left. split; [reflexivity |].
    now apply convert_overflow in Hc.
Qed.

Lemma nullable_raises_only_witness :
  parse_value (Some "1.0e999"%string) (column_in "byeWeek" "int" true (ints 1 18))
  = Raise OverflowError
  /\ dtype (column_in "byeWeek" "int" true (ints 1 18)) = "int"%string.
Proof.
  assert (H0 : parse_value (Some "1.0e999"%string) (column_in "byeWeek" "int" true (ints 1 18))
               = Raise OverflowError) by (vm_compute; reflexivity).
  split; [exact H0 |].
  destruct (nullable_raises_only (Some "1.0e999"%string)
              (column_in "byeWeek" "int" true (ints 1 18)) OverflowError eq_refl H0)
    as [[_ H] | [H _]]; [exact H | discriminate H].
Defined.

(* ================================================================== *)
(** * Further properties of [detect_duplicates] *)
(* ================================================================== *)

(** X10.  [detect_duplicates] loses and invents no row: the two outputs
    together are as long as the input. *)
Theorem duplicates_partition_count (data : list row) (key_columns : list string) :
  len (fst (detect_duplicates data key_columns))
  + len (snd (detect_duplicates data key_columns))
  = len data.
Proof.
  unfold detect_duplicates.
  destruct (detect_loop key_columns data [] [] []) as [u d] eqn:H.
  apply detect_loop_length in H. cbn [fst snd]. lens.
Qed.

(** Rows whose keys are new and pairwise distinct all go to the unique
    output. *)
Lemma detect_loop_distinct (key_columns : list string) (data : list row) :
  forall (seen : dict Z) (u d : list row),
    seen_ok key_columns seen u ->
    (forall r, In r data ->
       existsb (same_key key_columns (composite_key key_columns r)) u = false) ->
    NoDup (map (composite_key key_columns) data) ->
    detect_loop key_columns data seen u d = (u ++ data, d).
Proof.
  induction data as [| r rest IH]; intros seen u d Hok Hnew Hnd.
  - cbn [detect_loop]. now rewrite app_nil_r.
  - cbn [detect_loop].
    assert (Hr : dict_get seen (composite_key key_columns r) = None).
    { rewrite Hok, (Hnew r (or_introl eq_refl)). reflexivity. }
    rewrite Hr. cbn [map] in Hnd. inversion Hnd as [| k ks Hk Hks]; subst.
    rewrite IH.
    + now rewrite <- app_assoc.
    + now apply seen_ok_extend.
    + intros r' Hr'. rewrite existsb_app, (Hnew r' (or_intror Hr')).
      cbn [existsb orb]. rewrite orb_false_r. unfold same_key.
      apply String.eqb_neq. intros E. apply Hk. rewrite E. now apply in_map.
    + exact Hks.
Qed.

Lemma distinct_keys_of_groups (key_columns : list string) (l : list row) :
  (forall k, (List.length (group key_columns k l) <= 1)%nat) ->
  NoDup (map (composite_key key_columns) l).
Proof.
  induction l as [| r l IH]; intros H; cbn [map]; constructor.
  - intros Hin. apply in_map_iff in Hin. destruct Hin as [r' [Hk Hr']].
    specialize (H (composite_key key_columns r)).
    unfold group in H. cbn [filter] in H. unfold same_key at 1 in H.
    rewrite String.eqb_refl in H. cbn [List.length] in H.
    assert (Hf : In r' (filter (same_key key_columns (composite_key key_columns r)) l)).
    { apply filter_In. split; [exact Hr' |]. unfold same_key. rewrite Hk.
      apply String.eqb_refl. }
    destruct (filter _ l); [contradiction | cbn [List.length] in H; lia].
  - apply IH. intros k. specialize (H k). unfold group in *. cbn [filter] in H.
    destruct (same_key key_columns k r); cbn [List.length] in H; lia.
Qed.

Lemma unique_keys_distinct (data : list row) (key_columns : list string) :
  NoDup (map (composite_key key_columns) (fst (detect_duplicates data key_columns))).
Proof.
  destruct (detect_loop_spec key_columns data [] [] []) as [u [o [Heq [_ [_ Hg]]]]].
  - intros k. reflexivity.
  - unfold detect_duplicates. rewrite Heq. cbn [fst app].
    apply distinct_keys_of_groups. intros k.
    rewrite (proj1 (proj2 (Hg k) eq_refl)).
    rewrite length_firstn. lia.
Qed.

(** X11.  No two rows of the unique output share a composite key. *)
Theorem unique_output_distinct (data : list row) (key_columns : list string) :
  NoDup (map (composite_key key_columns) (fst (detect_duplicates data key_columns))).
Proof. apply unique_keys_distinct. Qed.

(** X12.  An input whose composite keys are pairwise distinct comes back
    whole, in order, with no duplicate. *)
Theorem distinct_input_unchanged (data : list row) (key_columns : list string) :
  NoDup (map (composite_key key_columns) data) ->
  detect_duplicates data key_columns = (data, []).
Proof.
  intros H. unfold detect_duplicates.
  rewrite (detect_loop_distinct key_columns data [] [] []); try reflexivity; try assumption.
  intros k. reflexivity.
Qed.

Lemma distinct_input_unchanged_witness :
  detect_duplicates [player 2 "Kyler Murray"; player 3 "Clayton Tune"]
                    ["playerName"; "position"; "teamName"]
  = ([player 2 "Kyler Murray"; player 3 "Clayton Tune"], []).
Proof.
  apply (distinct_input_unchanged [player 2 "Kyler Murray"; player 3 "Clayton Tune"]
           ["playerName"; "position"; "teamName"]).
  vm_compute. repeat constructor; cbn; intuition discriminate.
Defined.

(** X13.  Deduplication is idempotent: run on its own unique output it
    returns that output and finds no duplicate. *)
Theorem detect_duplicates_idempotent (data : list row) (key_columns : list string) :
  detect_duplicates (fst (detect_duplicates data key_columns)) key_columns
  = (fst (detect_duplicates data key_columns), []).
Proof.
  unfold detect_duplicates at 1.
  rewrite (detect_loop_distinct key_columns _ [] [] []); try reflexivity.
  - intros k. reflexivity.
  - apply unique_keys_distinct.
Qed.

(* ================================================================== *)
(** * Further properties of [load_csv] *)
(* ================================================================== *)

(** ** Keys *)

Lemma keys_dict_set {V} (d : dict V) (k : string) (v : V) :
  keys (dict_set d k v) = add_key (keys d) k.
Proof.
  unfold add_key, keys, mem_string.
  induction d as [| [k' v'] d IH]; [reflexivity |].
  cbn [dict_set map fst existsb]. rewrite (String.eqb_sym k k').
  destruct (String.eqb k' k); [reflexivity |].
  cbn [map fst orb]. rewrite IH. destruct (existsb _ _); reflexivity.
Qed.

Lemma keys_dict_map {V W} (f : V -> W) (d : dict V) : keys (dict_map f d) = keys d.
Proof. unfold keys, dict_map. rewrite map_map. reflexivity. Qed.

Lemma add_key_In (ks : list string) (k x : string) :
  In x (add_key ks k) <-> In x ks \/ x = k.
Proof.
  unfold add_key. destruct (mem_string k ks) eqn:E.
  - apply mem_string_In in E. split; [auto |]. intros [H | ->]; assumption.
  - rewrite in_app_iff. cbn [In]. intuition congruence.
Qed.

Lemma fold_add_key_In (l ks : list string) (x : string) :
  In x (fold_left add_key l ks) <-> In x ks \/ In x l.
Proof.
  revert ks. induction l as [| k l IH]; intros ks; cbn [fold_left In].
  - tauto.
  - rewrite IH, add_key_In. intuition congruence.
Qed.

Lemma zip_record_keys (fields values : list string) :
  forall d, keys (zip_record fields values d) = fold_left add_key fields (keys d).
Proof.
  revert values. induction fields as [| f fs IH]; intros values d.
  - destruct values; reflexivity.
  - destruct values as [| v vs]; cbn [zip_record fold_left]; rewrite IH, keys_dict_set;
      reflexivity.
Qed.

Lemma DictReader_keys (records : list (list string)) (fields : list string) (cells : dict raw) :
  fieldnames records = Some fields -> In cells (DictReader records) ->
  keys cells = reader_keys fields.
Proof.
  destruct records as [| h rest]; [discriminate |]. cbn [fieldnames].
  intros H. injection H as ->. cbn [DictReader]. intros Hin.
  apply in_map_iff in Hin. destruct Hin as [r [<- _]]. apply zip_record_keys.
Qed.

(** ** The writers *)

Lemma conforms_wrong {V} (fields : list string) (r : dict V) :
  is_nil (filter (fun k => negb (mem_string k fields)) (keys r)) = conforms fields r.
Proof.
  unfold conforms. induction (keys r) as [| k ks IH]; [reflexivity |].
  cbn [filter forallb]. destruct (mem_string k fields); [exact IH | reflexivity].
Qed.

Lemma writerows_done {V} (fields : list string) (rows : list (dict V)) :
  forall done done',
    writerows fields rows done = (done', None) ->
    done' = done ++ rows /\ forallb (conforms fields) rows = true.
Proof.
  induction rows as [| r rest IH]; intros done done' H; cbn [writerows] in H.
  - injection H as <-. now rewrite app_nil_r.
  - rewrite conforms_wrong in H. cbn [forallb].
    destruct (conforms fields r); [| discriminate].
    apply IH in H. destruct H as [-> Hc]. now rewrite <- app_assoc.
Qed.

Lemma writerows_conforming {V} (fields : list string) (rows : list (dict V)) :
  forall done,
    forallb (conforms fields) rows = true ->
    writerows fields rows done = (done ++ rows, None).
Proof.
  induction rows as [| r rest IH]; intros done H; cbn [writerows].
  - now rewrite app_nil_r.
  - cbn [forallb] in H. apply andb_true_iff in H. destruct H as [Hr Hrest].
    rewrite conforms_wrong, Hr, IH by assumption. now rewrite <- app_assoc.
Qed.

(** The writer stops at the first row with a foreign key: the rows
    before it are written, the rows after it are not. *)
Lemma writerows_stops {V} (fields : list string) (rows : list (dict V)) :
  forall done,
    forallb (conforms fields) rows = false ->
    exists before r after wrong,
      rows = before ++ r :: after
      /\ forallb (conforms fields) before = true
      /\ conforms fields r = false
      /\ writerows fields rows done
         = (done ++ before, Some (ValueError (FieldsNotInFieldnames wrong))).
Proof.
  induction rows as [| r rest IH]; intros done H; [discriminate |].
  cbn [forallb] in H. cbn [writerows]. rewrite conforms_wrong.
  destruct (conforms fields r) eqn:Hr.
  - cbn [andb] in H. destruct (IH (done ++ [r]) H) as [b [r' [a [w [-> [Hb [Hr' Hw]]]]]]].
    exists (r :: b), r', a, w. cbn [forallb]. rewrite Hr, Hb, Hw, <- app_assoc.
    repeat split. exact Hr'.
  - exists [], r, rest, (filter (fun k => negb (mem_string k fields)) (keys r)).
    rewrite app_nil_r. repeat split. exact Hr.
Qed.

(** ** The row loop *)

Lemma parse_cells_invalid (specs : dict ColumnSpec) (strict : bool) (row_num : Z)
    (cells : dict raw) :
  forall rs coerced nulls rs' coerced' nulls' raised,
    parse_cells specs strict row_num cells rs coerced nulls = (rs', coerced', nulls', raised) ->
    row_valid rs = false -> row_valid rs' = false.
Proof.
  induction cells as [| [col value] rest IH]; intros rs c n rs' c' n' raised H Hv;
    cbn [parse_cells] in H.
  - injection H as <- _ _ _. exact Hv.
  - destruct (dict_get specs (strip col)) as [spec |].
    + destruct (parse_value value spec) as [[v w] | [m | |]].
      * apply IH in H; [exact H | exact Hv].
      * destruct strict; [injection H as <- _ _ _; reflexivity |].
        apply IH in H; [exact H | reflexivity].
      * injection H as <- _ _ _. exact Hv.
      * injection H as <- _ _ _. exact Hv.
    + apply IH in H; [exact H | exact Hv].
Qed.

(** A row that stays valid has had every cell assigned: its keys are
    those of the cells, trimmed, after the keys it started with. *)
Lemma parse_cells_valid_keys (specs : dict ColumnSpec) (strict : bool) (row_num : Z)
    (cells : dict raw) :
  forall rs coerced nulls rs' coerced' nulls' raised,
    parse_cells specs strict row_num cells rs coerced nulls = (rs', coerced', nulls', raised) ->
    raised = None -> row_valid rs' = true ->
    keys (parsed_row rs') = fold_left add_key (map strip (keys cells)) (keys (parsed_row rs)).
Proof.
  induction cells as [| [col value] rest IH]; intros rs c n rs' c' n' raised H Hr Hv;
    cbn [parse_cells] in H.
  - injection H as <- _ _ _. reflexivity.
  - cbn [keys map fst fold_left]. fold (keys rest).
    destruct (dict_get specs (strip col)) as [spec |].
    + destruct (parse_value value spec) as [[v w] | [m | |]].
      * rewrite (IH _ _ _ _ _ _ _ H Hr Hv). cbn [parsed_row]. now rewrite keys_dict_set.
      * destruct strict; [injection H as _ _ _ <-; discriminate Hr |].
        apply parse_cells_invalid in H; [congruence | reflexivity].
      * injection H as _ _ _ <-. discriminate Hr.
      * injection H as _ _ _ <-. discriminate Hr.
    + rewrite (IH _ _ _ _ _ _ _ H Hr Hv). cbn [parsed_row]. now rewrite keys_dict_set.
Qed.

(** Whatever happens to a row, its keys are among those it started with
    and the trimmed keys of the cells. *)
Lemma parse_cells_keys_incl (specs : dict ColumnSpec) (strict : bool) (row_num : Z)
    (cells : dict raw) :
  forall rs coerced nulls rs' coerced' nulls' raised k,
    parse_cells specs strict row_num cells rs coerced nulls = (rs', coerced', nulls', raised) ->
    In k (keys (parsed_row rs')) ->
    In k (keys (parsed_row rs)) \/ In k (map strip (keys cells)).
Proof.
  induction cells as [| [col value] rest IH]; intros rs c n rs' c' n' raised k H Hk;
    cbn [parse_cells] in H.
  - injection H as <- _ _ _. now left.
  - cbn [keys map fst In]. fold (keys rest).
    destruct (dict_get specs (strip col)) as [spec |].
    + destruct (parse_value value spec) as [[v w] | [m | |]].
      * destruct (IH _ _ _ _ _ _ _ _ H Hk) as [H1 | H1]; [| tauto].
        cbn [parsed_row] in H1. rewrite keys_dict_set, add_key_In in H1.
        destruct H1 as [H1 | ->]; tauto.
      * destruct strict.
        -- injection H as <- _ _ _. cbn [parsed_row] in Hk. tauto.
        -- destruct (IH _ _ _ _ _ _ _ _ H Hk) as [H1 | H1]; tauto.
      * injection H as <- _ _ _. tauto.
      * injection H as <- _ _ _. tauto.
    + destruct (IH _ _ _ _ _ _ _ _ H Hk) as [H1 | H1]; [| tauto].
      cbn [parsed_row] in H1. rewrite keys_dict_set, add_key_In in H1.
      destruct H1 as [H1 | ->]; tauto.
Qed.

(** In strict mode no row is marked invalid and goes on. *)
Lemma parse_cells_strict (specs : dict ColumnSpec) (row_num : Z) (cells : dict raw) :
  forall rs coerced nulls rs' coerced' nulls',
    parse_cells specs true row_num cells rs coerced nulls = (rs', coerced', nulls', None) ->
    row_valid rs' = row_valid rs.
Proof.
  induction cells as [| [col value] rest IH]; intros rs c n rs' c' n' H;
    cbn [parse_cells] in H.
  - injection H as <- _ _. reflexivity.
  - destruct (dict_get specs (strip col)) as [spec |].
    + destruct (parse_value value spec) as [[v w] | [m | |]]; try discriminate H.
      apply IH in H. exact H.
    + apply IH in H. exact H.
Qed.

(** The counts after the loop, however it was left: the row an exception
    left it at is counted and is in neither list. *)
Lemma parse_rows_counts (specs : dict ColumnSpec) (strict : bool) (rows : list (dict raw)) :
  forall row_num st st' raised,
    parse_rows specs strict row_num rows st = (st', raised) ->
    st_total_rows st' + len (st_parsed_data st) + len (st_quarantined_rows st)
    = st_total_rows st + len (st_parsed_data st') + len (st_quarantined_rows st')
      + match raised with Some _ => 1 | None => 0 end
    /\ st_total_rows st' <= st_total_rows st + len rows
    /\ (raised = None -> st_total_rows st' = st_total_rows st + len rows).
Proof.
  induction rows as [| cells rest IH]; intros row_num st st' raised H; cbn [parse_rows] in H.
  - injection H as <- <-. repeat split; lens.
  - destruct (parse_cells _ _ _ _ _ _ _) as [[[rs c] n] [e |]].
    + injection H as <- <-. cbn [st_total_rows st_parsed_data st_quarantined_rows].
      repeat split; try discriminate; lens.
    + apply IH in H. destruct H as [H1 [H2 H3]].
      destruct (row_valid rs); cbn [st_total_rows st_parsed_data st_quarantined_rows] in *;
        (split; [| split]); [lens | lens | intros E; specialize (H3 E); lens
                            | lens | lens | intros E; specialize (H3 E); lens].
Qed.

Lemma parse_rows_strict (specs : dict ColumnSpec) (rows : list (dict raw)) :
  forall row_num st st' raised,
    parse_rows specs true row_num rows st = (st', raised) ->
    st_quarantined_rows st' = st_quarantined_rows st.
Proof.
  induction rows as [| cells rest IH]; intros row_num st st' raised H; cbn [parse_rows] in H.
  - injection H as <- _. reflexivity.
  - destruct (parse_cells _ _ _ _ _ _ _) as [[[rs c] n] [e |]] eqn:Hc.
    + injection H as <- _. reflexivity.
    + apply parse_cells_strict in Hc. cbn [row_valid] in Hc. rewrite Hc in H.
      apply IH in H. exact H.
Qed.

(** The rows the loop accepts all have the keys of a row every cell of
    which was kept. *)
Lemma parse_rows_parsed_keys (specs : dict ColumnSpec) (strict : bool) (ks : list string)
    (rows : list (dict raw)) :
  (forall cells, In cells rows -> keys cells = ks) ->
  forall row_num st st' raised,
    parse_rows specs strict row_num rows st = (st', raised) ->
    (forall r, In r (st_parsed_data st) ->
       keys r = fold_left add_key (map strip ks) ["_row_number"]) ->
    forall r, In r (st_parsed_data st') ->
      keys r = fold_left add_key (map strip ks) ["_row_number"].
Proof.
  induction rows as [| cells rest IH]; intros Hks row_num st st' raised H Hst;
    cbn [parse_rows] in H.
  - injection H as <- _. exact Hst.
  - destruct (parse_cells _ _ _ _ _ _ _) as [[[rs c] n] [e |]] eqn:Hc.
    + injection H as <- _. exact Hst.
    + apply (IH (fun x Hx => Hks x (or_intror Hx)) _ _ _ _ H).
      destruct (row_valid rs) eqn:Hv; cbn [st_parsed_data]; [| exact Hst].
      intros r Hr. apply in_app_iff in Hr. destruct Hr as [Hr | [<- | []]]; [now apply Hst |].
      rewrite (parse_cells_valid_keys _ _ _ _ _ _ _ _ _ _ _ Hc eq_refl Hv).
      cbn [parsed_row keys map fst]. now rewrite (Hks cells (or_introl eq_refl)).
Qed.

(** The rows the loop quarantines have no key but those of the cells,
    ['_row_number'] and the two the quarantine adds. *)
Lemma parse_rows_quarantined_keys (specs : dict ColumnSpec) (strict : bool) (ks : list string)
    (rows : list (dict raw)) :
  (forall cells, In cells rows -> keys cells = ks) ->
  forall row_num st st' raised,
    parse_rows specs strict row_num rows st = (st', raised) ->
    (forall q k, In q (st_quarantined_rows st) -> In k (keys q) ->
       In k (["_row_number"; "_quarantine_reason"; "_exceptions"] ++ map strip ks)) ->
    forall q k, In q (st_quarantined_rows st') -> In k (keys q) ->
      In k (["_row_number"; "_quarantine_reason"; "_exceptions"] ++ map strip ks).
Proof.
  induction rows as [| cells rest IH]; intros Hks row_num st st' raised H Hst;
    cbn [parse_rows] in H.
  - injection H as <- _. exact Hst.
  - destruct (parse_cells _ _ _ _ _ _ _) as [[[rs c] n] [e |]] eqn:Hc.
    + injection H as <- _. exact Hst.
    + apply (IH (fun x Hx => Hks x (or_intror Hx)) _ _ _ _ H).
      destruct (row_valid rs) eqn:Hv; cbn [st_quarantined_rows]; [exact Hst |].
      intros q k Hq Hk. apply in_app_iff in Hq. destruct Hq as [Hq | [<- | []]];
        [now apply (Hst q) |].
      unfold quarantine_record in Hk.
      rewrite !keys_dict_set, !add_key_In, keys_dict_map in Hk.
      destruct Hk as [[Hk | ->] | ->]; [| cbn; tauto | cbn; tauto].
      destruct (parse_cells_keys_incl _ _ _ _ _ _ _ _ _ _ _ _ Hc Hk) as [H1 | H1].
      * cbn in H1. destruct H1 as [<- | []]. cbn; tauto.
      * rewrite (Hks cells (or_introl eq_refl)) in H1. apply in_app_iff. now right.
Qed.

(** ** The load *)

(** The state the [try] block leaves is that of the row loop, run on the
    rows of the file or, where the header raised, on none. *)
Lemma read_file_state (specs : dict ColumnSpec) (strict : bool)
    (records : list (list string)) (st : loop_state) (errs : list message)
    (warns : list warning) (raised : option error) :
  read_file specs strict records = (st, errs, warns, raised) ->
  exists rows raised',
    parse_rows specs strict 2 rows initial_state = (st, raised')
    /\ (rows = DictReader records \/ rows = [])
    /\ (raised = None -> raised' = None /\ rows = DictReader records)
    /\ (raised' <> None -> raised <> None).
Proof.
  unfold read_file.
  destruct (validate_header _ _ _) as [[errs0 warns0] [e |]].
  - intros H. injection H as <- _ _ <-. exists [], None.
    repeat split; try discriminate; auto.
  - destruct (parse_rows _ _ _ _ _) as [st0 raised0] eqn:Hp. intros H.
    injection H as <- _ _ <-. exists (DictReader records), raised0.
    repeat split; auto.
Qed.

Lemma subsequence_In {A} (l l' : list A) (x : A) : subsequence l l' -> In x l -> In x l'.
Proof.
  induction 1 as [| y l l' _ IH | y l l' _ IH]; cbn [In]; [tauto | tauto |].
  intros [-> | H]; [now left | right; now apply IH].
Qed.

(** What deduplication leaves of the parsed rows is a part of them; what
    it adds to the quarantine are records of duplicates. *)
Lemma quarantine_duplicates_parts (filename : string) (parsed parsed' : list row)
    (quarantine quarantine' : list qrow) :
  quarantine_duplicates filename parsed quarantine = (parsed', quarantine') ->
  (forall r, In r parsed' -> In r parsed)
  /\ exists unique_rows others,
       quarantine'
       = quarantine
         ++ map duplicate_record (map (duplicate_of (key_cols filename) unique_rows) others).
Proof.
  unfold quarantine_duplicates.
  destruct (negb (is_nil parsed) && mem_string filename _);
    [| intros H; injection H as <- <-; split; [auto | exists [], []; now rewrite app_nil_r]].
  destruct (negb (is_nil (key_cols filename)));
    [| intros H; injection H as <- <-; split; [auto | exists [], []; now rewrite app_nil_r]].
  destruct (detect_loop_spec (key_cols filename) parsed [] [] [])
    as [u [o [Heq [Hu [Ho Hg]]]]]; [intros k; reflexivity |].
  unfold detect_duplicates. rewrite Heq. cbn [app]. intros H. injection H as <- <-.
  split; [intros r; now apply subsequence_In | now exists u, o].
Qed.

Lemma dict_get_map {V W} (f : V -> W) (d : dict V) (k : string) :
  dict_get (dict_map f d) k = option_map f (dict_get d k).
Proof.
  induction d as [| [k' v] d IH]; [reflexivity |].
  cbn [dict_map map dict_get fst snd]. destruct (String.eqb k' k); [reflexivity | exact IH].
Qed.

Lemma duplicate_record_is_duplicate (dup : row) : is_duplicate (duplicate_record dup) = true.
Proof.
  unfold is_duplicate, duplicate_record. rewrite dict_get_map, dict_get_set. reflexivity.
Qed.

Lemma keys_clean_row (r : row) :
  keys (clean_row r) = filter (fun k => negb (starts_with_underscore k)) (keys r).
Proof.
  unfold keys, clean_row. induction r as [| [k v] r IH]; [reflexivity |].
  cbn [filter map fst]. destruct (negb (starts_with_underscore k)); cbn [map fst];
    now rewrite IH.
Qed.

Lemma conforms_self {V} (r : dict V) : conforms (keys r) r = true.
Proof.
  unfold conforms. apply forallb_forall. intros k Hk. now apply mem_string_In.
Qed.

(** Rows with the same keys are written without an exception. *)
Lemma write_rows_same_keys {V} (rows : list (dict V)) (ks : list string) :
  (forall r, In r rows -> keys r = ks) ->
  write_rows rows
  = (match rows with
     | [] => None
     | r :: _ => Some {| header := keys r; body := rows |}
     end, None).
Proof.
  intros H. destruct rows as [| r rest]; [reflexivity |]. unfold write_rows.
  rewrite writerows_conforming; [reflexivity |].
  apply forallb_forall. intros x Hx.
  rewrite (H r (or_introl eq_refl)), <- (H x Hx). apply conforms_self.
Qed.



(** X15.  In the metadata of every load that returns, at most one row is
    counted in [row_count] and in neither [parsed_rows] nor
    [quarantined_rows]: the row an exception left the loop at; no row is
    counted twice, no more rows are counted than the file has, and a load
    with such a row is not successful. *)
Theorem row_count_bounds (column_specs : registry) (now : string) (f : source_file)
    (strict : bool) (r : LoadResult) :
  returned (load_csv column_specs now f strict) = Ok r ->
  parsed_rows (metadata r) + quarantined_rows (metadata r) <= row_count (metadata r)
  /\ row_count (metadata r) <= parsed_rows (metadata r) + quarantined_rows (metadata r) + 1
  /\ row_count (metadata r) <= len (DictReader (file_records f))
  /\ (row_count (metadata r) <> parsed_rows (metadata r) + quarantined_rows (metadata r) ->
      success r = false).
Proof.
  intros H.
  destruct (file_exists f) eqn:Hex.
  - destruct (load_csv_returns _ _ _ _ _ Hex H)
      as [st [errs [warns [raised [parsed [quarantine
         [Hread [Hq [Hd [Hqr [He [Hsucc [Hrc [Hpr [Hqc _]]]]]]]]]]]]]]].
    destruct (read_file_state _ _ _ _ _ _ _ Hread) as [rows [raised' [Hp [Hrows [_ Hr']]]]].
    apply parse_rows_counts in Hp. destruct Hp as [H1 [H2 _]].
    apply quarantine_duplicates_length in Hq.
    cbn [initial_state st_total_rows st_parsed_data st_quarantined_rows] in H1, H2.
    rewrite Hrc, Hpr, Hqc.
    assert (Hlen : len rows <= len (DictReader (file_records f))).
    { destruct Hrows as [-> | ->]; lens. }
    destruct raised' as [e' |].
    + repeat split; try lens.
      intros _. rewrite Hsucc, He.
      destruct raised as [e |]; [| exfalso; now apply Hr'].
      destruct errs; reflexivity.
    + repeat split; lens.
  - unfold load_csv in H. rewrite Hex in H. cbn [negb returned] in H.
    injection H as <-. cbn. repeat split; try lia; try lens.
Qed.

Lemma row_count_bounds_witness :
  exists r,
    result_of (load_csv _parse_column_specs "2025-08-27" projections_overflow false) = Some r
    /\ row_count (metadata r) = parsed_rows (metadata r) + quarantined_rows (metadata r) + 1
    /\ success r = false.
Proof.
  destruct (returned (load_csv _parse_column_specs "2025-08-27" projections_overflow false))
    as [r | e] eqn:H; [| vm_compute in H; discriminate H].
  exists r.
  assert (Hc : row_count (metadata r)
               = parsed_rows (metadata r) + quarantined_rows (metadata r) + 1)
    by (vm_compute in H; injection H as <-; reflexivity).
  split; [unfold result_of; now rewrite H |].
  split; [exact Hc |].
  apply (proj2 (proj2 (proj2 (row_count_bounds _ _ _ _ r H)))). lia.
Defined.

(** The rows a load parses all have the keys [parsed_keys] of the
    header. *)
Lemma parsed_rows_keys (specs : dict ColumnSpec) (strict : bool)
    (records : list (list string)) (fields : list string) (st : loop_state)
    (errs : list message) (warns : list warning) (raised : option error)
    (filename : string) (parsed : list row) (quarantine : list qrow) :
  fieldnames records = Some fields ->
  read_file specs strict records = (st, errs, warns, raised) ->
  quarantine_duplicates filename (st_parsed_data st) (st_quarantined_rows st)
  = (parsed, quarantine) ->
  forall r, In r parsed -> keys r = parsed_keys fields.
Proof.
  intros Hf Hread Hq r Hr.
  destruct (read_file_state _ _ _ _ _ _ _ Hread) as [rows [raised' [Hp [Hrows _]]]].
  apply (proj1 (quarantine_duplicates_parts _ _ _ _ _ Hq)) in Hr.
  apply (parse_rows_parsed_keys specs strict (reader_keys fields) rows) with (r := r) in Hp.
  - exact Hp.
  - intros cells Hc. destruct Hrows as [-> | ->]; [| contradiction].
    now apply (DictReader_keys records).
  - intros x [].
  - exact Hr.
Qed.

Lemma clean_rows_written (parsed : list row) (ks : list string) :
  (forall r, In r parsed -> keys r = ks) ->
  _write_clean_data parsed
  = (match map clean_row parsed with
     | [] => None
     | r :: _ => Some {| header := keys r; body := map clean_row parsed |}
     end, None).
Proof.
  intros H. unfold _write_clean_data.
  apply (write_rows_same_keys _ (filter (fun k => negb (starts_with_underscore k)) ks)).
  intros r Hr. apply in_map_iff in Hr. destruct Hr as [x [<- Hx]].
  now rewrite keys_clean_row, (H x Hx).
Qed.

(** X16.  Writing the clean file never raises.  When it is written the
    load returns a successful result, and the file holds the returned
    rows, all of them and in order, each without the keys that start with
    an underscore. *)
Theorem clean_file_written (column_specs : registry) (now : string) (f : source_file)
    (strict : bool) (w : written pyval) :
  clean_sink (load_csv column_specs now f strict) = Some w ->
  exists r,
    returned (load_csv column_specs now f strict) = Ok r
    /\ success r = true
    /\ data r <> []
    /\ body w = map clean_row (data r)
    /\ forall row k, In row (body w) -> In k (keys row) -> starts_with_underscore k = false.
Proof.
  unfold load_csv. destruct (file_exists f); cbn [negb clean_sink]; [| discriminate].
  destruct (read_file _ _ _) as [[[st errs] warns] raised] eqn:Hread.
  destruct (quarantine_duplicates _ _ _) as [parsed quarantine] eqn:Hq.
  destruct (fieldnames (file_records f)) as [fields |] eqn:Hf; [| discriminate].
  destruct (_write_quarantine quarantine) as [qfile [e |]]; [discriminate |].
  destruct (negb (is_nil parsed) && is_nil _) eqn:Hw; [| discriminate].
  rewrite (clean_rows_written parsed (parsed_keys fields))
    by (eapply parsed_rows_keys; eassumption).
  apply andb_true_iff in Hw. destruct Hw as [Hp He].
  destruct parsed as [| p0 rest]; [discriminate Hp |].
  cbn [map clean_sink returned]. intros H. injection H as <-. cbn [body].
  eexists. split; [reflexivity |]. cbn [success data].
  split; [exact He |]. split; [discriminate |]. split; [reflexivity |].
  intros row k Hrow Hk.
  change (clean_row p0 :: map clean_row rest) with (map clean_row (p0 :: rest)) in Hrow.
  apply in_map_iff in Hrow. destruct Hrow as [x [<- _]].
  rewrite keys_clean_row in Hk. apply filter_In in Hk.
  apply negb_true_iff. exact (proj2 Hk).
Qed.

Lemma clean_file_written_witness :
  exists w r,
    clean_sink (load_csv _parse_column_specs "2025-08-27" adp_sample false) = Some w
    /\ returned (load_csv _parse_column_specs "2025-08-27" adp_sample false) = Ok r
    /\ len (body w) = 2
    /\ body w = map clean_row (data r).
Proof.
  destruct (clean_sink (load_csv _parse_column_specs "2025-08-27" adp_sample false))
    as [w |] eqn:H; [| vm_compute in H; discriminate H].
  destruct (clean_file_written _ _ _ _ w H) as [r [Hr [_ [_ [Hb _]]]]].
  exists w, r. split; [reflexivity |]. split; [exact Hr |]. split; [| exact Hb].
  vm_compute in H. injection H as <-. reflexivity.
Defined.

(** X17.  A load that returns has written the quarantine file exactly
    when it quarantined a row; the file then holds the quarantined rows of
    the result, all of them and in order, under the keys of the first, and
    a warning counts them. *)
Theorem quarantine_file_written (column_specs : registry) (now : string) (f : source_file)
    (strict : bool) (r : LoadResult) :
  returned (load_csv column_specs now f strict) = Ok r ->
  quarantine_sink (load_csv column_specs now f strict)
  = match quarantined r with
    | [] => None
    | first :: _ => Some {| header := keys first; body := quarantined r |}
    end
  /\ (quarantined r <> [] -> In (Quarantined (len (quarantined r))) (warnings r)).
Proof.
  unfold load_csv. destruct (file_exists f); cbn [negb returned quarantine_sink].
  - destruct (read_file _ _ _) as [[[st errs] warns] raised].
    destruct (quarantine_duplicates _ _ _) as [parsed quarantine].
    destruct (fieldnames (file_records f)) as [fields |]; [| discriminate].
    unfold _write_quarantine at 1 2. unfold write_rows.
    destruct quarantine as [| q0 rest].
    + destruct (negb (is_nil parsed) && is_nil _).
      * destruct (_write_clean_data parsed) as [cfile [e |]]; [discriminate |].
        cbn [returned quarantine_sink]. intros H. injection H as <-.
        cbn [quarantined]. split; [reflexivity | congruence].
      * cbn [returned quarantine_sink]. intros H. injection H as <-.
        cbn [quarantined]. split; [reflexivity | congruence].
    + destruct (writerows (keys q0) (q0 :: rest) []) as [done [e |]] eqn:Hw;
        [discriminate |].
      apply writerows_done in Hw. destruct Hw as [-> _]. cbn [app is_nil].
      destruct (negb (is_nil parsed) && is_nil _).
      * destruct (_write_clean_data parsed) as [cfile [e |]]; [discriminate |].
        cbn [returned quarantine_sink]. intros H. injection H as <-.
        cbn [quarantined warnings]. split; [reflexivity |].
        intros _. apply in_app_iff. right. now left.
      * cbn [returned quarantine_sink]. intros H. injection H as <-.
        cbn [quarantined warnings]. split; [reflexivity |].
        intros _. apply in_app_iff. right. now left.
  - intros H. injection H as <-. cbn [quarantined failed_result]. split; [reflexivity |].
    congruence.
Qed.

Lemma quarantine_file_written_witness :
  exists r w,
    returned (load_csv _parse_column_specs "2025-08-27" adp_sample false) = Ok r
    /\ quarantine_sink (load_csv _parse_column_specs "2025-08-27" adp_sample false) = Some w
    /\ body w = quarantined r
    /\ len (quarantined r) = 1.
Proof.
  destruct (returned (load_csv _parse_column_specs "2025-08-27" adp_sample false))
    as [r | e] eqn:H; [| vm_compute in H; discriminate H].
  destruct (quarantine_file_written _ _ _ _ r H) as [Hs _].
  assert (Hq : len (quarantined r) = 1) by (vm_compute in H; injection H as <-; reflexivity).
  destruct (quarantined r) as [| q0 rest] eqn:Hqr; [discriminate Hq |].
  exists r. eexists. rewrite Hqr. split; [reflexivity |]. split; [exact Hs |].
  split; [reflexivity | exact Hq].
Defined.

Lemma forallb_broken {A} (p : A -> bool) (l : list A) (x : A) :
  In x l -> p x = false -> forallb p l = false.
Proof.
  intros Hin Hp. destruct (forallb p l) eqn:E; [| reflexivity].
  rewrite forallb_forall in E. rewrite (E x Hin) in Hp. discriminate.
Qed.

Lemma conforms_missing {V} (fields : list string) (r : dict V) (k : string) :
  In k (keys r) -> ~ In k fields -> conforms fields r = false.
Proof.
  intros Hk Hn. unfold conforms. apply (forallb_broken _ _ k Hk).
  destruct (mem_string k fields) eqn:E; [| reflexivity].
  apply mem_string_In in E. contradiction.
Qed.

Lemma duplicate_record_keys (key_columns : list string) (unique_rows : list row) (r : row) :
  In "_duplicate_of_row"%string
     (keys (duplicate_record (duplicate_of key_columns unique_rows r))).
Proof.
  unfold duplicate_record, duplicate_of, annotate.
  rewrite keys_dict_map, !keys_dict_set, !add_key_In. auto.
Qed.

(** X18.  A lenient load of a deduplicated file that has both a row that
    failed validation and a duplicate among the rows that passed raises
    [ValueError] while it writes the quarantine file: the header of that
    file is taken from the first quarantined row, which has no
    ['_duplicate_of_row'].  No result is returned and no clean file is
    written. *)
Theorem mixed_quarantine_raises (column_specs : registry) (now : string) (f : source_file)
    (fields : list string) (st : loop_state) (errs : list message) (warns : list warning)
    (raised : option error) :
  file_exists f = true ->
  fieldnames (file_records f) = Some fields ->
  ~ In "_duplicate_of_row"%string (map strip fields) ->
  mem_string (file_name f) ["projections_2025.csv"; "adp0_2025.csv"] = true ->
  read_file (specs_for column_specs (file_name f)) false (file_records f)
  = (st, errs, warns, raised) ->
  st_quarantined_rows st <> [] ->
  snd (detect_duplicates (st_parsed_data st) (key_cols (file_name f))) <> [] ->
  exists wrong w,
    load_csv column_specs now f false
    = {| returned := Raise (ValueError (FieldsNotInFieldnames wrong));
         quarantine_sink := Some w;
         clean_sink := None |}
    /\ exists after, st_quarantined_rows st = body w ++ after.
Proof.
  intros Hex Hf Hcol Hname Hread Hq1 Hdup.
  unfold load_csv. rewrite Hex. cbn [negb].
  fold (specs_for column_specs (file_name f)). rewrite Hread, Hf.
  assert (Hkc : is_nil (key_cols (file_name f)) = false).
  { unfold key_cols. unfold mem_string in Hname. cbn [existsb] in Hname.
    destruct (String.eqb (file_name f) "projections_2025.csv"); [reflexivity |].
    destruct (String.eqb (file_name f) "adp0_2025.csv"); [reflexivity | discriminate]. }
  assert (Hp : is_nil (st_parsed_data st) = false).
  { destruct (st_parsed_data st); [now contradiction Hdup | reflexivity]. }
  unfold quarantine_duplicates. rewrite Hp, Hname, Hkc. cbn [negb andb].
  destruct (detect_loop_spec (key_cols (file_name f)) (st_parsed_data st) [] [] [])
    as [u [o [Heq [_ [_ _]]]]]; [intros k; reflexivity |].
  unfold detect_duplicates in *. rewrite Heq in *. cbn [app snd] in *.
  destruct o as [| o0 o]; [now contradiction Hdup |].
  destruct (st_quarantined_rows st) as [| q0 q] eqn:Hq; [now contradiction Hq1 |].
  assert (Hkeys : ~ In "_duplicate_of_row"%string (keys q0)).
  { intros Hin.
    destruct (read_file_state _ _ _ _ _ _ _ Hread) as [rows [raised' [Hpr [Hrows _]]]].
    assert (H := parse_rows_quarantined_keys _ _ (reader_keys fields) rows
                   (fun cells Hc =>
                      match Hrows with
                      | or_introl E =>
                          DictReader_keys _ _ _ Hf (eq_ind _ (fun l => In cells l) Hc _ E)
                      | or_intror E =>
                          False_ind _ (eq_ind _ (fun l => In cells l) Hc _ E)
                      end)
                   _ _ _ _ Hpr (fun q k (Hx : In q []) => False_ind _ Hx)
                   q0 "_duplicate_of_row"%string).
    rewrite Hq in H. specialize (H (or_introl eq_refl) Hin).
    apply in_app_iff in H. destruct H as [H | H].
    - cbn in H. intuition discriminate.
    - apply in_map_iff in H. destruct H as [x [Hx Hin']].
      apply Hcol. apply in_map_iff. exists x. split; [exact Hx |].
      unfold reader_keys in Hin'. apply fold_add_key_In in Hin'.
      destruct Hin' as [[] | Hin']. exact Hin'. }
  unfold _write_quarantine, write_rows. cbn [app map].
  destruct (writerows_stops (keys q0)
              (q0 :: q ++ duplicate_record (duplicate_of (key_cols (file_name f)) u o0)
                   :: map duplicate_record (map (duplicate_of (key_cols (file_name f)) u) o))
              [])
    as [before [r [after [wrong [Hrows [Hb [Hr Hw]]]]]]].
  { apply (forallb_broken _ _ (duplicate_record (duplicate_of (key_cols (file_name f)) u o0))).
    - right. apply in_app_iff. right. now left.
    - apply (conforms_missing _ _ "_duplicate_of_row"%string);
        [apply duplicate_record_keys | exact Hkeys]. }
  rewrite Hw. cbn [app].
  exists wrong. eexists. split; [reflexivity |]. cbn [body].
  revert Hrows Hb Hr. clear Hw.
  change (q0 :: q ++ ?d :: ?m) with ((q0 :: q) ++ d :: m).
  generalize (q0 :: q). intros l1. revert before.
  induction l1 as [| y l1 IH]; intros before Hrows Hb Hr.
  - destruct before as [| b0 before]; [exists []; reflexivity |].
    cbn [app] in Hrows. injection Hrows as <- _. cbn [forallb] in Hb.
    apply andb_true_iff in Hb. destruct Hb as [Hb _].
    rewrite (conforms_missing _ _ "_duplicate_of_row"%string) in Hb;
      [discriminate | apply duplicate_record_keys | exact Hkeys].
  - destruct before as [| b0 before].
    + exists (y :: l1). reflexivity.
    + cbn [app] in Hrows. injection Hrows as <- Hrows. cbn [forallb] in Hb.
      apply andb_true_iff in Hb. destruct Hb as [_ Hb].
      destruct (IH before Hrows Hb Hr) as [a' ->]. exists a'. reflexivity.
Qed.

Lemma mixed_quarantine_raises_witness :
  exists wrong w,
    load_csv _parse_column_specs "2025-08-27" adp_mixed false
    = {| returned := Raise (ValueError (FieldsNotInFieldnames wrong));
         quarantine_sink := Some w;
         clean_sink := None |}.
Proof.
  destruct (read_file (specs_for _parse_column_specs (file_name adp_mixed)) false
              (file_records adp_mixed)) as [[[st errs] warns] raised] eqn:Hread.
  assert (Hq : st_quarantined_rows st <> [])
    by (vm_compute in Hread; injection Hread as <- _ _ _; discriminate).
  assert (Hd : snd (detect_duplicates (st_parsed_data st) (key_cols (file_name adp_mixed)))
               <> [])
    by (vm_compute in Hread; injection Hread as <- _ _ _; vm_compute; discriminate).
  assert (Hcol : ~ In "_duplicate_of_row"%string (map strip (keys adp0_2025)))
    by (vm_compute; intuition discriminate).
  destruct (mixed_quarantine_raises _parse_column_specs "2025-08-27" adp_mixed
              (keys adp0_2025) st errs warns raised eq_refl eq_refl Hcol eq_refl Hread Hq Hd)
    as [wrong [w [H _]]].
  exists wrong, w. exact H.
Defined.

(** X19.  In strict mode the loop quarantines nothing: every quarantined
    row of a load that returns is a duplicate, and a file that is not
    deduplicated has none. *)
Theorem strict_quarantine_is_duplicates (column_specs : registry) (now : string)
    (f : source_file) (r : LoadResult) :
  returned (load_csv column_specs now f true) = Ok r ->
  forallb is_duplicate (quarantined r) = true
  /\ duplicate_count (metadata r) = quarantined_rows (metadata r)
  /\ (key_cols (file_name f) = [] -> quarantined r = []).
Proof.
  unfold load_csv. destruct (file_exists f); cbn [negb returned].
  - destruct (read_file _ _ _) as [[[st errs] warns] raised] eqn:Hread.
    destruct (quarantine_duplicates _ _ _) as [parsed quarantine] eqn:Hq.
    destruct (read_file_state _ _ _ _ _ _ _ Hread) as [rows [raised' [Hp _]]].
    apply parse_rows_strict in Hp. cbn [initial_state st_quarantined_rows] in Hp.
    rewrite Hp in Hq.
    assert (Hall : forallb is_duplicate quarantine = true
                   /\ (key_cols (file_name f) = [] -> quarantine = [])).
    { destruct (quarantine_duplicates_parts _ _ _ _ _ Hq) as [_ [u [o Hqq]]].
      cbn [app] in Hqq. split.
      - subst quarantine. apply forallb_forall. intros x Hx.
        apply in_map_iff in Hx. destruct Hx as [d [<- _]].
        apply duplicate_record_is_duplicate.
      - intros Hk. unfold quarantine_duplicates in Hq. rewrite Hk in Hq.
        cbn [is_nil negb] in Hq. destruct (_ && _); now injection Hq as _ <-. }
    destruct Hall as [Hall Hnone].
    assert (Hcount : len (filter is_duplicate quarantine) = len quarantine).
    { clear - Hall. induction quarantine as [| q l IH]; [reflexivity |].
      cbn [forallb] in Hall. apply andb_true_iff in Hall. destruct Hall as [Hq Hl].
      cbn [filter]. rewrite Hq. specialize (IH Hl). lens. }
    destruct (fieldnames (file_records f)) as [fields |]; [| discriminate].
    destruct (_write_quarantine quarantine) as [qfile [e |]]; [discriminate |].
    destruct (negb (is_nil parsed) && is_nil _).
    + destruct (_write_clean_data parsed) as [cfile [e |]]; [discriminate |].
      cbn [returned]. intros H. injection H as <-.
      cbn [quarantined metadata duplicate_count quarantined_rows]. auto.
    + cbn [returned]. intros H. injection H as <-.
      cbn [quarantined metadata duplicate_count quarantined_rows]. auto.
  - intros H. injection H as <-. cbn. auto.
Qed.

Lemma strict_quarantine_is_duplicates_witness :
  exists r,
    returned (load_csv _parse_column_specs "2025-08-27" adp_repeated true) = Ok r
    /\ quarantined_rows (metadata r) = 1
    /\ forallb is_duplicate (quarantined r) = true
    /\ duplicate_count (metadata r) = quarantined_rows (metadata r).
Proof.
  destruct (returned (load_csv _parse_column_specs "2025-08-27" adp_repeated true))
    as [r | e] eqn:H; [| vm_compute in H; discriminate H].
  destruct (strict_quarantine_is_duplicates _ _ _ r H) as [H1 [H2 _]].
  exists r. split; [reflexivity |]. split; [| split; assumption].
  vm_compute in H. injection H as <-. reflexivity.
Defined.

(** ** Files without specifications *)

Lemma parse_cells_no_specs (strict : bool) (row_num : Z) (cells : dict raw) :
  forall rs coerced nulls,
    exists rs',
      parse_cells [] strict row_num cells rs coerced nulls = (rs', coerced, nulls, None)
      /\ row_valid rs' = row_valid rs.
Proof.
  induction cells as [| [col value] rest IH]; intros rs c n; cbn [parse_cells dict_get].
  - exists rs. split; reflexivity.
  - match goal with
    | |- context [parse_cells [] strict row_num rest ?s c n] =>
        destruct (IH s c n) as [rs' [Heq Hv]]
    end.
    exists rs'. split; [exact Heq | exact Hv].
Qed.

Lemma parse_rows_no_specs (strict : bool) (rows : list (dict raw)) :
  forall row_num st,
    exists st',
      parse_rows [] strict row_num rows st = (st', None)
      /\ len (st_parsed_data st') = len (st_parsed_data st) + len rows
      /\ st_quarantined_rows st' = st_quarantined_rows st
      /\ st_coercion_count st' = st_coercion_count st
      /\ st_null_count st' = st_null_count st
      /\ st_total_rows st' = st_total_rows st + len rows
      /\ st_exceptions st' = st_exceptions st.
Proof.
  induction rows as [| cells rest IH]; intros row_num st; cbn [parse_rows].
  - exists st. repeat split; lens.
  - destruct (parse_cells_no_specs strict row_num cells
                {| parsed_row := [("_row_number", PInt row_num)];
                   row_exceptions := []; row_valid := true |}
                (st_coercion_count st) (st_null_count st)) as [rs [Heq Hv]].
    rewrite Heq. cbn [row_valid] in Hv. rewrite Hv.
    match goal with
    | |- context [parse_rows [] strict (row_num + 1) rest ?s] =>
        destruct (IH (row_num + 1) s) as [st' [H0 [H1 [H2 [H3 [H4 [H5 H6]]]]]]]
    end.
    exists st'. split; [exact H0 |].
    cbn [st_parsed_data st_quarantined_rows st_coercion_count st_null_count st_total_rows
         st_exceptions] in *.
    repeat split; try assumption; lens.
Qed.

(** X20.  A file without specifications that is not deduplicated loads
    successfully in either mode: every row is kept, nothing is
    quarantined, coerced or counted as null, and no error or warning is
    recorded. *)
Theorem unspecified_file_loads (column_specs : registry) (now : string) (f : source_file)
    (strict : bool) (fields : list string) :
  file_exists f = true ->
  fieldnames (file_records f) = Some fields ->
  specs_for column_specs (file_name f) = [] ->
  key_cols (file_name f) = [] ->
  exists r,
    returned (load_csv column_specs now f strict) = Ok r
    /\ success r = true
    /\ len (data r) = len (DictReader (file_records f))
    /\ row_count (metadata r) = len (DictReader (file_records f))
    /\ quarantined r = []
    /\ coercion_count (metadata r) = 0
    /\ null_count (metadata r) = 0
    /\ errors r = [] /\ warnings r = []
    /\ quarantine_sink (load_csv column_specs now f strict) = None.
Proof.
  intros Hex Hf Hspecs Hk.
  destruct (parse_rows_no_specs strict (DictReader (file_records f)) 2 initial_state)
    as [st [Hp [H1 [H2 [H3 [H4 [H5 H6]]]]]]].
  cbn [initial_state st_parsed_data st_quarantined_rows st_coercion_count st_null_count
       st_total_rows st_exceptions] in H1, H2, H3, H4, H5, H6.
  assert (Hread : read_file (specs_for column_specs (file_name f)) strict (file_records f)
                  = (st, [], [], None)).
  { rewrite Hspecs. unfold read_file. cbn [validate_header is_nil]. now rewrite Hp. }
  assert (Hq : quarantine_duplicates (file_name f) (st_parsed_data st)
                 (st_quarantined_rows st) = (st_parsed_data st, [])).
  { unfold quarantine_duplicates. rewrite Hk, H2. cbn [is_nil negb].
    destruct (_ && _); reflexivity. }
  unfold load_csv. rewrite Hex. cbn [negb].
  fold (specs_for column_specs (file_name f)). rewrite Hread, Hq, Hf.
  cbn [_write_quarantine write_rows is_nil andb].
  rewrite andb_true_r.
  rewrite (clean_rows_written (st_parsed_data st) (parsed_keys fields))
    by (eapply parsed_rows_keys; eassumption).
  destruct (negb (is_nil (st_parsed_data st)));
    cbn [returned quarantine_sink]; eexists; (split; [reflexivity |]);
    cbn [success data metadata row_count quarantined coercion_count null_count errors
         warnings is_nil];
    repeat split; try assumption; lens.
Qed.

Lemma unspecified_file_loads_witness :
  exists r,
    returned (load_csv _parse_column_specs "2025-08-27"
                {| file_path := "canonical_data/other/notes.csv"; file_name := "notes.csv";
                   file_exists := true; file_sha256 := "c1d2";
                   file_records := [["player"; "note"]; ["Kyler Murray"; ""]; ["x"]] |}
                true) = Ok r
    /\ success r = true /\ len (data r) = 2 /\ null_count (metadata r) = 0.
Proof.
  destruct (unspecified_file_loads _parse_column_specs "2025-08-27"
              {| file_path := "canonical_data/other/notes.csv"; file_name := "notes.csv";
                 file_exists := true; file_sha256 := "c1d2";
                 file_records := [["player"; "note"]; ["Kyler Murray"; ""]; ["x"]] |}
              true ["player"; "note"] eq_refl eq_refl eq_refl eq_refl)
    as [r [H [Hs [Hd [_ [_ [_ [Hn _]]]]]]]].
  exists r. split; [exact H |]. split; [exact Hs |]. split; [exact Hd | exact Hn].
Defined.

(* ================================================================== *)
(** * Further properties of the pipeline *)
(* ================================================================== *)

Lemma audit_counts (results : dict LoadResult) :
  len (filter (fun r => success (snd r)) results)
  + len (filter (fun r => negb (success (snd r))) results)
  = len results.
Proof.
  induction results as [| r l IH]; [reflexivity |].
  cbn [filter]. destruct (success (snd r)); cbn [negb]; lens.
Qed.

(** X21.  In the audit report every file is counted once, as a
    successful or as a failed load. *)
Theorem audit_files_partition (now : string) (results : dict LoadResult) :
  successful_loads (generate_audit_report now results)
  + failed_loads (generate_audit_report now results)
  = total_files (generate_audit_report now results).
Proof. cbn [generate_audit_report successful_loads failed_loads total_files].
  apply audit_counts. Qed.

Lemma run_integrity_check_result (m : pipeline_metadata) (o : check_outcome) :
  snd (run_integrity_check m o) = passes o
  /\ stats (fst (run_integrity_check m o)) = stats m
  /\ stages_completed (fst (run_integrity_check m o)) = stages_completed m
  /\ stages_failed (fst (run_integrity_check m o)) = stages_failed m
  /\ integrity_status (fst (run_integrity_check m o))
     = match o with
       | Exited returncode _ _ => if returncode =? 0 then "verified" else "violated"
       | _ => integrity_status m
       end
  /\ (passes o = false ->
      exists e, run_errors (fst (run_integrity_check m o)) = run_errors m ++ [e]).
Proof.
  destruct o as [code out err | | text]; cbn [run_integrity_check passes].
  - destruct (code =? 0); cbn; repeat split; try discriminate; eauto.
  - cbn. repeat split; eauto.
  - cbn. repeat split; eauto.
Qed.

Lemma check_quarantine_ratio_result (cfg : config) (m : pipeline_metadata)
    (report : audit_report) :
  exists m1 raised,
    check_quarantine_ratio cfg m report = (m1, raised)
    /\ (raised = None <-> fail_on_validation_error cfg && exceeded cfg report = false)
    /\ stats m1 = stats m
    /\ stages_completed m1 = stages_completed m
    /\ stages_failed m1 = stages_failed m
    /\ integrity_status m1 = integrity_status m.
Proof.
  unfold check_quarantine_ratio, exceeded.
  destruct (0 <? total_rows_parsed report); cbn [andb].
  - destruct (truediv _ _) as [ratio |].
    + destruct (gt _ _).
      * destruct (fail_on_validation_error cfg); cbn [andb];
          eexists; eexists; (split; [reflexivity |]); repeat split; try discriminate; auto.
      * rewrite andb_false_r. eexists; eexists; (split; [reflexivity |]); repeat split; auto.
    + rewrite andb_false_r. eexists; eexists; (split; [reflexivity |]); repeat split; auto.
  - rewrite andb_false_r. eexists; eexists; (split; [reflexivity |]); repeat split; auto.
Qed.

(** What a run leaves, by the gate that stopped it. *)
Lemma run_pipeline_cases (cfg : config) (w : world) :
  let gate := fail_on_integrity_violation cfg in
  let fatal := fail_on_validation_error cfg && exceeded cfg (report_of w) in
  let r := run_pipeline cfg w in
  let done := stages_completed (run_metadata r) in
  if gate && negb (passes (pre_check w)) then
    run_success r = false /\ done = [] /\ saved_audit r = None /\ saved_manifest r = None
    /\ stats (run_metadata r) = None
  else if fatal then
    run_success r = false /\ done = ["integrity_pre_check"] /\ saved_audit r = None
    /\ saved_manifest r = None /\ stats (run_metadata r) = None
  else if gate && negb (passes (post_check w)) then
    run_success r = false
    /\ done = ["integrity_pre_check"; "data_loading"; "data_validation";
               "data_transformation"]
    /\ saved_audit r = Some (report_of w) /\ saved_manifest r = None
    /\ stats (run_metadata r) <> None
  else
    run_success r = true
    /\ done = ["integrity_pre_check"; "data_loading"; "data_validation";
               "data_transformation"; "integrity_post_check"; "metadata_generation"]
    /\ saved_audit r = Some (report_of w)
    /\ stats (run_metadata r) <> None
    /\ stages_failed (run_metadata r) = []
    /\ exists mf,
         saved_manifest r = Some mf
         /\ statistics mf = stats (run_metadata r)
         /\ integrity_verified mf
            = match post_check w with
              | Exited returncode _ _ => returncode =? 0
              | _ => passes (pre_check w)
              end.
Proof.
  cbv zeta.
  set (m0 := set_times initial_metadata (Some (clock_start w)) None None).
  unfold run_pipeline, run_stages. fold m0.
  destruct (run_integrity_check_result m0 (pre_check w)) as [Hp [Hs [Hc [Hf [Hi _]]]]].
  destruct (run_integrity_check m0 (pre_check w)) as [m1 passed].
  cbn [fst snd] in Hp, Hs, Hc, Hf, Hi. subst passed.
  destruct (fail_on_integrity_violation cfg && negb (passes (pre_check w))).
  - cbn [run_success run_metadata saved_audit saved_manifest].
    unfold finalize, record_failure.
    destruct (is_nil _); cbn; rewrite ?Hc, ?Hs; auto.
  - unfold load_and_clean_data. fold (report_of w).
    destruct (check_quarantine_ratio_result cfg (complete m1 "integrity_pre_check")
                (report_of w)) as [m2 [raised [Hq [Hr [Hs2 [Hc2 [Hf2 Hi2]]]]]]].
    rewrite Hq.
    destruct (fail_on_validation_error cfg && exceeded cfg (report_of w)).
    + destruct raised as [e |]; [| discriminate (proj1 Hr eq_refl)].
      cbn [run_success run_metadata saved_audit saved_manifest].
      unfold finalize, record_failure.
      destruct (is_nil _); cbn; rewrite ?Hc2, ?Hs2; cbn; rewrite ?Hc, ?Hs; auto.
    + destruct raised as [e |]; [discriminate (proj2 Hr eq_refl) |].
      match goal with
      | |- context [run_integrity_check ?m (post_check w)] =>
          destruct (run_integrity_check_result m (post_check w))
            as [Hp' [Hs' [Hc' [Hf' [Hi' _]]]]];
          destruct (run_integrity_check m (post_check w)) as [m5 passed']
      end.
      cbn [fst snd] in Hp', Hs', Hc', Hf', Hi'. subst passed'.
      cbn [complete set_stats stats stages_completed stages_failed integrity_status]
        in Hs', Hc', Hf', Hi'.
      rewrite Hc2 in Hc'. cbn [complete stages_completed] in Hc'. rewrite Hc in Hc'.
      rewrite Hf2 in Hf'. cbn [complete stages_failed] in Hf'. rewrite Hf in Hf'.
      rewrite Hi2 in Hi'. cbn [complete integrity_status] in Hi'. rewrite Hi in Hi'.
      destruct (fail_on_integrity_violation cfg && negb (passes (post_check w))).
      * cbn [run_success run_metadata saved_audit saved_manifest].
        unfold finalize, record_failure.
        destruct (is_nil _); cbn; rewrite ?Hc', ?Hs'; repeat split; auto; discriminate.
      * cbn [run_success run_metadata saved_audit saved_manifest].
        unfold finalize. cbn. rewrite ?Hc', ?Hs', ?Hf'.
        repeat split; auto; try discriminate.
        eexists. split; [reflexivity |].
        cbn [generate_metadata_manifest statistics integrity_verified complete stats
             integrity_status].
        rewrite Hs', Hi'. split; [reflexivity |].
        destruct (post_check w) as [code out err | | text]; cbn [passes].
        -- destruct (code =? 0); reflexivity.
        -- destruct (pre_check w) as [code out err | | text']; cbn [passes];
             [destruct (code =? 0) |..]; reflexivity.
        -- destruct (pre_check w) as [code out err | | text']; cbn [passes];
             [destruct (code =? 0) |..]; reflexivity.
Qed.

(** X22.  With the integrity gate closed by the first check, a run loads
    nothing: it fails with no stage completed, no statistics, no audit
    report and no manifest. *)
Theorem closed_gate_loads_nothing (cfg : config) (w : world) :
  fail_on_integrity_violation cfg = true ->
  passes (pre_check w) = false ->
  run_success (run_pipeline cfg w) = false
  /\ stages_completed (run_metadata (run_pipeline cfg w)) = []
  /\ stats (run_metadata (run_pipeline cfg w)) = None
  /\ saved_audit (run_pipeline cfg w) = None
  /\ saved_manifest (run_pipeline cfg w) = None.
Proof.
  intros Hg Hp. pose proof (run_pipeline_cases cfg w) as H. cbv zeta in H.
  rewrite Hg, Hp in H. cbn [andb negb] in H. tauto.
Qed.

Lemma closed_gate_loads_nothing_witness :
  run_success (run_pipeline PIPELINE_CONFIG
                 {| pre_check := TimeoutExpired; post_check := Exited 0 "" "";
                    canonical := [adp_sample]; clock_start := 1000; clock_end := 1042;
                    timestamp := "2025-08-27" |}) = false
  /\ saved_audit (run_pipeline PIPELINE_CONFIG
                    {| pre_check := TimeoutExpired; post_check := Exited 0 "" "";
                       canonical := [adp_sample]; clock_start := 1000; clock_end := 1042;
                       timestamp := "2025-08-27" |}) = None.
Proof.
  destruct (closed_gate_loads_nothing PIPELINE_CONFIG
              {| pre_check := TimeoutExpired; post_check := Exited 0 "" "";
                 canonical := [adp_sample]; clock_start := 1000; clock_end := 1042;
                 timestamp := "2025-08-27" |} eq_refl eq_refl) as [H1 [_ [_ [H2 _]]]].
  split; [exact H1 | exact H2].
Defined.

(** X23.  What decides a run: it succeeds exactly when neither integrity
    check closes the gate and the quarantine ratio is not both exceeded
    and fatal.  Failed loads, and quarantined rows where
    [fail_on_validation_error] is off, never fail it. *)
Theorem run_success_decided (cfg : config) (w : world) :
  run_success (run_pipeline cfg w)
  = (negb (fail_on_integrity_violation cfg) || passes (pre_check w))
    && negb (fail_on_validation_error cfg && exceeded cfg (report_of w))
    && (negb (fail_on_integrity_violation cfg) || passes (post_check w)).
Proof.
  pose proof (run_pipeline_cases cfg w) as H. cbv zeta in H.
  destruct (fail_on_integrity_violation cfg), (passes (pre_check w)),
    (fail_on_validation_error cfg && exceeded cfg (report_of w)),
    (passes (post_check w)); cbn [andb orb negb] in *; tauto.
Qed.

(** X24.  The stages a run completes are none, the first, the first four
    or all six of the source's; it succeeds exactly when all six are
    completed, and exactly then the manifest is written. *)
Theorem stages_of_a_run (cfg : config) (w : world) :
  let r := run_pipeline cfg w in
  let done := stages_completed (run_metadata r) in
  let all := ["integrity_pre_check"; "data_loading"; "data_validation";
              "data_transformation"; "integrity_post_check"; "metadata_generation"] in
  (exists n, done = firstn n all)
  /\ (run_success r = true <-> done = all)
  /\ (run_success r = true <-> saved_manifest r <> None).
Proof.
  cbv zeta. pose proof (run_pipeline_cases cfg w) as H. cbv zeta in H.
  destruct (fail_on_integrity_violation cfg && negb (passes (pre_check w)));
    [| destruct (fail_on_validation_error cfg && exceeded cfg (report_of w));
       [| destruct (fail_on_integrity_violation cfg && negb (passes (post_check w)))]].
  - destruct H as [-> [-> [_ [-> _]]]].
    split; [exists 0%nat; reflexivity |]. split; split; try discriminate; congruence.
  - destruct H as [-> [-> [_ [-> _]]]].
    split; [exists 1%nat; reflexivity |]. split; split; try discriminate; congruence.
  - destruct H as [-> [-> [_ [-> _]]]].
    split; [exists 4%nat; reflexivity |]. split; split; try discriminate; congruence.
  - destruct H as [-> [-> [_ [_ [_ [mf [-> _]]]]]]].
    split; [exists 6%nat; reflexivity |]. split; split; try discriminate; auto.
Qed.

(** X25.  The manifest of a run reports the integrity of the data as
    verified when the last check that gave an answer passed: after a
    second check that timed out or could not be run, it reports what the
    first check found.  With the gate on, a manifest is written only after
    both checks passed. *)
Theorem manifest_integrity (cfg : config) (w : world) (mf : manifest) :
  saved_manifest (run_pipeline cfg w) = Some mf ->
  integrity_verified mf
  = match post_check w with
    | Exited returncode _ _ => returncode =? 0
    | _ => passes (pre_check w)
    end
  /\ statistics mf = stats (run_metadata (run_pipeline cfg w))
  /\ (fail_on_integrity_violation cfg = true ->
      passes (pre_check w) = true /\ passes (post_check w) = true
      /\ integrity_verified mf = true).
Proof.
  pose proof (run_pipeline_cases cfg w) as H. cbv zeta in H. intros Hm.
  destruct (fail_on_integrity_violation cfg && negb (passes (pre_check w))) eqn:G1;
    [destruct H as [_ [_ [_ [H _]]]]; congruence |].
  destruct (fail_on_validation_error cfg && exceeded cfg (report_of w));
    [destruct H as [_ [_ [_ [H _]]]]; congruence |].
  destruct (fail_on_integrity_violation cfg && negb (passes (post_check w))) eqn:G2;
    [destruct H as [_ [_ [_ [H _]]]]; congruence |].
  destruct H as [_ [_ [_ [_ [_ [mf' [Hmf [Hst Hiv]]]]]]]].
  rewrite Hm in Hmf. injection Hmf as <-.
  split; [exact Hiv |]. split; [exact Hst |].
  intros Hg. rewrite Hg in G1, G2. cbn [andb] in G1, G2.
  apply negb_false_iff in G1, G2. split; [exact G1 |]. split; [exact G2 |].
  rewrite Hiv. destruct (post_check w); cbn [passes] in G2; [exact G2 | discriminate..].
Qed.

Lemma manifest_integrity_witness :
  exists mf,
    saved_manifest (run_pipeline open_config missing_file_world) = Some mf
    /\ post_check missing_file_world = TimeoutExpired
    /\ integrity_verified mf = true.
Proof.
  destruct (saved_manifest (run_pipeline open_config missing_file_world)) as [mf |] eqn:H;
    [| vm_compute in H; discriminate H].
  exists mf. split; [reflexivity |]. split; [reflexivity |].
  exact (proj1 (manifest_integrity open_config missing_file_world mf H)).
Defined.

(* ================================================================== *)
(** * Properties of the second loader and of the normalizer *)
(* ================================================================== *)

(** ** Case and white space *)

Lemma upper_char_idem (c : ascii) : upper_char (upper_char c) = upper_char c.
Proof. destruct c as [[] [] [] [] [] [] [] []]; reflexivity. Qed.

Lemma upper_lower_char (c : ascii) : upper_char (lower_char c) = upper_char c.
Proof. destruct c as [[] [] [] [] [] [] [] []]; reflexivity. Qed.

Lemma isspace_upper_char (c : ascii) : isspace (upper_char c) = isspace c.
Proof. destruct c as [[] [] [] [] [] [] [] []]; reflexivity. Qed.

Lemma map_string_twice (f g h : ascii -> ascii) (s : string) :
  (forall c, f (g c) = h c) -> map_string f (map_string g s) = map_string h s.
Proof.
  intros H. induction s as [| c s IH]; [reflexivity |].
  cbn [map_string]. now rewrite H, IH.
Qed.

Lemma upper_idem (s : string) : upper (upper s) = upper s.
Proof. apply map_string_twice, upper_char_idem. Qed.

Lemma upper_lower (s : string) : upper (lower s) = upper s.
Proof. apply map_string_twice, upper_lower_char. Qed.

Lemma is_empty_map_string (f : ascii -> ascii) (s : string) :
  is_empty (map_string f s) = is_empty s.
Proof. destruct s; reflexivity. Qed.

Section StripLemmas.
Variable sp : ascii -> bool.

Lemma rstrip_with_idem (s : string) : rstrip_with sp (rstrip_with sp s) = rstrip_with sp s.
Proof.
  induction s as [| c s IH]; [reflexivity |].
  cbn [rstrip_with]. destruct (sp c && is_empty (rstrip_with sp s)) eqn:E; [reflexivity |].
  cbn [rstrip_with]. now rewrite IH, E.
Qed.

Lemma lstrip_with_head (s : string) :
  lstrip_with sp s = EmptyString
  \/ exists c s', lstrip_with sp s = String c s' /\ sp c = false.
Proof.
  induction s as [| c s IH]; [now left |].
  cbn [lstrip_with]. destruct (sp c) eqn:E; [exact IH |]. right. now exists c, s.
Qed.

Lemma strip_with_idem (s : string) : strip_with sp (strip_with sp s) = strip_with sp s.
Proof.
  unfold strip_with.
  destruct (lstrip_with_head s) as [-> | [c [s' [-> Hc]]]]; [reflexivity |].
  assert (E : rstrip_with sp (String c s') = String c (rstrip_with sp s'))
    by (cbn [rstrip_with]; now rewrite Hc).
  rewrite E. cbn [lstrip_with]. rewrite Hc, <- E. apply rstrip_with_idem.
Qed.

Variable f : ascii -> ascii.
Hypothesis sp_f : forall c, sp (f c) = sp c.

Lemma lstrip_with_map (s : string) :
  lstrip_with sp (map_string f s) = map_string f (lstrip_with sp s).
Proof.
  induction s as [| c s IH]; [reflexivity |].
  cbn [map_string lstrip_with]. rewrite sp_f. destruct (sp c); [exact IH | reflexivity].
Qed.

Lemma rstrip_with_map (s : string) :
  rstrip_with sp (map_string f s) = map_string f (rstrip_with sp s).
Proof.
  induction s as [| c s IH]; [reflexivity |].
  cbn [map_string rstrip_with]. rewrite sp_f, IH, is_empty_map_string.
  destruct (sp c && is_empty (rstrip_with sp s)); reflexivity.
Qed.

Lemma strip_with_map (s : string) :
  strip_with sp (map_string f s) = map_string f (strip_with sp s).
Proof. unfold strip_with. now rewrite lstrip_with_map, rstrip_with_map. Qed.

End StripLemmas.

Lemma strip_upper (s : string) : strip (upper s) = upper (strip s).
Proof. apply strip_with_map, isspace_upper_char. Qed.

Lemma strip_idem (s : string) : strip (strip s) = strip s.
Proof. apply strip_with_idem. Qed.

(** ** [PlayerNormalizer.normalize_team_code] *)

(** The function after its guard: on the trimmed upper-case text. *)
Lemma normalize_team_code_upper (team : string) :
  Normalizer.normalize_team_code team
  = let u := strip (upper team) in
    match dict_get Normalizer.team_code_aliases u with
    | Some code => code
    | None =>
        if Normalizer.str_len u <=? 3 then u
        else match dict_get Normalizer.dst_mappings (lower u) with
             | Some code => code
             | None => u
             end
    end.
Proof. destruct team; reflexivity. Qed.

Lemma canonical_codes_fixed (d : dict string) (k code : string) :
  forallb (fun kv => String.eqb (Normalizer.normalize_team_code (snd kv)) (snd kv)) d = true ->
  dict_get d k = Some code ->
  Normalizer.normalize_team_code code = code.
Proof.
  intros Hall H. apply dict_get_In in H. rewrite forallb_forall in Hall.
  apply String.eqb_eq. exact (Hall (k, code) H).
Qed.

(** X26.  Normalising a team code is idempotent: a normalised code is
    left as it is. *)
Theorem normalize_team_code_idempotent (team : string) :
  Normalizer.normalize_team_code (Normalizer.normalize_team_code team)
  = Normalizer.normalize_team_code team.
Proof.
  rewrite (normalize_team_code_upper team). cbv zeta.
  assert (Hu : strip (upper (strip (upper team))) = strip (upper team))
    by (now rewrite strip_upper, strip_idem, !strip_upper, upper_idem).
  destruct (dict_get Normalizer.team_code_aliases (strip (upper team))) as [code |] eqn:Ha.
  - apply (canonical_codes_fixed Normalizer.team_code_aliases _ _ eq_refl Ha).
  - destruct (Normalizer.str_len (strip (upper team)) <=? 3) eqn:Hl.
    + rewrite normalize_team_code_upper. cbv zeta. now rewrite Hu, Ha, Hl.
    + destruct (dict_get Normalizer.dst_mappings (lower (strip (upper team))))
        as [code |] eqn:Hd.
      * apply (canonical_codes_fixed Normalizer.dst_mappings _ _ eq_refl Hd).
      * rewrite normalize_team_code_upper. cbv zeta. now rewrite Hu, Ha, Hl, Hd.
Qed.

(** X27.  Normalising a team code ignores case and surrounding white
    space: two texts with the same trimmed upper-case form get the same
    code. *)
Theorem normalize_team_code_ignores_case (team team' : string) :
  upper (strip team) = upper (strip team') ->
  Normalizer.normalize_team_code team = Normalizer.normalize_team_code team'.
Proof.
  intros H. rewrite !normalize_team_code_upper, !strip_upper, H. reflexivity.
Qed.

Lemma normalize_team_code_ignores_case_witness :
  Normalizer.normalize_team_code " washington "
  = Normalizer.normalize_team_code "WASHINGTON".
Proof.
  apply (normalize_team_code_ignores_case " washington " "WASHINGTON"). reflexivity.
Defined.

(** ** [RobustCSVLoaderV2.parse_value] *)

Lemma endswith_app (c : ascii) (s : string) : LoaderV2.endswith c (s ++ String c "") = true.
Proof.
  induction s as [| d s IH]; cbn [append LoaderV2.endswith]; [apply Ascii.eqb_refl |].
  destruct (s ++ String c "")%string eqn:E; [destruct s; discriminate E | exact IH].
Qed.

Lemma rstrip_with_app (c : ascii) (s : string) :
  rstrip_with (fun d => Ascii.eqb d c) (s ++ String c "")
  = rstrip_with (fun d => Ascii.eqb d c) s.
Proof.
  induction s as [| d s IH]; cbn [append rstrip_with].
  - now rewrite Ascii.eqb_refl.
  - now rewrite IH.
Qed.

Lemma rstrip_with_kept (c : ascii) (s : string) :
  LoaderV2.endswith c s = false -> rstrip_with (fun d => Ascii.eqb d c) s = s.
Proof.
  induction s as [| d s IH]; [reflexivity |].
  cbn [LoaderV2.endswith rstrip_with]. destruct s as [| e s].
  - intros ->. reflexivity.
  - intros H. rewrite (IH H). cbn [is_empty]. now rewrite andb_false_r.
Qed.

Lemma percent_is_no_token (s : string) :
  LoaderV2.endswith "%" s = true -> mem_string s LoaderV2.NA_TOKENS = false.
Proof.
  intros H. destruct (mem_string s LoaderV2.NA_TOKENS) eqn:E; [| reflexivity].
  apply mem_string_In in E. cbn in E.
  repeat (destruct E as [<- | E]; [discriminate H |]). contradiction.
Qed.

(** X28.  In the second loader a percent sign divides by one hundred:
    where the bare text reads as the float [x], the text followed by [%]
    gives [x / 100]. *)
Theorem v2_percent_divides (bare : string) (x : float) :
  float_of_str bare = Some x ->
  LoaderV2.endswith "%" bare = false ->
  LoaderV2.parse_value (Some (bare ++ "%")%string) = PFloat (LoaderV2.float_div x 100).
Proof.
  intros Hx Hb. unfold LoaderV2.parse_value.
  rewrite (percent_is_no_token _ (endswith_app "%" bare)), endswith_app, rstrip_with_app,
    (rstrip_with_kept _ _ Hb), Hx.
  reflexivity.
Qed.

Lemma v2_percent_divides_witness :
  LoaderV2.parse_value (Some "45.3%"%string)
  = PFloat (LoaderV2.float_div (decimal_to_float false 453 (-1)) 100)
  /\ float_repr (LoaderV2.float_div (decimal_to_float false 453 (-1)) 100)
     = "0.45299999999999996"%string.
Proof.
  split; [| vm_compute; reflexivity].
  apply (v2_percent_divides "45.3"%string (decimal_to_float false 453 (-1)));
    vm_compute; reflexivity.
Defined.

(** X29.  The second loader reads as null its thirteen tokens, as
    written and nothing else; each of them is a null for the first loader
    as well. *)
Theorem v2_null_tokens (s : string) :
  (LoaderV2.parse_value (Some s) = PNone <-> In s LoaderV2.NA_TOKENS)
  /\ (In s LoaderV2.NA_TOKENS -> is_na (Some s) = true).
Proof.
  split; [split |].
  - unfold LoaderV2.parse_value.
    destruct (mem_string s LoaderV2.NA_TOKENS) eqn:E; [intros _; now apply mem_string_In |].
    destruct (if LoaderV2.endswith "%" s then _ else None); [discriminate |].
    destruct (contains_char "." s).
    + destruct (float_of_str s); discriminate.
    + destruct (int_of_str s); discriminate.
  - intros H. apply mem_string_In in H. unfold LoaderV2.parse_value. now rewrite H.
  - intros H. cbn in H.
    repeat (destruct H as [<- | H]; [reflexivity |]). contradiction.
Qed.

(** ** The two alias tables *)

(** X30.  A team code that the first loader's [TEAM_MAPPINGS] maps is
    given the same canonical code by the second loader, which parses the
    cell and normalises it, and is flagged as normalised. *)
Theorem v2_alias_agrees (k code : string) :
  dict_get TEAM_MAPPINGS k = Some code ->
  LoaderV2.normalize_team_code (LoaderV2.parse_value (Some k)) = (PStr code, true).
Proof.
  intros H. apply dict_get_In in H. cbn in H.
  repeat (destruct H as [H | H]; [injection H as <- <-; vm_compute; reflexivity |]).
  contradiction.
Qed.

Lemma v2_alias_agrees_witness :
  LoaderV2.normalize_team_code (LoaderV2.parse_value (Some "ARZ"%string))
  = (PStr "ARI", true).
Proof. apply (v2_alias_agrees "ARZ"%string "ARI"%string). reflexivity. Defined.
